(* ===== verification/_CoqProject ===== *)
-Q . S2P
Prelude.v
PyFloat.v
Scene.v
MeshOps.v
RefHost.v
Branches.v
Durations.v
Leaves.v
Addon.v
