(* ===== verification/Prelude.v ===== *)
(** * Ivy Growth Animator: a verified model of [src/ivy_growth_animator_addon.py]

    The addon drives a host 3D editor (Blender 2.65). It has two
    operators, and each works through a property group:

    - [AnimateBranches.execute] (lines 103-125) calls
      [BranchesAnimProperties.prepare_ivy_object] (153-201): the curve
      named by [BranchObject] becomes a mesh, its faces are sorted by
      distance from the curve's first point, a Build modifier is added,
      and the mesh is split into loose parts (islands). It then calls
      [find_ivy_branches] (204-219), which lists every object whose name
      contains the base name together with its face count;
      [find_biggest_branch] (221-233), which finds the largest face count
      and derives the base build length [int(most_faces / faces_per_frame)];
      and [set_build_timing] (235-257), which gives every island a Build
      start frame and a duration proportional to its face count.
    - [AnimateLeaves.execute] (135-149) lists the islands again and calls
      [LeavesAnimProperties.animate_leaves] (389-420). For each face
      (leaf) of the leaves mesh, [find_nearest_branch] (305-329) and
      [find_nearest_face_on_mesh] (284-303) pick the island closest to
      the leaf centre. [create_shapekey] (331-387) then adds a shape key
      that collapses the leaf, with three keyframes: hidden at the
      global start, hidden again [delay] frames after its branch has
      finished, and full size [growth] frames later. [delay] and
      [growth] come from [random.randint].

    The module also declares the panel [IvyGrowthAnimator] (lines
    50-93), whose [draw] lays out the two object fields, the two
    operator buttons and the parameters, and [register] / [unregister]
    (439-448), which register the five classes with Blender and define
    the properties [Object.BranchObject], [Object.LeavesObject],
    [Scene.BranchesAnimProperties] and [Scene.LeavesAnimProperties]
    that the operators and the panel read.

    ** Files

    - [Prelude] (this file) holds the Python side of the model.
      [py_error] lists the exceptions the code can raise. [PyM] is a
      state and exception monad that keeps the state reached when an
      exception is raised, as Python does; stdpp's [x ← c; k] notation
      works for it. [py_for] models a [for] loop, [py_index] a list
      subscript, [py_str_contains] the substring test [a in b] and
      [py_sort] the stable [list.sort]. Three reasoning layers sit on top:
      [commutes f c] (the computation [c] does not look at the part of
      the state [f] changes), closed by the tactic [commute_solve], and
      [runs c s P] (from [s], [c] returns normally in a state satisfying
      [P]), driven by [runs_step] and cut at checkpoints by [runs_at];
      and [preserves I c Q] (an invariant [I] of the state survives [c],
      returning or raising), applied by [preserves_solve] with the hint
      database [preserves].
    - [PyFloat] models CPython's [float] exactly, as IEEE-754 binary64
      through the Standard Library's axiom-free [SpecFloat]. It covers
      [int / int], [float * int] and [int(float)], so the model truncates
      the same way the code does.
    - [Scene] holds the host state the code reads and writes: objects in
      the order of [bpy.data.objects], meshes, curves, Build modifiers,
      shape keys with their keyframes, the current frame, the edit mode
      and the two property groups, with the lookups and updates the code
      performs ([bpy.data.objects[name]], [obj.modifiers[name]],
      [context.object], [random.randint]). The host operators the code
      only calls (convert, sort_elements, separate, shape_key_add,
      resize) are the fields of the type class [Host], and the state
      changes the theorems rely on are laws of that class. Python's
      [random._randbelow] is the class [Random], with the law that it
      returns a value in [[0, n)], and [Scene.randint] follows
      [Lib/random.py] over it; coordinates are of any type with
      the operations of [Scalar], and [ScalarOrder] states that [<] on
      them is a strict weak order.
    - [MeshOps] models two Blender operators for the reference host,
      as Blender 2.65 implements them. [Loose] is
      [mesh.separate(type='LOOSE')] ([mesh_separate_loose]): a shell walk
      from the first vertex ([shell_round], [close], [shell]), repeated
      by [separate_loop] at most [totvert] times, each walked part moved
      to a new mesh ([submesh]). [CursorSort] is
      [mesh.sort_elements(type='CURSOR_DISTANCE', elements={'FACE'})]:
      a stable sort of the faces by the exact squared distance from the
      cursor to their mean centre ([face_dist]).
    - [RefHost] gives one instance of each class (integer coordinates, a
      counter generator, and a host that converts curves, sorts and
      separates with [MeshOps], names the new parts [.001], [.002], ...
      as [BLI_uniquename] does, and links objects in name order as
      [id_sort_by_name] does), so that the witnesses run the model on
      concrete scenes with [vm_compute].
    - [Branches] models [BranchesAnimProperties] and [AnimateBranches]:
      [find_ivy_branches], [find_biggest_branch], [set_build_timing] and
      its loop [timing_loop], [prepare_ivy_object] and
      [animate_branches_execute].
    - [Durations] checks the float duration of line 255 exhaustively
      for branches of up to [max_faces] faces.
    - [Leaves] models [LeavesAnimProperties] and [AnimateLeaves]:
      [find_nearest_face_on_mesh], [find_nearest_branch] and its loop
      [nearest_loop], [create_shapekey], [animate_leaves] and
      [animate_leaves_execute].
    - [Addon] models [bl_info], the class declarations, [register],
      [unregister] and [IvyGrowthAnimator.draw]. The registry is a
      record of a [gset] of registered classes and a [gmap] of the
      properties defined on [Object] and [Scene]; [bpy.utils]'s
      [register_module] and [unregister_module] are modelled as
      Blender 2.65 implements them. [lifecycle_step] (one call of
      [register] or [unregister]) and [reachable] form the state
      machine of enabling and disabling the add-on; [call_operator]
      dispatches [bpy.ops.<idname>] to a registered operator's
      [execute]; [draw] builds a [layout] of columns and boxes.

    ** Theorems

    Every theorem listed here is about the add-on's own code; the
    models of Blender's operators and of Python's built-ins serve them.

    - Timing (Branches, C1, C2, C5, C6, C17): [set_build_timing] writes
      the staggered start frames and the proportional durations,
      clamped, into exactly the listed islands; the scan of
      [find_biggest_branch] equals a reference maximum; the error paths
      ([KeyError] on an object without the modifier, [ZeroDivisionError]
      when no island has a face) leave the islands before them timed;
      the float duration (Durations, C17) is always the exact
      proportional duration or one frame less, for up to 24 faces.
    - The branches operator (C3, C4, C7, C8, C16, C26, C27):
      [find_ivy_branches] lists every object whose name contains the
      base name, in scene order, with its face count, and raises on the
      first that is not a mesh (C4), so a leaves object named after the
      ivy is listed and, lacking the modifier, stops the timing with
      [KeyError] (C5); every entry it lists is such a mesh (C26). On an
      ivy curve whose name no other object contains, [execute] converts
      and splits it, lists exactly the parts under distinct names and
      times every one of them (C16, through [prepare_runs] and the
      predicate [islands_ready]); [initial_delay] is never read (C3);
      without a branch object [execute] returns [None] (C7); a missing
      branch object, or one without a first curve point (a mesh, e.g.
      after a first run), makes it raise with nothing changed (C8). On
      the reference host the whole preparation loses no face (C27): the
      face counts [find_ivy_branches] lists add up to the faces of the
      converted curve.
    - Nearest island (Leaves, C9-C11): [find_nearest_branch] returns the
      first island that no island is strictly closer than; its choice
      does not change when islands are moved, because
      [face.center * matrix_world] drops the translation; it raises
      [IndexError] exactly when there is no island or some island has
      no face.
    - Shape keys (C12, C13, C25): [create_shapekey] appends one key
      keyed hidden / hidden / full size at the computed frames, within
      the random ranges, and changes nothing else but the frame, the
      mode and the random state; with [min_growth_length >
      max_growth_length] it raises [ValueError] after two keyframes; the
      loop selecting a face's corners sets their flags one by one and,
      on a corner out of range, raises [IndexError] with the earlier
      flags set (C25).
    - The leaves operator (C14, C15, C18): [animate_leaves] gives the
      leaves mesh a base key and one key per face, in face order, timed
      by the island [find_nearest_branch] picks; [execute] raises
      without changing anything when the ivy is still a curve or the
      leaves object does not exist; a leaves object that is not a mesh
      is selected and made active before the operator raises (C18).
    - Registration (Addon, C19-C22): the reachable registries are
      exactly three (fresh, enabled, disabled-with-leftover properties);
      disabling leaves [Scene.BranchesAnimProperties] pointing to an
      unregistered class; one [register] always enables, raising when
      already enabled; the operators run exactly when enabled.
    - The panel (Addon, C23): whenever the panel is registered, [draw]
      shows only what exists in the registry, every group property but
      [modifier_name]; without an active object it raises [TypeError].
    - The two operators in turn (Leaves, C24): Animate Branches leaves
      the ivy active, so Animate Leaves run next reads the ivy's
      fields, and does nothing when they are empty. The proof combines
      [preserves] for the invariant "the active object is the ivy" with
      [py_mbind_ok_inv], which splits a run that returned into its
      steps.

    ** Bounds

    Face counts, frame numbers and property values are integers (Z).
    Python's [int / int] is modelled as the binary64 quotient of the two
    converted operands. This is exact (CPython rounds the true quotient
    once) whenever both operands have magnitude at most 2^53. Blender
    stores face counts as C [int], which is far below that. No lemma
    about binary64 rounding is available without Flocq, so the float
    results are established by evaluation: on examples, and for all
    inputs up to [max_faces = 24] by a decision procedure that the kernel
    checker re-runs (a larger bound makes that re-run take minutes).
    Frames written to a Build modifier or set by [frame_set] are clamped to the
    host's [[MINAFRAME, MAXFRAME]] ([-300000, 300000] in the reference
    host). Python's own loops and [list.sort] terminate by construction.
    The reference host's separation is the one place with fuel:
    [Loose.close] walks at most as many rounds as the mesh has vertices
    left, each round adding a vertex or stopping ([close_fixpoint]), and
    [Loose.separate_loop] runs at most [totvert] times, the bound
    [mesh_separate_loose] itself uses, each round removing at least its
    seed ([filter_out_shorter]).

    ** Not modelled

    The [print] calls. CPython's generator behind [random._randbelow]
    is the class [Random] with its range law: the add-on's theorems hold
    for any generator meeting it, and the Mersenne Twister itself is
    not code of the add-on. The theorems of [Branches] and [Leaves] rely
    only on the [Host] laws, except C27, which is about the reference
    host; the reference host's convert is an
    idealisation (one vertex per curve point and one two-corner face per
    segment, where Blender makes edges, or a tube for a bevelled
    curve), and its sort measures from the cursor minus the object's
    translation (Blender uses the inverse of the whole matrix), which
    agree for the examples. [mesh.select_all()] at line 197 toggles the
    selection rather than selecting all, which does not matter because
    [separate(type='LOOSE')] clears the selection first. What the panel looks like beyond
    its list of widgets, and Blender's redraw and button events.
    Selection-mode switches ([mesh.select_mode]) and
    [data.update(calc_tessface=True)] change nothing the code reads
    afterwards and are left out. [call_operator] checks only that the
    operator is registered: the properties [execute] reads are all
    defined whenever it is (C19), and [execute] reads them before it
    changes anything. *)

From stdpp Require Import base list strings decidable sets.
From Stdlib Require Import ZArith Lia Sorted.

Declare Scope ivy_scope.
Delimit Scope ivy_scope with ivy.
Open Scope ivy_scope.

(** ** Python exceptions *)

Inductive py_error :=
| KeyError (key : string)
| IndexError
| ZeroDivisionError
| ValueError
| OverflowError
| AttributeError (attr : string)
| TypeError
| RuntimeError
| Exception (msg : string).

#[export] Instance py_error_eq_dec : EqDecision py_error.
Proof. solve_decision. Defined.

Inductive result (A : Type) := Ok (a : A) | Err (e : py_error).
Arguments Ok {A} a.
Arguments Err {A} e.

(** Pure fallible code: [result] is a monad. *)
#[export] Instance result_ret : MRet result := fun A a => Ok a.
#[export] Instance result_bind : MBind result :=
  fun A B k r => match r with Ok a => k a | Err e => Err e end.

(** ** The state and exception monad

    A computation returns its result together with the state reached:
    after an exception the effects already performed stay, as they do
    in the host when a Python operator raises. *)

Definition PyM (S A : Type) : Type := S -> result A * S.

Definition py_ret {S A} (a : A) : PyM S A := fun s => (Ok a, s).

Definition py_bind {S A B} (c : PyM S A) (k : A -> PyM S B) : PyM S B :=
  fun s => match c s with
           | (Ok a, s') => k a s'
           | (Err e, s') => (Err e, s')
           end.

Definition py_raise {S A} (e : py_error) : PyM S A := fun s => (Err e, s).
Definition py_get {S} : PyM S S := fun s => (Ok s, s).
Definition py_gets {S A} (f : S -> A) : PyM S A := fun s => (Ok (f s), s).
Definition py_put {S} (s : S) : PyM S unit := fun _ => (Ok tt, s).
Definition py_modify {S} (f : S -> S) : PyM S unit := fun s => (Ok tt, f s).
Definition py_lift {S A} (r : result A) : PyM S A := fun s => (r, s).

#[export] Instance py_mret S : MRet (PyM S) := fun A a => py_ret a.
#[export] Instance py_mbind S : MBind (PyM S) := fun A B k c => py_bind c k.

(** Running a computation: its result and its final state. *)
Definition run_res {S A} (c : PyM S A) (s : S) : result A := fst (c s).
Definition run_st {S A} (c : PyM S A) (s : S) : S := snd (c s).

(** [for x in l: body(x)] *)
Fixpoint py_for {S A} (l : list A) (body : A -> PyM S unit) : PyM S unit :=
  match l with
  | [] => py_ret tt
  | x :: l' => py_bind (body x) (fun _ => py_for l' body)
  end.

(** [l[i]] for a non-negative index: [IndexError] out of range. *)
Definition py_index {A} (l : list A) (i : nat) : result A :=
  match l !! i with Some x => Ok x | None => Err IndexError end.

(** [needle in hay] on Python strings: substring test (the empty
    string is in every string). *)
Fixpoint py_str_contains (needle hay : string) : bool :=
  String.prefix needle hay ||
  match hay with
  | EmptyString => false
  | String _ hay' => py_str_contains needle hay'
  end.

(** ** Automation *)

Create HintDb ivy discriminated.
Create Rewrite HintDb ivy_simpl.

Ltac py_unfold :=
  cbn [py_bind py_ret py_raise py_get py_gets py_put py_modify py_lift
       run_res run_st fst snd mbind mret py_mbind py_mret] in *.

(** ** Lemmas on the monad and loops *)

Lemma py_bind_ret_l {S A B} (a : A) (k : A -> PyM S B) :
  py_bind (py_ret a) k = k a.
Proof. reflexivity. Qed.

Lemma py_bind_assoc {S A B C} (c : PyM S A) (k1 : A -> PyM S B)
      (k2 : B -> PyM S C) s :
  py_bind (py_bind c k1) k2 s = py_bind c (fun a => py_bind (k1 a) k2) s.
Proof.
  unfold py_bind. destruct (c s) as [[a|e] s']; reflexivity.
Qed.
#[export] Hint Rewrite @py_bind_ret_l @py_bind_assoc : ivy_simpl.

Lemma py_bind_ext {S A B} (c : PyM S A) (k1 k2 : A -> PyM S B) s :
  (forall a s', k1 a s' = k2 a s') -> py_bind c k1 s = py_bind c k2 s.
Proof. intros H. unfold py_bind. destruct (c s) as [[a|e] s']; auto. Qed.

(** Stepping through [x ← c; k x] once [c] is known. *)
Lemma py_mbind_ok {S A B} (c : PyM S A) (k : A -> PyM S B) s a s' :
  c s = (Ok a, s') -> mbind k c s = k a s'.
Proof. intros Hc. unfold mbind, py_mbind, py_bind. by rewrite Hc. Qed.

Lemma py_mbind_err {S A B} (c : PyM S A) (k : A -> PyM S B) s e s' :
  c s = (Err e, s') -> mbind k c s = (Err e, s').
Proof. intros Hc. unfold mbind, py_mbind, py_bind. by rewrite Hc. Qed.





Lemma py_index_lookup {A} (l : list A) i x :
  l !! i = Some x -> py_index l i = Ok x.
Proof. unfold py_index. by intros ->. Qed.

Lemma py_index_out {A} (l : list A) i :
  length l <= i -> py_index l i = Err IndexError.
Proof. unfold py_index. intros H. by rewrite lookup_ge_None_2. Qed.
#[export] Hint Resolve py_index_lookup py_index_out : ivy.

Lemma py_str_contains_prefix needle hay :
  String.prefix needle hay = true -> py_str_contains needle hay = true.
Proof. destruct hay; cbn; intros ->; reflexivity. Qed.

(** Every string contains itself followed by anything. *)
Lemma py_str_contains_app needle suffix :
  py_str_contains needle (needle ++ suffix)%string = true.
Proof.
  apply py_str_contains_prefix.
  induction needle as [|c n IH]; simpl; [destruct suffix; reflexivity|].
  destruct (Ascii.ascii_dec c c); [exact IH | congruence].
Qed.

Lemma py_str_contains_refl s : py_str_contains s s = true.
Proof.
  assert (E : (s ++ "")%string = s) by (induction s as [|a s IH]; [reflexivity | rewrite <- IH at 2; reflexivity]).
  rewrite <- E at 2. apply py_str_contains_app.
Qed.
#[export] Hint Resolve py_str_contains_app : ivy.

(** ** Commuting with a state change

    [commutes f c]: running [c] after changing the state by [f] gives
    the same result as running [c] first and changing its final state.
    This expresses that [c] neither reads nor overwrites what [f]
    changes. The lemmas below build it up along the structure of the
    code; [commute_solve] applies them. *)

Definition commutes {S A} (f : S -> S) (c : PyM S A) : Prop :=
  forall s, c (f s) = (fst (c s), f (snd (c s))).

Create HintDb commute discriminated.

Section Commutes.
Context {S : Type} (f : S -> S).

Lemma commutes_ret {A} (a : A) : commutes f (py_ret a).
Proof. intros s. reflexivity. Qed.

Lemma commutes_raise {A} e : commutes f (py_raise (A:=A) e).
Proof. intros s. reflexivity. Qed.

Lemma commutes_lift {A} (r : result A) : commutes f (py_lift r).
Proof. intros s. reflexivity. Qed.

Lemma commutes_gets {A} (g : S -> A) : (forall s, g (f s) = g s) -> commutes f (py_gets g).
Proof. intros Hg s. unfold py_gets. by rewrite Hg. Qed.

Lemma commutes_modify (h : S -> S) : (forall s, h (f s) = f (h s)) -> commutes f (py_modify h).
Proof. intros Hh s. unfold py_modify. by rewrite Hh. Qed.

Lemma commutes_bind {A B} (c : PyM S A) (k : A -> PyM S B) :
  commutes f c -> (forall a, commutes f (k a)) -> commutes f (mbind k c).
Proof.
  intros Hc Hk s. unfold mbind, py_mbind, py_bind. rewrite Hc.
  destruct (c s) as [[a|e] s']; cbn; [apply Hk | reflexivity].
Qed.

Lemma commutes_for {A} (l : list A) (body : A -> PyM S unit) :
  (forall x, commutes f (body x)) -> commutes f (py_for l body).
Proof.
  intros Hb. induction l as [|x l IH]; [apply commutes_ret|].
  exact (commutes_bind _ _ (Hb x) (fun _ => IH)).
Qed.

End Commutes.

#[export] Hint Resolve commutes_ret commutes_raise commutes_lift : commute.

Ltac commute_step :=
  match goal with
  | |- commutes _ (mbind _ _) => apply commutes_bind; [|intros; cbv beta]
  | |- commutes _ (py_for _ _) => apply commutes_for; intros
  | |- commutes _ (if ?b then _ else _) => destruct b
  | |- commutes _ (match ?x with _ => _ end) => destruct x
  | |- commutes _ (py_gets _) => apply commutes_gets; intros; reflexivity
  | |- commutes _ (py_modify _) => apply commutes_modify; intros; reflexivity
  | |- _ => solve [eauto with commute]
  end.

Ltac commute_solve := repeat commute_step.

(** Prove [forall x, x ∈ l -> P x] for a concrete list [l] by checking
    each element with [tac]. *)
Tactic Notation "by_elements" tactic3(tac) :=
  let x := fresh "x" in let Hx := fresh "Hx" in
  intros x Hx; repeat (apply elem_of_cons in Hx as [->|Hx]; [tac|]);
  by apply elem_of_nil in Hx.

(** ** [list.sort()]

    Python's sort is stable and compares with [<] only. [py_sort] is an
    insertion sort: [sort_insert x l] puts [x] in front of the first
    element of [l] that is not smaller than it, and the elements are
    inserted from the last one. For a strict weak order this is the one
    stable sorted permutation, which Timsort also returns; the add-on
    only reads the first element of the sorted list (line 303), and the
    proofs only use that the result is a permutation. *)

Section Sort.
Context {A : Type} (ltb : A -> A -> bool).

Fixpoint sort_insert (x : A) (l : list A) : list A :=
  match l with
  | [] => [x]
  | y :: l' => if ltb y x then y :: sort_insert x l' else x :: l
  end.

Definition py_sort (l : list A) : list A := fold_right sort_insert [] l.

Lemma sort_insert_perm x l : sort_insert x l ≡ₚ x :: l.
Proof.
  induction l as [|y l IH]; cbn; [done|].
  case_match; first [done | rewrite IH; constructor].
Qed.

Lemma py_sort_perm l : py_sort l ≡ₚ l.
Proof.
  induction l as [|x l IH]; cbn; [done|]. rewrite sort_insert_perm. by f_equiv.
Qed.

End Sort.

(** ** Invariants of the state

    [preserves I c Q]: from a state satisfying [I], [c] ends in a state
    satisfying [I], whether it returns or raises, and a value it returns
    satisfies [Q]. It is a unary program logic on [PyM], as [has_post]
    is on interaction trees; its rules follow the structure of the code,
    and [preserves_solve] applies them, with the lemmas of the hint
    database [preserves] for the operations of the store. *)

Definition preserves {S A} (I : S -> Prop) (c : PyM S A) (Q : A -> Prop) : Prop :=
  forall s, I s -> I (snd (c s)) /\ forall a, fst (c s) = Ok a -> Q a.

Create HintDb preserves discriminated.

Section Preserves.
Context {S : Type} (I : S -> Prop).

Lemma preserves_weaken {A} (c : PyM S A) (Q Q' : A -> Prop) :
  preserves I c Q -> (forall a, Q a -> Q' a) -> preserves I c Q'.
Proof. intros Hc HQ s Hs. destruct (Hc s Hs) as [Hi Ha]. split; [done|]. eauto. Qed.

Lemma preserves_ret {A} (a : A) : preserves I (py_ret a) (fun b => b = a).
Proof. intros s Hs. split; [done|]. by intros b [= ->]. Qed.

Lemma preserves_raise {A} e : preserves I (py_raise (A:=A) e) (fun _ => False).
Proof. intros s Hs. by split. Qed.

Lemma preserves_lift {A} (r : result A) : preserves I (py_lift r) (fun a => r = Ok a).
Proof. intros s Hs. by split. Qed.

Lemma preserves_gets {A} (g : S -> A) : preserves I (py_gets g) (fun _ => True).
Proof. intros s Hs. by split. Qed.

Lemma preserves_modify (f : S -> S) :
  (forall s, I s -> I (f s)) -> preserves I (py_modify f) (fun _ => True).
Proof. intros Hf s Hs. split; [by apply Hf | done]. Qed.

Lemma preserves_bind {A B} (c : PyM S A) (k : A -> PyM S B) Q Q' :
  preserves I c Q -> (forall a, Q a -> preserves I (k a) Q') -> preserves I (mbind k c) Q'.
Proof.
  intros Hc Hk s Hs. unfold mbind, py_mbind, py_bind. destruct (Hc s Hs) as [Hi Ha].
  destruct (c s) as [[a|e] s']; cbn in *; [exact (Hk a (Ha a eq_refl) s' Hi)|]. by split.
Qed.

Lemma preserves_for {A} (l : list A) (body : A -> PyM S unit) :
  (forall x, x ∈ l -> preserves I (body x) (fun _ => True)) ->
  preserves I (py_for l body) (fun _ => True).
Proof.
  induction l as [|x l IH]; intros Hb; [apply (preserves_weaken _ _ _ (preserves_ret tt)); done|].
  cbn [py_for]. apply (preserves_bind _ _ (fun _ => True)); [apply Hb; set_solver|].
  intros _ _. apply IH. intros y Hy. apply Hb. set_solver.
Qed.

End Preserves.

(** Using an invariant on a run that returned. *)
Lemma preserves_ok {S A} (I : S -> Prop) (c : PyM S A) Q s a s' :
  preserves I c Q -> I s -> c s = (Ok a, s') -> I s' /\ Q a.
Proof. intros Hc Hs Hr. destruct (Hc s Hs) as [Hi Ha]. rewrite Hr in Hi, Ha. cbn in *. auto. Qed.

(** A bind that returned: both parts returned. *)
Lemma py_mbind_ok_inv {S A B} (c : PyM S A) (k : A -> PyM S B) s b s'' :
  mbind k c s = (Ok b, s'') -> exists a s', c s = (Ok a, s') /\ k a s' = (Ok b, s'').
Proof.
  unfold mbind, py_mbind, py_bind. destruct (c s) as [[a|e] s']; [|discriminate]. intros H. by exists a, s'.
Qed.

#[export] Hint Resolve preserves_ret preserves_raise preserves_lift preserves_gets : preserves.

(** One step of [preserves_solve]: a bind is split, a loop is reduced to
    its body, a branch is split, and an operation is closed by a lemma
    of the database [preserves], its postcondition weakened to the one
    required. *)
Ltac preserves_step :=
  lazymatch goal with
  | |- preserves _ (mbind _ _) _ =>
      eapply preserves_bind; [|let a := fresh "a" in let Ha := fresh "Ha" in intros a Ha; cbv beta iota in Ha |- *]
  | |- preserves _ (py_for _ _) _ =>
      eapply preserves_weaken; [apply preserves_for; intros ? ?|intros; exact I]
  | |- preserves _ (if _ then _ else _) _ => case_match
  | |- preserves _ (match _ with _ => _ end) _ => case_match; cbv beta iota in *
  | |- preserves _ (py_ret _) _ =>
      eapply preserves_weaken;
        [apply preserves_ret | cbv beta; let Hq := fresh "Hq" in
                               intros ? Hq; first [exact Hq | subst; first [reflexivity | exact I | eauto]]]
  | |- preserves _ _ _ =>
      cbv beta in *; cbn [fst snd] in *;
      eapply preserves_weaken;
        [solve [eauto with preserves] | cbv beta; let Hq := fresh "Hq" in
                                         intros ? Hq; first [exact Hq | exact I | eauto]]
  end.

Ltac preserves_solve := repeat preserves_step.


(** ** Running to a postcondition

    [runs c s P]: [c] succeeds from [s] and its result and final state
    satisfy [P]. The lemmas decompose a computation along its binds, so
    that a long handler is proved by one [runs_step] per statement. *)

Definition runs {S A} (c : PyM S A) (s : S) (P : A -> S -> Prop) : Prop :=
  exists a s', c s = (Ok a, s') /\ P a s'.

Section Runs.
Context {S : Type}.

Lemma runs_bind {A B} (c : PyM S A) (k : A -> PyM S B) (s : S) P :
  runs c s (fun a s' => runs (k a) s' P) -> runs (mbind k c) s P.
Proof.
  intros (a & s' & Hc & b & s'' & Hk & HP). exists b, s''. split; [|exact HP].
  by rewrite (py_mbind_ok _ _ _ _ _ Hc).
Qed.

Lemma runs_ret {A} (a : A) (s : S) (P : A -> S -> Prop) : P a s -> runs (py_ret a) s P.
Proof. intros HP. by exists a, s. Qed.

Lemma runs_gets {A} (g : S -> A) (s : S) P : P (g s) s -> runs (py_gets g) s P.
Proof. intros HP. by exists (g s), s. Qed.

Lemma runs_modify (h : S -> S) (s : S) P : P tt (h s) -> runs (py_modify h) s P.
Proof. intros HP. by exists tt, (h s). Qed.

Lemma runs_lift {A} (a : A) (s : S) P : P a s -> runs (py_lift (Ok a)) s P.
Proof. intros HP. by exists a, s. Qed.

Lemma runs_eq {A} (c : PyM S A) (s : S) a s' (P : A -> S -> Prop) :
  c s = (Ok a, s') -> P a s' -> runs c s P.
Proof. intros Hc HP. by exists a, s'. Qed.

Lemma runs_weaken {A} (c : PyM S A) (s : S) (P Q : A -> S -> Prop) :
  runs c s P -> (forall a s', P a s' -> Q a s') -> runs c s Q.
Proof. intros (a & s' & Hc & HP) HPQ. exists a, s'. auto. Qed.

(** Forgetting the state term once the facts needed later are known. *)
Lemma runs_at {A} (c : PyM S A) (s : S) P (Q : S -> Prop) :
  Q s -> (forall s', Q s' -> runs c s' P) -> runs c s P.
Proof. intros Hq Hc. exact (Hc s Hq). Qed.

(** A [for] loop runs to its end when each iteration carries the
    invariant [I], indexed by the elements already processed, from
    one element to the next. *)
Lemma runs_for {A} (I : list A -> S -> Prop) (l : list A) (body : A -> PyM S unit) (s : S) :
  (forall pre x post (s : S), l = pre ++ x :: post -> I pre s ->
     runs (body x) s (fun _ s' => I (pre ++ [x]) s')) ->
  I [] s -> runs (py_for l body) s (fun _ s' => I l s').
Proof.
  intros Hb. change l with ([] ++ l) at 2. change (py_for l body) with (py_for ([] ++ l) body).
  assert (Hgen : forall pre rest (s : S), l = pre ++ rest -> I pre s ->
                   runs (py_for rest body) s (fun _ s' => I (pre ++ rest) s')).
  { intros pre rest. revert pre. induction rest as [|x rest IH]; intros pre s' Hl Hi.
    - exists tt, s'. by rewrite app_nil_r.
    - cbn [py_for]. apply (runs_bind (body x) (fun _ => py_for rest body)).
      eapply runs_weaken; [exact (Hb pre x rest s' Hl Hi)|]. intros [] s'' Hs''.
      rewrite (cons_middle x pre rest), app_assoc. apply IH; [|done].
      by rewrite <- app_assoc. }
  intros Hi. exact (Hgen [] l s eq_refl Hi).
Qed.

End Runs.

Ltac runs_step :=
  lazymatch goal with
  | |- runs (mbind _ _) _ _ => apply runs_bind
  | |- runs (py_gets _) _ _ => apply runs_gets
  | |- runs (py_modify _) _ _ => apply runs_modify
  | |- runs (py_ret _) _ _ => apply runs_ret
  | |- runs (py_lift (Ok _)) _ _ => apply runs_lift
  end; cbv beta iota zeta.
