(* ===== verification/PyFloat.v ===== *)
(** * Python floats, as IEEE-754 binary64

    CPython's [float] is a C [double]. It is modelled here by the
    Standard Library's [SpecFloat] at precision 53 and maximal exponent
    1024, which describes binary64 with round-to-nearest-even and
    assumes nothing. The addon uses floats at three places:
    [int(most_faces / faces_per_frame)] (line 232),
    [ratio = obj["facecount"] / most_faces] (line 254) and
    [int(ratio * base_build_length)] (line 255). [int_truediv],
    [mul_int] and [to_int] model the three Python operations involved. *)

From stdpp Require Import base.
From Stdlib Require Import ZArith Lia Floats.SpecFloat.
From S2P Require Import Prelude.

Module PyFloat.

Local Open Scope Z_scope.

Definition prec : Z := 53.
Definition emax : Z := 1024.

Abbreviation float := spec_float.

(** [float(n)] for a Python int: round to nearest, ties to even. *)
Definition of_int (n : Z) : float := binary_normalize prec emax n 0 false.

(** [a / b] for Python ints (true division). CPython rounds the exact
    quotient once, which equals dividing the two converted operands
    whenever both are at most 2^53 in magnitude. *)
Definition int_truediv (a b : Z) : result float :=
  if Z.eqb b 0 then Err ZeroDivisionError
  else Ok (SFdiv prec emax (of_int a) (of_int b)).

(** [x * n] for a float [x] and a Python int [n]: [n] is converted to
    float first. *)
Definition mul_int (x : float) (n : Z) : float := SFmul prec emax x (of_int n).

(** [int(x)]: truncation toward zero; infinities raise [OverflowError]
    and NaN raises [ValueError]. *)
Definition to_int (x : float) : result Z :=
  match x with
  | S754_zero _ => Ok 0
  | S754_infinity _ => Err OverflowError
  | S754_nan => Err ValueError
  | S754_finite s m e =>
      let v := Z.shiftl (Zpos m) e in Ok (if s then Z.opp v else v)
  end.

End PyFloat.
