(* ===== verification/Scene.v ===== *)
(** * The host state the addon reads and writes

    This file holds the slice of Blender's data model that
    [src/ivy_growth_animator_addon.py] touches: [bpy.data.objects] (an
    ordered collection looked up by name), object data (mesh, curve or
    another kind), Build modifiers, shape keys and their keyframes, the
    3D cursor, the current frame, the edit mode, and the two property
    groups registered on the scene (lines 259-280 and 423-437).

    Coordinates are of an abstract type [R] with the operations of the
    class [Scalar], so that the geometry proofs hold for any numeric
    type. [Host] is the interface of the host operators the code calls
    ([bpy.ops.object.convert], [mesh.sort_elements], [mesh.separate],
    [modifiers.new], [shape_key_add], [transform.resize]) and of the
    clamping the RNA setters apply. [Random] is the interface of
    Python's [random._randbelow], which [random.randint] calls.

    [wf_mesh] states what Blender keeps true of a mesh: faces index
    existing vertices, one selection flag per vertex, keyframes in frame
    order. The reads and the active object are carried through the
    [preserves] calculus of [Prelude]. *)

From stdpp Require Import base list strings decidable sets.
From Stdlib Require Import ZArith Lia Sorted.
From S2P Require Import Prelude PyFloat.

Local Open Scope Z_scope.

(** ** Geometry *)

Record vec3 (R : Type) := Vec3 { vx : R; vy : R; vz : R }.
Record vec4 (R : Type) := Vec4 { wx : R; wy : R; wz : R; ww : R }.
(** A mathutils [Matrix] of size 4, by rows as [m[i][j]] reads it. *)
Record mat4 (R : Type) := Mat4 { row0 : vec4 R; row1 : vec4 R; row2 : vec4 R; row3 : vec4 R }.
Arguments Vec3 {R}. Arguments vx {R}. Arguments vy {R}. Arguments vz {R}.
Arguments Vec4 {R}. Arguments wx {R}. Arguments wy {R}. Arguments wz {R}. Arguments ww {R}.
Arguments Mat4 {R}. Arguments row0 {R}. Arguments row1 {R}. Arguments row2 {R}. Arguments row3 {R}.

(** The arithmetic the code performs on coordinates. *)
Class Scalar (R : Type) := {
  s_zero : R;
  s_one : R;
  s_add : R -> R -> R;
  s_sub : R -> R -> R;
  s_mul : R -> R -> R;
  s_abs : R -> R;
  s_div_nat : R -> nat -> R;
  s_ltb : R -> R -> bool
}.

(** Python's [<] on the coordinates, as [list.sort] and the comparison
    of line 325 use it, is a strict weak order: irreflexive, transitive,
    and with a transitive incomparability. *)
Class ScalarOrder (R : Type) `{Scalar R} := {
  lt_irrefl : forall a, s_ltb a a = false;
  lt_trans : forall a b c, s_ltb a b = true -> s_ltb b c = true -> s_ltb a c = true;
  lt_negtrans : forall a b c, s_ltb a b = false -> s_ltb b c = false -> s_ltb a c = false
}.

(** ** Blender data *)

Inductive mode := OBJECT_MODE | EDIT_MODE.

(** The two fields of a Build modifier that the code sets and reads. *)
Record build_modifier := BuildMod { frame_start : Z; frame_duration : Z }.

Inductive modifier := BuildModifier (b : build_modifier) | OtherModifier.

(** A shape key: its vertex positions, its [value], and the keyframes
    of [value] as (frame, value) pairs in frame order. *)
Record shape_key (R : Type) := ShapeKey {
  sk_co : list (vec3 R);
  sk_value : Z;
  sk_fcurve : list (Z * Z)
}.

(** A mesh: vertices with their selection flags, faces as lists of
    vertex indices ([tessfaces]), shape keys and the active key index. *)
Record mesh (R : Type) := Mesh {
  me_verts : list (vec3 R);
  me_vsel : list bool;
  me_faces : list (list nat);
  me_keys : list (shape_key R);
  me_active_key : nat
}.

(** A curve spline: its [points] ([co] has four components). A Bezier
    spline keeps its points in [bezier_points], so [points] is empty. *)
Record spline (R : Type) := Spline { sp_points : list (vec4 R) }.

Inductive obj_data (R : Type) :=
| MeshData (me : mesh R)
| CurveData (splines : list (spline R))
| OtherData.

Record object (R : Type) := Object {
  ob_name : string;
  ob_data : obj_data R;
  ob_matrix_world : mat4 R;
  ob_modifiers : list (string * modifier);
  ob_select : bool;
  ob_BranchObject : string;
  ob_LeavesObject : string
}.

Arguments ShapeKey {R}. Arguments sk_co {R}. Arguments sk_value {R}. Arguments sk_fcurve {R}.
Arguments Mesh {R}. Arguments me_verts {R}. Arguments me_vsel {R}. Arguments me_faces {R}.
Arguments me_keys {R}. Arguments me_active_key {R}.
Arguments Spline {R}. Arguments sp_points {R}.
Arguments MeshData {R}. Arguments CurveData {R}. Arguments OtherData {R}.
Arguments Object {R}. Arguments ob_name {R}. Arguments ob_data {R}.
Arguments ob_matrix_world {R}. Arguments ob_modifiers {R}. Arguments ob_select {R}.
Arguments ob_BranchObject {R}. Arguments ob_LeavesObject {R}.

(** [BranchesAnimProperties] (lines 259-280) and its defaults. *)
Record branch_props := BranchProps {
  bp_frame_start : Z;
  bp_faces_per_frame : Z;
  bp_delay_branches : Z;
  bp_initial_delay : Z;
  bp_modifier_name : string
}.

Definition default_branch_props : branch_props :=
  BranchProps 1 4 4 15 "GROW".

(** [LeavesAnimProperties] (lines 423-437) and its defaults. *)
Record leaves_props := LeavesProps {
  lp_delay_after_branch : Z;
  lp_max_growth_length : Z;
  lp_min_growth_length : Z
}.

Definition default_leaves_props : leaves_props := LeavesProps 10 25 10.

(** The whole state: [bpy.data.objects] in iteration order, the active
    object ([context.object]), the 3D cursor, the current frame, the
    mode, the property groups, and the state [G] of Python's random
    generator. *)
Record world (R G : Type) := World {
  w_objects : list (object R);
  w_active : option string;
  w_cursor : vec3 R;
  w_frame : Z;
  w_mode : mode;
  w_branch_props : branch_props;
  w_leaves_props : leaves_props;
  w_rng : G
}.
Arguments World {R G}. Arguments w_objects {R G}. Arguments w_active {R G}.
Arguments w_cursor {R G}. Arguments w_frame {R G}. Arguments w_mode {R G}.
Arguments w_branch_props {R G}. Arguments w_leaves_props {R G}. Arguments w_rng {R G}.

(** ** Interfaces of the host and of Python's [random] *)

(** Python's [random._randbelow(n)]: a number in [0, n) and the next
    generator state. *)
Class Random (G : Type) := {
  randbelow : Z -> G -> Z * G;
  randbelow_range : forall n g, 0 < n -> 0 <= fst (randbelow n g) < n
}.

(** ** Well-formed meshes

    What Blender keeps true of every mesh and the code relies on: the
    corners of every face are vertices of the mesh, there is one
    selection flag per vertex, and the keyframes of every shape key are
    in strictly increasing frame order. *)

(** Keyframes in strictly increasing frame order. *)
Definition fcurve_sorted (fc : list (Z * Z)) : Prop := StronglySorted (fun a b => a.1 < b.1) fc.

Definition wf_mesh {R} (me : mesh R) : Prop :=
  (length (me_vsel me) = length (me_verts me))%nat /\
  Forall (Forall (fun vi => vi < length (me_verts me))%nat) (me_faces me) /\
  Forall (fun k => fcurve_sorted (sk_fcurve k)) (me_keys me).

Definition wf_object {R} (o : object R) : Prop :=
  match ob_data o with MeshData me => wf_mesh me | _ => True end.

(** [o.data] is a mesh. *)
Definition is_mesh {R} (o : object R) : bool :=
  match ob_data o with MeshData _ => true | _ => false end.

(** The host operators, and what the proofs need of them. *)
Class Host (R : Type) := {
  (** [bpy.ops.object.convert(target='MESH')] on one selected object *)
  host_convert_to_mesh : object R -> object R;
  (** [bpy.ops.mesh.sort_elements(type='CURSOR_DISTANCE', elements={'FACE'})] *)
  host_sort_faces : vec3 R -> object R -> object R;
  (** [bpy.ops.mesh.separate(type='LOOSE')]: the part kept by the object
      and the new objects *)
  host_separate_loose : object R -> object R * list (object R);
  (** linking new objects into [bpy.data.objects] *)
  host_link_objects : list (object R) -> list (object R) -> list (object R);
  (** [obj.modifiers.new(name, 'BUILD')] *)
  host_modifier_new : string -> list (string * modifier) -> list (string * modifier);
  (** [bpy.ops.object.shape_key_add(from_mix=False)] on the active mesh *)
  host_shape_key_add : mesh R -> mesh R;
  (** [bpy.ops.transform.resize(value=(0,0,0))] in edit mode: the selected
      vertices of the active shape key are scaled to nothing *)
  host_resize_zero : mesh R -> mesh R;
  (** [MINAFRAME] and [MAXFRAME]: the RNA range of
      [BuildModifier.frame_start] and the range [scene.frame_set] clamps
      the current frame to; [frame_duration] is at least
      [host_duration_min] *)
  host_frame_min : Z;
  host_frame_max : Z;
  host_duration_min : Z;

  host_convert_name o : ob_name (host_convert_to_mesh o) = ob_name o;
  host_convert_modifiers o : ob_modifiers (host_convert_to_mesh o) = ob_modifiers o;
  host_sort_name c o : ob_name (host_sort_faces c o) = ob_name o;
  host_sort_modifiers c o : ob_modifiers (host_sort_faces c o) = ob_modifiers o;
  (** a converted curve is a mesh, and sorting faces keeps a mesh a mesh *)
  host_convert_curve o sps : ob_data o = CurveData sps -> is_mesh (host_convert_to_mesh o) = true;
  host_sort_mesh c o : is_mesh (host_sort_faces c o) = is_mesh o;
  (** every part keeps the modifiers, the kept part keeps the name, and
      the new parts are named after it ([Ivy.001], ...) *)
  host_separate_parts o kept news :
    host_separate_loose o = (kept, news) ->
    ob_name kept = ob_name o /\ ob_modifiers kept = ob_modifiers o /\
    Forall (fun n => py_str_contains (ob_name o) (ob_name n) = true /\
                     ob_modifiers n = ob_modifiers o) news;
  (** the parts of a mesh are meshes, and the new parts get distinct
      names, all different from the original's *)
  host_separate_mesh o kept news :
    host_separate_loose o = (kept, news) -> is_mesh o = true ->
    Forall (fun p => is_mesh p = true) (kept :: news);
  host_separate_names o kept news :
    host_separate_loose o = (kept, news) -> NoDup (ob_name o :: (ob_name <$> news));
  host_link_perm news os : host_link_objects news os ≡ₚ news ++ os;
  (** a new shape key comes last, without keyframes; the faces stay *)
  host_shape_key_add_keys me :
    exists k, me_keys (host_shape_key_add me) = me_keys me ++ [k] /\ sk_fcurve k = [];
  host_shape_key_add_faces me : me_faces (host_shape_key_add me) = me_faces me;
  host_shape_key_add_verts me : me_verts (host_shape_key_add me) = me_verts me;
  host_shape_key_add_vsel me : me_vsel (host_shape_key_add me) = me_vsel me;
  host_shape_key_add_active me : me_active_key (host_shape_key_add me) = me_active_key me;
  (** resizing moves vertices of the active key, not the mesh's own
      vertices: keyframes, faces and the active index stay *)
  host_resize_fcurves me : sk_fcurve <$> me_keys (host_resize_zero me) = sk_fcurve <$> me_keys me;
  host_resize_faces me : me_faces (host_resize_zero me) = me_faces me;
  host_resize_verts me : me_verts (host_resize_zero me) = me_verts me;
  host_resize_vsel me : me_vsel (host_resize_zero me) = me_vsel me;
  host_resize_active me : me_active_key (host_resize_zero me) = me_active_key me;
  (** a new modifier whose name is free keeps that name *)
  host_modifier_new_fresh name mods :
    name ∉ mods.*1 ->
    host_modifier_new name mods = mods ++ [(name, BuildModifier (BuildMod 1 100))]
}.

(** Assigning to a float RNA property stores the value clamped to the
    property's range. *)
Definition clamp (lo hi v : Z) : Z := Z.max lo (Z.min hi v).

Section Store.
Context {R G : Type}.

Definition set_objects (os : list (object R)) (w : world R G) : world R G :=
  World os (w_active w) (w_cursor w) (w_frame w) (w_mode w)
        (w_branch_props w) (w_leaves_props w) (w_rng w).
Definition set_active (a : option string) (w : world R G) : world R G :=
  World (w_objects w) a (w_cursor w) (w_frame w) (w_mode w)
        (w_branch_props w) (w_leaves_props w) (w_rng w).
Definition set_cursor (c : vec3 R) (w : world R G) : world R G :=
  World (w_objects w) (w_active w) c (w_frame w) (w_mode w)
        (w_branch_props w) (w_leaves_props w) (w_rng w).
Definition set_frame (f : Z) (w : world R G) : world R G :=
  World (w_objects w) (w_active w) (w_cursor w) f (w_mode w)
        (w_branch_props w) (w_leaves_props w) (w_rng w).
Definition set_mode (m : mode) (w : world R G) : world R G :=
  World (w_objects w) (w_active w) (w_cursor w) (w_frame w) m
        (w_branch_props w) (w_leaves_props w) (w_rng w).
Definition set_rng (g : G) (w : world R G) : world R G :=
  World (w_objects w) (w_active w) (w_cursor w) (w_frame w) (w_mode w)
        (w_branch_props w) (w_leaves_props w) g.

(** [bpy.data.objects[name]] *)
Fixpoint find_object (name : string) (os : list (object R)) : option (object R) :=
  match os with
  | [] => None
  | o :: os' => if decide (ob_name o = name) then Some o else find_object name os'
  end.

Definition objects_get (name : string) : PyM (world R G) (object R) :=
  fun w => match find_object name (w_objects w) with
           | Some o => (Ok o, w)
           | None => (Err (KeyError name), w)
           end.

(** Replace the object called [name] by [f] of it. *)
Definition update_object (name : string) (f : object R -> object R) : PyM (world R G) unit :=
  py_modify (fun w => set_objects
    (map (fun o => if decide (ob_name o = name) then f o else o) (w_objects w)) w).

(** [obj.modifiers[name]] *)
Fixpoint modifiers_get (name : string) (mods : list (string * modifier)) : result modifier :=
  match mods with
  | [] => Err (KeyError name)
  | (n, m) :: mods' => if decide (n = name) then Ok m else modifiers_get name mods'
  end.

(** Reading [frame_start] / [frame_duration]: only a Build modifier has them. *)
Definition as_build (m : modifier) : result build_modifier :=
  match m with
  | BuildModifier b => Ok b
  | OtherModifier => Err (AttributeError "frame_start")
  end.

Definition map_modifier (name : string) (f : build_modifier -> build_modifier)
    (mods : list (string * modifier)) : list (string * modifier) :=
  map (fun nm => if decide (nm.1 = name) then
                   match nm.2 with
                   | BuildModifier b => (nm.1, BuildModifier (f b))
                   | OtherModifier => nm
                   end
                 else nm) mods.

Definition with_modifiers (mods : list (string * modifier)) (o : object R) : object R :=
  Object (ob_name o) (ob_data o) (ob_matrix_world o) mods (ob_select o)
         (ob_BranchObject o) (ob_LeavesObject o).

Definition with_data (d : obj_data R) (o : object R) : object R :=
  Object (ob_name o) d (ob_matrix_world o) (ob_modifiers o) (ob_select o)
         (ob_BranchObject o) (ob_LeavesObject o).

Definition with_select (b : bool) (o : object R) : object R :=
  Object (ob_name o) (ob_data o) (ob_matrix_world o) (ob_modifiers o) b
         (ob_BranchObject o) (ob_LeavesObject o).

(** [context.object]: the active object, [AttributeError] when there is none. *)
Definition context_object : PyM (world R G) (object R) :=
  fun w => match w_active w with
           | Some n => objects_get n w
           | None => (Err (AttributeError "object"), w)
           end.

End Store.

(** ** Python's [random.randint] (Lib/random.py)

    [randint(a, b)] is [randrange(a, b + 1)], which raises [ValueError]
    on an empty range and otherwise returns [a + _randbelow(b + 1 - a)]. *)
Definition randint {R G} `{Random G} (a b : Z) : PyM (world R G) Z :=
  fun w => let width := b + 1 - a in
           if Z.ltb 0 width then
             let (r, g') := randbelow width (w_rng w) in (Ok (a + r), set_rng g' w)
           else (Err ValueError, w).

(** ** Reading and updating Build modifiers *)

Section BuildStore.
Context {R : Type}.

(** The Build modifier called [mn] of the object called [name]. *)
Definition build_of (os : list (object R)) (name mn : string) : option build_modifier :=
  o ← find_object name os;
  match modifiers_get mn (ob_modifiers o) with
  | Ok (BuildModifier b) => Some b
  | _ => None
  end.

(** The state change of [obj.modifiers[mn].<field> = v]. *)
Definition update_build (name mn : string) (upd : build_modifier -> build_modifier)
    (os : list (object R)) : list (object R) :=
  map (fun o => if decide (ob_name o = name)
                then with_modifiers (map_modifier mn upd (ob_modifiers o)) o else o) os.

Lemma find_object_map (f : object R -> object R) name n os :
  (forall o, ob_name (f o) = ob_name o) ->
  find_object n (map (fun o => if decide (ob_name o = name) then f o else o) os) =
  if decide (n = name) then f <$> find_object n os else find_object n os.
Proof.
  intros Hf. induction os as [|o os IH]; cbn; [by case_decide|].
  destruct (decide (ob_name o = name)) as [Hon|Hon]; cbn [find_object]; rewrite ?Hf;
    destruct (decide (ob_name o = n)) as [Hn|Hn]; rewrite ?IH;
    destruct (decide (n = name)); subst; cbn; congruence.
Qed.

Lemma find_object_name n (os : list (object R)) o : find_object n os = Some o -> ob_name o = n.
Proof.
  induction os as [|o' os IH]; cbn; [done|]. case_decide; [intros [= <-]; done | exact IH].
Qed.

Lemma find_object_in n (os : list (object R)) o : find_object n os = Some o -> o ∈ os.
Proof.
  induction os as [|o' os IH]; cbn; [done|].
  case_decide; [intros [= <-]; left | intros; right; auto].
Qed.

Lemma find_object_None_not_in n (os : list (object R)) :
  find_object n os = None -> n ∉ ob_name <$> os.
Proof.
  induction os as [|o os IH]; cbn; [set_solver|].
  case_decide; [done|]. intros Hf Hin%elem_of_cons. destruct Hin; [congruence | by apply IH].
Qed.

Lemma modifiers_get_map_modifier mn upd n mods :
  modifiers_get n (map_modifier mn upd mods) =
  if decide (n = mn) then
    match modifiers_get n mods with
    | Ok (BuildModifier b) => Ok (BuildModifier (upd b))
    | r => r
    end
  else modifiers_get n mods.
Proof.
  unfold map_modifier. induction mods as [|[n' m] mods IH]; cbn; [by case_decide|].
  rewrite IH. clear IH.
  destruct (decide (n' = mn)) as [->|Hne]; [destruct m as [b|]|]; cbn;
    destruct (decide (n = mn)) as [->|Hn]; cbn;
    repeat (case_decide; subst; cbn); congruence.
Qed.

Lemma build_of_update_build name mn upd os n mn' :
  build_of (update_build name mn upd os) n mn' =
  if decide (n = name /\ mn' = mn) then upd <$> build_of os n mn'
  else build_of os n mn'.
Proof.
  unfold build_of, update_build. rewrite find_object_map by reflexivity.
  case_decide as Hn; destruct (find_object n os) as [o|]; cbn;
    repeat case_decide; try tauto; subst; cbn; rewrite ?modifiers_get_map_modifier;
    repeat case_decide; try tauto; cbn;
    try (destruct (modifiers_get _ _) as [[]|]; reflexivity).
Qed.

Lemma find_object_update_build name mn upd (os : list (object R)) n :
  find_object n (update_build name mn upd os) =
  if decide (n = name) then (fun o => with_modifiers (map_modifier mn upd (ob_modifiers o)) o) <$> find_object n os
  else find_object n os.
Proof. unfold update_build. apply find_object_map. reflexivity. Qed.

Lemma update_build_names name mn upd os :
  ob_name <$> update_build name mn upd os = ob_name <$> os.
Proof.
  unfold update_build. rewrite list_fmap_compose' || idtac.
  induction os as [|o os IH]; cbn; [done|]. rewrite IH. by case_decide.
Qed.

Lemma find_object_fmap (f : object R -> object R) n (os : list (object R)) :
  (forall o, ob_name (f o) = ob_name o) -> find_object n (f <$> os) = f <$> find_object n os.
Proof.
  intros Hf. induction os as [|o os IH]; [done|]. cbn. rewrite Hf.
  by case_decide.
Qed.


(** An object whose name is listed is found, and what is found has
    that name. *)
Lemma find_object_Some n (os : list (object R)) :
  n ∈ ob_name <$> os -> exists o, find_object n os = Some o /\ o ∈ os /\ ob_name o = n.
Proof.
  intros Hn. destruct (find_object n os) as [o|] eqn:Hf.
  - exists o. split; [done|]. split; [exact (find_object_in _ _ _ Hf) | exact (find_object_name _ _ _ Hf)].
  - by apply find_object_None_not_in in Hf.
Qed.

(** With a fresh name, [modifiers.new] puts the new modifier last, where
    the lookup finds it. *)
Lemma modifiers_get_fresh mn m (mods : list (string * modifier)) :
  mn ∉ mods.*1 -> modifiers_get mn (mods ++ [(mn, m)]) = Ok m.
Proof.
  induction mods as [|[n m'] mods IH]; cbn; [by rewrite decide_True|].
  intros Hn. rewrite decide_False by set_solver. apply IH. set_solver.
Qed.

End BuildStore.
#[export] Hint Rewrite @build_of_update_build @update_build_names : ivy_simpl.

(** ** Operations that leave a state change alone

    For a change [f] of the state that keeps the objects and the active
    object and commutes with replacing the objects, the store operations
    commute with [f]. *)

Section Frame.
Context {R G : Type} (f : world R G -> world R G).
Hypothesis f_objects : forall w, w_objects (f w) = w_objects w.
Hypothesis f_active : forall w, w_active (f w) = w_active w.
Hypothesis f_set_objects : forall os w, f (set_objects os w) = set_objects os (f w).

Lemma objects_get_commutes name : commutes f (objects_get name).
Proof. intros w. unfold objects_get. rewrite f_objects. by destruct (find_object name (w_objects w)). Qed.

Lemma context_object_commutes : commutes f context_object.
Proof.
  intros w. unfold context_object. rewrite f_active.
  destruct (w_active w); [apply objects_get_commutes | reflexivity].
Qed.

Lemma update_object_commutes name g : commutes f (update_object name g).
Proof. apply commutes_modify. intros w. by rewrite f_objects, f_set_objects. Qed.

End Frame.

(** ** Meshes, shape keys and keyframes *)

Section MeshStore.
Context {R G : Type}.

(** [obj.data] used as a mesh: other data have no [tessfaces],
    [vertices] or [update]. *)
Definition as_mesh (o : object R) : result (mesh R) :=
  match ob_data o with
  | MeshData me => Ok me
  | _ => Err (AttributeError "tessfaces")
  end.

Definition update_mesh (name : string) (f : mesh R -> mesh R) : PyM (world R G) unit :=
  update_object name (fun o => match ob_data o with
                               | MeshData me => with_data (MeshData (f me)) o
                               | _ => o
                               end).

Definition with_vsel (sel : list bool) (me : mesh R) : mesh R :=
  Mesh (me_verts me) sel (me_faces me) (me_keys me) (me_active_key me).

Definition with_active_key (i : nat) (me : mesh R) : mesh R :=
  Mesh (me_verts me) (me_vsel me) (me_faces me) (me_keys me) i.

Definition alter_key (i : nat) (g : shape_key R -> shape_key R) (me : mesh R) : mesh R :=
  Mesh (me_verts me) (me_vsel me) (me_faces me) (alter g i (me_keys me)) (me_active_key me).

(** [keyframe_insert] on an F-curve: a key at the same frame is
    replaced, otherwise the key goes in frame order. *)
Fixpoint fcurve_insert (f v : Z) (fc : list (Z * Z)) : list (Z * Z) :=
  match fc with
  | [] => [(f, v)]
  | (f', v') :: fc' =>
      if Z.eqb f f' then (f, v) :: fc'
      else if Z.ltb f f' then (f, v) :: fc
      else (f', v') :: fcurve_insert f v fc'
  end.

Definition set_value (v : Z) (k : shape_key R) : shape_key R :=
  ShapeKey (sk_co k) v (sk_fcurve k).

Definition insert_value_key (f : Z) (k : shape_key R) : shape_key R :=
  ShapeKey (sk_co k) (sk_value k) (fcurve_insert f (sk_value k) (sk_fcurve k)).

End MeshStore.

(** The value keyed at frame [f], if any. *)
Fixpoint fcurve_at (f : Z) (fc : list (Z * Z)) : option Z :=
  match fc with
  | [] => None
  | (f', v) :: fc' => if Z.eqb f f' then Some v else fcurve_at f fc'
  end.




Lemma fcurve_insert_in f v fc a :
  a ∈ fcurve_insert f v fc -> a = (f, v) \/ a ∈ fc.
Proof.
  induction fc as [|[f' v'] fc IH]; cbn; [set_solver|].
  destruct (Z.eqb_spec f f'); [set_solver|].
  destruct (Z.ltb_spec f f'); [set_solver|].
  intros [->|Ha]%elem_of_cons; [set_solver|]. destruct (IH Ha); set_solver.
Qed.

Lemma fcurve_insert_sorted f v fc :
  fcurve_sorted fc -> fcurve_sorted (fcurve_insert f v fc).
Proof.
  unfold fcurve_sorted. induction fc as [|[f' v'] fc IH]; cbn; intros Hs.
  { repeat constructor. }
  apply StronglySorted_inv in Hs as [Hs Hall].
  destruct (Z.eqb_spec f f') as [->|]; [by constructor|].
  destruct (Z.ltb_spec f f').
  - constructor; [by constructor|]. constructor; [done|].
    eapply Forall_impl; [exact Hall|]. cbn. intros; lia.
  - constructor; [by apply IH|]. apply Forall_forall. intros a [->|Ha]%fcurve_insert_in; [cbn; lia|].
    by apply (proj1 (Forall_forall _ _) Hall).
Qed.
#[export] Hint Resolve fcurve_insert_sorted : ivy.

(** Reads keep every invariant. *)
Lemma preserves_objects_get_any {R G} (I : world R G -> Prop) name :
  preserves I (objects_get name) (fun _ => True).
Proof. intros w Hw. unfold objects_get. by destruct (find_object name (w_objects w)). Qed.

Lemma preserves_context_object_any {R G} (I : world R G -> Prop) :
  preserves I context_object (fun _ => True).
Proof.
  intros w Hw. unfold context_object. destruct (w_active w); [|done]. by apply preserves_objects_get_any.
Qed.

(** The active object, as [context.object] finds it. *)
Definition active_is {R G} (a : option string) (w : world R G) : Prop := w_active w = a.

(** Updating an object leaves the active object alone. *)
Lemma preserves_update_object_active {R G} (a : option string) name (f : object R -> object R) :
  preserves (active_is (G:=G) a) (update_object name f) (fun _ => True).
Proof. apply preserves_modify. intros w Hw. exact Hw. Qed.

#[export] Hint Resolve preserves_objects_get_any preserves_context_object_any | 10 : preserves.
#[export] Hint Resolve preserves_update_object_active : preserves.

(** A state change that leaves the objects alone keeps the invariant. *)
#[export] Hint Extern 3 (preserves _ (py_modify _) _) =>
  apply preserves_modify; intros ? ?; assumption : preserves.
