(* ===== verification/MeshOps.v ===== *)
(** * Mesh operators of the reference host: separate LOOSE and sort by cursor distance

    The add-on calls two Blender mesh operators whose result the rest of
    its code depends on. This file models them, as Blender 2.65
    implements them, for the reference host of [RefHost]; they are
    Blender's C code, not code of the add-on, and the theorems about the
    add-on use only what [RefIslands] of [Branches] needs of them.

    [bpy.ops.mesh.separate(type='LOOSE')] (line 198) is
    [mesh_separate_loose] ([editmesh_tools.c]): with the selection
    cleared, it takes the first vertex of the mesh as a seed, selects
    everything the shell walker reaches from it through the faces, and,
    unless that is the whole mesh, moves the selection into a new
    object. It loops at most [totvert] times.

    - [Loose.shell_round] is one round of the shell walk: every face that meets
      the selection brings in all of its vertices; [Loose.close] repeats
      it with fuel until nothing is added; [Loose.shell] walks from a seed
      with fuel the number of vertices left.
    - [Loose.separate_loop] is the loop of [mesh_separate_loose] on the
      indices of the vertices left, with [Loose.separate_loose] starting
      it on a whole mesh with fuel [totvert]; [Loose.submesh] is the part
      of a mesh on a list of vertices (faces renumbered, shape keys cut
      to those vertices).

    The lemmas show that a shell is closed under [shell_round] once the
    fuel suffices ([close_fixpoint], [shell_closed]), and that the loop
    hands each face to exactly one part ([separate_loop_faces]).

    [bpy.ops.mesh.sort_elements(type='CURSOR_DISTANCE', elements={'FACE'})]
    (lines 189-191) is [CursorSort.sort_faces]: the faces in increasing
    squared distance from the cursor to their mean centre, computed
    exactly as a rational ([face_dist]), a permutation of the faces
    ([sort_faces_perm]). Blender reorders the selected faces only, with
    float keys and an unstable quicksort; the model sorts every face,
    which is the same when all faces are selected, as after the
    reference conversion, and orders ties stably. *)

From stdpp Require Import base list gmap sets.
From Stdlib Require Import ZArith QArith Lia Sorted.
From S2P Require Import Prelude Scene.

Local Close Scope Q_scope.

Module Loose.

(** A face that has a vertex in [comp]. *)
Definition touches (comp : gset nat) (f : list nat) : bool :=
  existsb (fun v => bool_decide (v ∈ comp)) f.

(** One round of [BMW_SHELL]: the vertices of every face meeting [comp]. *)
Definition shell_round (fs : list (list nat)) (comp : gset nat) : gset nat :=
  comp ∪ list_to_set (concat (List.filter (touches comp) fs)).

Fixpoint close (fuel : nat) (fs : list (list nat)) (comp : gset nat) : gset nat :=
  match fuel with
  | O => comp
  | S fuel' => if decide (shell_round fs comp ⊆ comp) then comp else close fuel' fs (shell_round fs comp)
  end.

(** The faces of the part of the mesh on the vertices [vs]: after
    [EDBM_selectmode_flush_ex], a face is selected when all its vertices
    are. *)
Definition faces_in (vs : list nat) (fs : list (list nat)) : list (list nat) :=
  List.filter (fun f => forallb (fun v => bool_decide (v ∈ vs)) f) fs.

(** What the walker selects from the seed, in the mesh left. *)
Definition shell (fs : list (list nat)) (rem : list nat) (seed : nat) : gset nat :=
  close (length rem) (faces_in rem fs) {[seed]}.

(** The [for (i = 0; i < max_iter; i++)] loop of [mesh_separate_loose]:
    the parts moved to new objects, in order, and the vertices left to
    the original. *)
Fixpoint separate_loop (fuel : nat) (fs : list (list nat)) (rem : list nat)
    : list (list nat) * list nat :=
  match fuel with
  | O => ([], rem)
  | S fuel' =>
      match rem with
      | [] => ([], [])
      | seed :: _ =>
          let comp := shell fs rem seed in
          if forallb (fun v => bool_decide (v ∈ comp)) rem then ([], rem)
          else
            let '(parts, rest) :=
              separate_loop fuel' fs (List.filter (fun v => negb (bool_decide (v ∈ comp))) rem) in
            (List.filter (fun v => bool_decide (v ∈ comp)) rem :: parts, rest)
      end
  end.

Fixpoint index_of (v : nat) (vs : list nat) : nat :=
  match vs with
  | [] => O
  | w :: vs' => if Nat.eqb v w then O else S (index_of v vs')
  end.

Section Submesh.
Context {R : Type}.

(** The mesh of a new object: the vertices [vs] in order, the faces on
    them renumbered, every shape key cut to [vs]. *)
Definition submesh (me : mesh R) (vs : list nat) : mesh R :=
  Mesh (omap (me_verts me !!.) vs) (omap (me_vsel me !!.) vs)
       (map (map (fun v => index_of v vs)) (faces_in vs (me_faces me)))
       ((fun k => ShapeKey (omap (sk_co k !!.) vs) (sk_value k) (sk_fcurve k)) <$> me_keys me)
       (me_active_key me).

(** [mesh_separate_loose] on a whole mesh: [max_iter = bm_old->totvert]. *)
Definition separate_loose (me : mesh R) : list (mesh R) * mesh R :=
  let n := length (me_verts me) in
  let '(parts, rest) := separate_loop n (me_faces me) (seq 0 n) in
  (submesh me <$> parts, submesh me rest).

End Submesh.

(** ** The walk *)

Lemma shell_round_sub fs comp : comp ⊆ shell_round fs comp.
Proof. unfold shell_round. set_solver. Qed.

Lemma close_sub fuel fs comp : comp ⊆ close fuel fs comp.
Proof.
  revert comp. induction fuel as [|fuel IH]; intros comp; cbn; [done|].
  case_decide; [done|]. etrans; [apply shell_round_sub|apply IH].
Qed.

Lemma elem_of_shell_round fs comp v :
  v ∈ shell_round fs comp <-> v ∈ comp \/ exists f, f ∈ fs /\ touches comp f = true /\ v ∈ f.
Proof.
  unfold shell_round. rewrite elem_of_union, elem_of_list_to_set, list_elem_of_In, in_concat.
  setoid_rewrite List.filter_In. setoid_rewrite <-list_elem_of_In. naive_solver.
Qed.

Lemma touches_spec comp f : touches comp f = true <-> exists v, v ∈ f /\ v ∈ comp.
Proof.
  unfold touches. rewrite existsb_exists. setoid_rewrite bool_decide_eq_true.
  setoid_rewrite <-list_elem_of_In. done.
Qed.

(** A set is closed under [shell_round] when every face meeting it lies in it. *)
Lemma shell_round_closed fs comp :
  shell_round fs comp ⊆ comp <-> forall f u v, f ∈ fs -> u ∈ f -> v ∈ f -> u ∈ comp -> v ∈ comp.
Proof.
  split.
  - intros Hg f u v Hf Hu Hv Hc. apply Hg, elem_of_shell_round. right.
    exists f. rewrite touches_spec. eauto.
  - intros Hcl v [Hv | (f & Hf & (u & Hu & Hc)%touches_spec & Hv)]%elem_of_shell_round; eauto.
Qed.

Lemma size_list_to_set_le (l : list nat) : size (list_to_set l : gset nat) <= length l.
Proof.
  induction l as [|x l IH]; cbn; [by rewrite size_empty|].
  rewrite size_union_alt, size_singleton.
  pose proof (subseteq_size (list_to_set l ∖ {[x]} : gset nat) (list_to_set l) ltac:(set_solver)). lia.
Qed.

Lemma shell_round_bound (U : gset nat) fs comp :
  (forall f v, f ∈ fs -> v ∈ f -> v ∈ U) -> comp ⊆ U -> shell_round fs comp ⊆ U.
Proof. intros HU Hc v [? | (f & Hf & _ & Hv)]%elem_of_shell_round; eauto. Qed.

(** Within as many rounds as there are vertices, the walk reaches a set
    closed under [shell_round]. *)
Lemma close_fixpoint (U : gset nat) fuel fs comp :
  (forall f v, f ∈ fs -> v ∈ f -> v ∈ U) -> comp ⊆ U -> size U <= fuel + size comp ->
  shell_round fs (close fuel fs comp) ⊆ close fuel fs comp.
Proof.
  intros HU. revert comp. induction fuel as [|fuel IH]; intros comp Hc Hs; cbn.
  - destruct (decide (U ⊆ comp)) as [HUc|HUc]; [etrans; [by apply shell_round_bound|done]|].
    pose proof (subset_size comp U ltac:(set_solver)). lia.
  - case_decide as Hg; [done|]. apply IH; [by apply shell_round_bound|].
    pose proof (subset_size comp (shell_round fs comp) ltac:(split; [apply shell_round_sub|done])). lia.
Qed.




(** ** The loop *)

Lemma shell_seed fs rem seed : seed ∈ shell fs rem seed.
Proof.
  unfold shell. match goal with |- _ ∈ close ?n ?fs ?c => pose proof (close_sub n fs c) end. set_solver.
Qed.

Lemma elem_of_faces_in vs fs f : f ∈ faces_in vs fs <-> f ∈ fs /\ forall v, v ∈ f -> v ∈ vs.
Proof.
  unfold faces_in. rewrite !list_elem_of_In, List.filter_In, forallb_forall.
  setoid_rewrite bool_decide_eq_true. setoid_rewrite <-list_elem_of_In. done.
Qed.

Lemma elem_of_filter_in (comp : gset nat) rem v :
  v ∈ List.filter (fun v => bool_decide (v ∈ comp)) rem <-> v ∈ rem /\ v ∈ comp.
Proof. rewrite !list_elem_of_In, List.filter_In, bool_decide_eq_true. done. Qed.

Lemma elem_of_filter_out (comp : gset nat) rem v :
  v ∈ List.filter (fun v => negb (bool_decide (v ∈ comp))) rem <-> v ∈ rem /\ v ∉ comp.
Proof. rewrite !list_elem_of_In, List.filter_In, negb_true_iff, bool_decide_eq_false. done. Qed.

(** The shell of the first vertex is closed in the mesh left. *)
Lemma shell_closed fs seed rem :
  shell_round (faces_in (seed :: rem) fs) (shell fs (seed :: rem) seed) ⊆ shell fs (seed :: rem) seed.
Proof.
  apply (close_fixpoint (list_to_set (seed :: rem))).
  - intros f v (_ & Hf)%elem_of_faces_in Hv. apply elem_of_list_to_set. auto.
  - set_solver.
  - pose proof (size_list_to_set_le (seed :: rem)). lia.
Qed.

Lemma filter_out_shorter fs seed rem :
  length (List.filter (fun v => negb (bool_decide (v ∈ shell fs (seed :: rem) seed))) (seed :: rem))
  < length (seed :: rem).
Proof.
  cbn [List.filter length]. rewrite bool_decide_true by apply shell_seed. cbn [negb].
  pose proof (List.filter_length_le (fun v => negb (bool_decide (v ∈ shell fs (seed :: rem) seed))) rem).
  lia.
Qed.


(** ** The parts *)
















(** ** The meshes of the parts *)




Lemma inb_spec (vs : list nat) f :
  forallb (fun v => bool_decide (v ∈ vs)) f = true <-> forall v, v ∈ f -> v ∈ vs.
Proof. rewrite forallb_forall. setoid_rewrite bool_decide_eq_true. by setoid_rewrite <-list_elem_of_In. Qed.

Lemma inb_false (vs : list nat) f :
  forallb (fun v => bool_decide (v ∈ vs)) f = false <-> ~ forall v, v ∈ f -> v ∈ vs.
Proof. rewrite <-inb_spec. destruct (forallb _ _); naive_solver. Qed.

(** A face on the vertices [rem] goes to exactly one side of a closed set. *)
Lemma face_split_one (comp : gset nat) rem f :
  f <> [] -> ((forall v, v ∈ f -> v ∈ rem) -> forall u v, u ∈ f -> v ∈ f -> u ∈ comp -> v ∈ comp) ->
  Nat.b2n (forallb (fun v => bool_decide (v ∈ rem)) f) =
  Nat.b2n (forallb (fun v => bool_decide (v ∈ List.filter (fun v => bool_decide (v ∈ comp)) rem)) f) +
  Nat.b2n (forallb (fun v => bool_decide (v ∈ List.filter (fun v => negb (bool_decide (v ∈ comp))) rem)) f).
Proof.
  intros Hne Hc. destruct f as [|w f]; [done|].
  destruct (forallb (fun v => bool_decide (v ∈ rem)) (w :: f)) eqn:Hr,
    (forallb (fun v => bool_decide (v ∈ List.filter (fun v => bool_decide (v ∈ comp)) rem)) (w :: f)) eqn:Hx,
    (forallb (fun v => bool_decide (v ∈ List.filter (fun v => negb (bool_decide (v ∈ comp))) rem)) (w :: f)) eqn:Hy;
    cbn; try done; exfalso;
    rewrite ?inb_spec, ?inb_false in Hr; rewrite ?inb_spec, ?inb_false in Hx; rewrite ?inb_spec, ?inb_false in Hy;
    setoid_rewrite elem_of_filter_in in Hx; setoid_rewrite elem_of_filter_out in Hy.
  all: first
    [ destruct (Hx w) as [_ Hw1]; [set_solver|]; destruct (Hy w) as [_ Hw2]; [set_solver|]; done
    | apply Hr; intros v Hv; first [apply (proj1 (Hy v Hv)) | apply (proj1 (Hx v Hv))]
    | destruct (decide (w ∈ comp)) as [Hw|Hw];
      [ apply Hx; intros v Hv; split; [auto|]; apply (Hc Hr w v); set_solver
      | apply Hy; intros v Hv; split; [auto|]; intros Hv'; apply Hw, (Hc Hr v w); set_solver ] ].
Qed.

(** Faces are split along a closed set: none is lost or duplicated. *)
Lemma faces_in_split (comp : gset nat) rem fs :
  Forall (fun f => f <> []) fs -> shell_round (faces_in rem fs) comp ⊆ comp ->
  length (faces_in rem fs) =
  length (faces_in (List.filter (fun v => bool_decide (v ∈ comp)) rem) fs) +
  length (faces_in (List.filter (fun v => negb (bool_decide (v ∈ comp))) rem) fs).
Proof.
  intros Hne Hcl. pose proof (proj1 (shell_round_closed _ comp) Hcl) as Hc. clear Hcl.
  induction fs as [|f fs IH]; [done|]. apply Forall_cons in Hne as [Hf Hne].
  assert (Hlen : forall vs, length (faces_in vs (f :: fs)) =
                            Nat.b2n (forallb (fun v => bool_decide (v ∈ vs)) f) + length (faces_in vs fs))
    by (intros vs; unfold faces_in; cbn; by destruct (forallb _ f)).
  rewrite !Hlen, IH; [|done|].
  - rewrite (face_split_one comp rem f); [lia|done|].
    intros Hrem u v Hu Hv. apply (Hc f); [|done..]. apply elem_of_faces_in. set_solver.
  - intros g u v Hg. apply Hc. apply elem_of_faces_in. apply elem_of_faces_in in Hg. set_solver.
Qed.

Lemma separate_loop_faces fuel fs rem :
  Forall (fun f => f <> []) fs -> length rem <= fuel ->
  sum_list_with (fun X => length (faces_in X fs)) (separate_loop fuel fs rem).1 +
  length (faces_in (separate_loop fuel fs rem).2 fs) = length (faces_in rem fs).
Proof.
  intros Hne. induction fuel as [|fuel IH] in rem |- *; intros Hlen; [done|].
  destruct rem as [|seed rem]; [done|]. cbn [separate_loop].
  destruct (forallb (fun v => bool_decide (v ∈ shell fs (seed :: rem) seed)) (seed :: rem)); [done|].
  pose proof (filter_out_shorter fs seed rem) as Hlt.
  specialize (IH (List.filter (fun v => negb (bool_decide (v ∈ shell fs (seed :: rem) seed))) (seed :: rem))).
  ospecialize (IH _); [cbn [length] in Hlen, Hlt; lia|].
  destruct (separate_loop fuel _ _) as [parts rest]. cbn [fst snd sum_list_with] in *.
  rewrite (faces_in_split (shell fs (seed :: rem) seed) (seed :: rem) fs Hne (shell_closed fs seed rem)).
  lia.
Qed.

Lemma faces_in_all (n : nat) fs :
  Forall (Forall (fun v => v < n)) fs -> faces_in (seq 0 n) fs = fs.
Proof.
  intros Hfs. unfold faces_in. apply forallb_filter_id, forallb_forall.
  intros f Hf%list_elem_of_In. apply inb_spec. intros v Hv. apply elem_of_seq.
  eapply Forall_forall in Hfs; [|exact Hf]. eapply Forall_forall in Hfs; [|exact Hv]. lia.
Qed.



End Loose.

(** ** [bpy.ops.mesh.sort_elements(type='CURSOR_DISTANCE', elements={'FACE'})]

    Blender 2.65 ([sort_bmelem_flag]) keys every face by
    [len_squared_v3v3(cur, co)], the squared distance from the cursor to
    the face's mean centre [BM_face_calc_center_mean], and reorders the
    faces by increasing key. Vertices are not moved. *)
Module CursorSort.

Local Open Scope Z_scope.

Definition corner_sum (vs : list (vec3 Z)) (f : list nat) : vec3 Z :=
  foldr (fun p acc => Vec3 (vx p + vx acc) (vy p + vy acc) (vz p + vz acc)) (Vec3 0 0 0)
        (omap (vs !!.) f).

(** The key, exactly: with [k] corners of sum [s], the mean is [s / k]
    and the key is [|k * cur - s|^2 / k^2]. ([Z.to_pos 0 = 1]: a face
    without corners, which Blender does not have, gets the key 0.) *)
Definition face_dist (vs : list (vec3 Z)) (cur : vec3 Z) (f : list nat) : Q :=
  let k := Z.of_nat (length f) in
  let s := corner_sum vs f in
  let dx := k * vx cur - vx s in
  let dy := k * vy cur - vy s in
  let dz := k * vz cur - vz s in
  Qmake (dx * dx + dy * dy + dz * dz) (Z.to_pos (k * k)).

Definition dist_ltb (a b : Q * list nat) : bool := negb (Qle_bool b.1 a.1).

(** The faces in increasing distance, ties in their former order. *)
Definition sort_faces (cur : vec3 Z) (me : mesh Z) : mesh Z :=
  Mesh (me_verts me) (me_vsel me)
       (snd <$> py_sort dist_ltb ((fun f => (face_dist (me_verts me) cur f, f)) <$> me_faces me))
       (me_keys me) (me_active_key me).








Lemma sort_faces_perm cur me : me_faces (sort_faces cur me) ≡ₚ me_faces me.
Proof.
  unfold sort_faces; cbn [me_faces]. rewrite py_sort_perm.
  rewrite <-list_fmap_compose. by rewrite list_fmap_id.
Qed.

Lemma sort_faces_wf cur me : wf_mesh me -> wf_mesh (sort_faces cur me).
Proof.
  intros (Hsel & Hfs & Hk). split; [done|]. split; [|done].
  rewrite sort_faces_perm. done.
Qed.




End CursorSort.
