(* ===== verification/RefHost.v ===== *)
(** * A reference host for concrete runs

    The theorems of [Branches] and [Leaves] hold for every instance of
    [Host], [Random] and [Scalar]. This file provides one concrete
    instance of each, so that the witnesses can run the modelled code on
    small scenes by evaluation and check that the hypotheses of the
    theorems can be met.

    - [Scalar Z]: integer coordinates.
    - [Random Z]: a counter generator, [_randbelow(n) = g mod n].
    - [Host Z]: converting a curve gives one vertex per point and one
      two-vertex face per segment. Sorting is [CursorSort.sort_faces]
      with the cursor taken into object space ([ref_sort]). Separating
      is [Loose.separate_loose]: the object keeps the part left at the
      end, and the parts split off, in order, become copies named
      [name.001], [name.002], ... ([suffix], injective, [suffix_inj]).
      New objects are linked one by one before the first object with a
      greater name under [BLI_strcasecmp] ([ref_link]). The RNA ranges
      are the frame limits of Blender 2.65: start frames in
      [-300000, 300000] and durations of at
      least 1. *)

From stdpp Require Import base list strings decidable sets pretty.
From Stdlib Require Import ZArith Lia.
From S2P Require Import Prelude PyFloat Scene MeshOps.

Local Open Scope Z_scope.

#[export] Instance scalar_Z : Scalar Z := {
  s_zero := 0; s_one := 1;
  s_add := Z.add; s_sub := Z.sub; s_mul := Z.mul; s_abs := Z.abs;
  s_div_nat := fun x n => Z.quot x (Z.of_nat n);
  s_ltb := Z.ltb
}.

#[export] Instance scalar_order_Z : ScalarOrder Z.
Proof.
  split; cbn; [intros a; apply Z.ltb_irrefl | intros a b c; rewrite ?Z.ltb_lt, ?Z.ltb_ge; lia..].
Qed.

#[export] Program Instance random_counter : Random Z := {
  randbelow := fun n g => (g mod n, g + 1)
}.
Next Obligation. intros n g Hn. cbn. apply Z.mod_pos_bound. exact Hn. Qed.

(** Converting a curve: the points become vertices and the segments
    of each spline become faces. *)
Fixpoint spline_faces (first len : nat) : list (list nat) :=
  match len with
  | O | S O => []
  | S (S _ as len') => [first; S first] :: spline_faces (S first) len'
  end.

Fixpoint curve_faces (first : nat) (sps : list (spline Z)) : list (list nat) :=
  match sps with
  | [] => []
  | sp :: sps' => spline_faces first (length (sp_points sp)) ++
                  curve_faces (first + length (sp_points sp)) sps'
  end.

Definition curve_mesh (sps : list (spline Z)) : mesh Z :=
  let pts := concat (sp_points <$> sps) in
  Mesh ((fun p => Vec3 (wx p) (wy p) (wz p)) <$> pts) ((fun _ => true) <$> pts)
       (curve_faces 0 sps) [] 0.

Definition ref_convert (o : object Z) : object Z :=
  match ob_data o with
  | CurveData sps => with_data (MeshData (curve_mesh sps)) o
  | _ => o
  end.

(** The names Blender gives the new objects: [BLI_uniquename] appends
    ["%c%03d"] with [.] and 1, 2, ..., so [.001] to [.999] and then the
    plain digits [.1000], ... *)
Definition suffix3 (n : nat) : string :=
  let d k := String (Ascii.ascii_of_nat (48 + k)) EmptyString in
  ("." ++ d (n / 100 mod 10)%nat ++ d (n / 10 mod 10)%nat ++ d (n mod 10)%nat)%string.

Definition suffix (n : nat) : string :=
  if (n <? 1000)%nat then suffix3 n else ("." ++ pretty n)%string.

Definition rename (nm : string) (o : object Z) : object Z :=
  Object nm (ob_data o) (ob_matrix_world o) (ob_modifiers o) (ob_select o)
         (ob_BranchObject o) (ob_LeavesObject o).

(** [bpy.ops.mesh.separate(type='LOOSE')]: the object keeps the last
    loose part, each part split off becomes a copy of it named
    [name.001], [name.002], ... in the order [Loose.separate_loose]
    finds them. *)
Definition ref_separate (o : object Z) : object Z * list (object Z) :=
  match ob_data o with
  | MeshData me =>
      let '(parts, rest) := Loose.separate_loose me in
      (with_data (MeshData rest) o,
       imap (fun i p => rename (ob_name o ++ suffix (S i))%string (with_data (MeshData p) o)) parts)
  | _ => (o, [])
  end.

(** [sort_elements(type='CURSOR_DISTANCE')] measures in object space,
    taking the cursor through the inverse of [matrix_world]; the
    reference host takes away the translation of the matrix, which is
    that inverse when the matrix is a translation, as in the examples. *)
Definition ref_sort (c : vec3 Z) (o : object Z) : object Z :=
  match ob_data o with
  | MeshData me =>
      let m := ob_matrix_world o in
      let c' := Vec3 (vx c - ww (row0 m)) (vy c - ww (row1 m)) (vz c - ww (row2 m)) in
      with_data (MeshData (CursorSort.sort_faces c' me)) o
  | _ => o
  end.

(** Linking a new object into [bpy.data.objects]: [id_sort_by_name]
    puts it before the first object whose name is greater under
    [BLI_strcasecmp], so the list stays in case-insensitive name order. *)
Definition ascii_lower (c : Ascii.ascii) : nat :=
  let n := Ascii.nat_of_ascii c in if (65 <=? n)%nat && (n <=? 90)%nat then (n + 32)%nat else n.

(** [BLI_strcasecmp(a, b) > 0] *)
Fixpoint strcasecmp_gt (a b : string) : bool :=
  match a, b with
  | EmptyString, _ => false
  | String _ _, EmptyString => true
  | String x a', String y b' =>
      if (ascii_lower x =? ascii_lower y)%nat then strcasecmp_gt a' b' else (ascii_lower y <? ascii_lower x)%nat
  end.

Fixpoint insert_by_name (o : object Z) (os : list (object Z)) : list (object Z) :=
  match os with
  | [] => [o]
  | o' :: os' => if strcasecmp_gt (ob_name o') (ob_name o) then o :: os else o' :: insert_by_name o os'
  end.

(** The new objects are linked one by one, in the order they are made. *)
Definition ref_link (news os : list (object Z)) : list (object Z) :=
  foldl (fun acc o => insert_by_name o acc) os news.

Definition ref_modifier_new (name : string) (mods : list (string * modifier)) :=
  if decide (name ∈ mods.*1) then mods ++ [((name ++ ".001")%string, BuildModifier (BuildMod 1 100))]
  else mods ++ [(name, BuildModifier (BuildMod 1 100))].

Lemma ref_separate_parts o kept news :
  ref_separate o = (kept, news) ->
  ob_name kept = ob_name o /\ ob_modifiers kept = ob_modifiers o /\
  Forall (fun n => py_str_contains (ob_name o) (ob_name n) = true /\
                   ob_modifiers n = ob_modifiers o) news.
Proof.
  unfold ref_separate. destruct (ob_data o) as [me| |]; [|intros [= <- <-]; auto..].
  destruct (Loose.separate_loose me) as [parts rest]. intros [= <- <-]. do 2 (split; [done|]).
  apply Forall_forall. intros n (i & r & -> & _)%elem_of_lookup_imap.
  split; [apply py_str_contains_app | done].
Qed.

Lemma digits3 k : (k < 1000)%nat -> k = (100 * (k / 100 mod 10) + 10 * (k / 10 mod 10) + k mod 10)%nat.
Proof.
  intros Hk. assert (Hall : forallb (fun k => Nat.eqb k (100 * (k / 100 mod 10) + 10 * (k / 10 mod 10) + k mod 10))
                              (seq 0 1000) = true) by (vm_compute; reflexivity).
  rewrite forallb_forall in Hall. apply Nat.eqb_eq, Hall, in_seq. lia.
Qed.

Lemma suffix3_inj n m : (n < 1000)%nat -> (m < 1000)%nat -> suffix3 n = suffix3 m -> n = m.
Proof.
  intros Hn Hm. rewrite (digits3 n Hn) at 2. rewrite (digits3 m Hm) at 2. unfold suffix3.
  assert (Hd : forall k, (k mod 10 < 10)%nat) by (intros k; apply Nat.mod_upper_bound; lia).
  generalize (Hd (n / 100)%nat) (Hd (n / 10)%nat) (Hd n) (Hd (m / 100)%nat) (Hd (m / 10)%nat) (Hd m).
  generalize (n / 100 mod 10)%nat (n / 10 mod 10)%nat (n mod 10)%nat
             (m / 100 mod 10)%nat (m / 10 mod 10)%nat (m mod 10)%nat.
  intros a b c a' b' c' ? ? ? ? ? ?. cbn [String.append]. intros [= Ha Hb Hc].
  apply (f_equal Ascii.nat_of_ascii) in Ha, Hb, Hc.
  rewrite !Ascii.nat_ascii_embedding in Ha, Hb, Hc by lia. lia.
Qed.

Lemma string_app_neq s t : t <> EmptyString -> (s ++ t)%string <> s.
Proof. intros Ht. induction s as [|a s IH]; cbn; [done|]. intros [= Hs]. by apply IH. Qed.

Lemma pretty_N_go_length x s : (String.length s <= String.length (pretty_N_go x s))%nat.
Proof.
  revert s. induction (N.lt_wf_0 x) as [x _ IH]; intros s.
  destruct (decide (0 < x)%N) as [Hx|Hx].
  - rewrite pretty_N_go_step by done. etrans; [|apply IH; by apply N.div_lt]. cbn. lia.
  - assert (x = 0%N) as -> by lia. by rewrite pretty_N_go_0.
Qed.

Lemma pretty_length n : (1000 <= n)%nat -> (4 <= String.length (pretty n))%nat.
Proof.
  intros Hn. change (pretty n) with (pretty (N.of_nat n)). unfold pretty, pretty_N. case_decide; [lia|].
  assert (Hx : (1000 <= N.of_nat n)%N) by lia. generalize (N.of_nat n) Hx. clear. intros x Hx.
  assert (H1 : (100 <= x / 10)%N) by (apply N.div_le_lower_bound; lia).
  assert (H2 : (10 <= x / 10 / 10)%N) by (apply N.div_le_lower_bound; lia).
  assert (H3 : (1 <= x / 10 / 10 / 10)%N) by (apply N.div_le_lower_bound; lia).
  rewrite pretty_N_go_step, (pretty_N_go_step (x / 10)), (pretty_N_go_step (x / 10 / 10)),
    (pretty_N_go_step (x / 10 / 10 / 10)) by lia.
  etrans; [|apply pretty_N_go_length]. cbn. lia.
Qed.

Lemma suffix_inj n m : suffix n = suffix m -> n = m.
Proof.
  unfold suffix. destruct (Nat.ltb_spec n 1000), (Nat.ltb_spec m 1000).
  - by apply suffix3_inj.
  - intros Heq. apply (f_equal String.length) in Heq. pose proof (pretty_length m).
    change (4 = S (String.length (pretty m)))%nat in Heq. lia.
  - intros Heq. apply (f_equal String.length) in Heq. pose proof (pretty_length n).
    change (S (String.length (pretty n)) = 4)%nat in Heq. lia.
  - intros [= Heq]. exact (pretty_nat_inj _ _ Heq).
Qed.

Lemma ref_separate_mesh o kept news :
  ref_separate o = (kept, news) -> is_mesh o = true -> Forall (fun p => is_mesh p = true) (kept :: news).
Proof.
  intros Hs Hm. unfold is_mesh in Hm. unfold ref_separate in Hs.
  destruct (ob_data o) as [me| |] eqn:Hd; [|congruence..].
  destruct (Loose.separate_loose me) as [parts rest]. injection Hs as <- <-.
  constructor; [done|]. apply Forall_forall. by intros p (i & r & -> & _)%elem_of_lookup_imap.
Qed.

Lemma ref_separate_names o kept news :
  ref_separate o = (kept, news) -> NoDup (ob_name o :: (ob_name <$> news)).
Proof.
  unfold ref_separate. destruct (ob_data o) as [me| |]; [|intros [= _ <-]; repeat constructor; set_solver..].
  destruct (Loose.separate_loose me) as [parts rest]. intros [= _ <-]. constructor.
  - intros (p & Hp & (i & r & -> & _)%elem_of_lookup_imap)%list_elem_of_fmap.
    cbn in Hp. symmetry in Hp. revert Hp. apply string_app_neq.
    unfold suffix. case_match; [by unfold suffix3|done].
  - rewrite fmap_imap. cbn. rewrite (imap_seq_0 _ (fun i => (ob_name o ++ suffix (S i))%string)).
    apply NoDup_fmap_2; [|apply NoDup_seq]. intros i j Hij.
    apply (inj (String.app (ob_name o))), suffix_inj in Hij. lia.
Qed.

(** Adding a shape key copies the vertex positions. *)
Definition ref_shape_key_add (me : mesh Z) : mesh Z :=
  Mesh (me_verts me) (me_vsel me) (me_faces me) (me_keys me ++ [ShapeKey (me_verts me) 0 []])
       (me_active_key me).

(** Resizing to nothing moves every selected vertex of the active key to
    the origin. *)
Definition ref_resize_zero (me : mesh Z) : mesh Z :=
  let shrink k := ShapeKey (zip_with (fun v (sel : bool) => if sel then Vec3 0 0 0 else v)
                                     (sk_co k) (me_vsel me)) (sk_value k) (sk_fcurve k) in
  Mesh (me_verts me) (me_vsel me) (me_faces me) (alter shrink (me_active_key me) (me_keys me))
       (me_active_key me).

Lemma ref_resize_fcurves me :
  sk_fcurve <$> me_keys (ref_resize_zero me) = sk_fcurve <$> me_keys me.
Proof.
  cbn. generalize (me_active_key me). induction (me_keys me) as [|k ks IH]; intros [|i]; cbn;
    try done. f_equal. apply IH.
Qed.

(** The reference host keeps meshes well formed. *)
Lemma faces_bound_mono (n m : nat) (fs : list (list nat)) :
  (n <= m)%nat -> Forall (Forall (fun vi => vi < n)%nat) fs -> Forall (Forall (fun vi => vi < m)%nat) fs.
Proof.
  intros Hnm Hfs. eapply Forall_impl; [exact Hfs|]. intros f Hf.
  eapply Forall_impl; [exact Hf|]. cbn. lia.
Qed.

Lemma spline_faces_bound first len :
  Forall (Forall (fun vi => vi < first + len)%nat) (spline_faces first len).
Proof.
  revert first. induction len as [|len IH]; intros first; [constructor|].
  destruct len as [|len]; cbn; [constructor|].
  constructor; [repeat constructor; lia|].
  eapply faces_bound_mono; [|apply IH]. lia.
Qed.

Lemma curve_faces_bound first (sps : list (spline Z)) :
  Forall (Forall (fun vi => vi < first + length (concat (sp_points <$> sps)))%nat) (curve_faces first sps).
Proof.
  revert first. induction sps as [|sp sps IH]; intros first; cbn; [constructor|].
  rewrite length_app. apply Forall_app; split; eapply faces_bound_mono;
    [| apply spline_faces_bound | | apply IH]; lia.
Qed.

Lemma curve_faces_nonempty first (sps : list (spline Z)) : Forall (fun f => f <> []) (curve_faces first sps).
Proof.
  revert first. induction sps as [|sp sps IH]; intros first; cbn; [constructor|].
  apply Forall_app; split; [|apply IH].
  generalize first. induction (length (sp_points sp)) as [|[|len] IHl]; intros f; cbn; [constructor..|].
  constructor; [done | apply IHl].
Qed.

Lemma ref_convert_wf o : wf_object o -> wf_object (ref_convert o).
Proof.
  unfold ref_convert. destruct (ob_data o) as [| sps |] eqn:Hd; [done| |done]. intros _.
  unfold wf_object, wf_mesh. cbn. rewrite !length_fmap. split; [done|]. split; [|constructor].
  exact (curve_faces_bound 0 sps).
Qed.



Lemma insert_by_name_perm o os : insert_by_name o os ≡ₚ o :: os.
Proof.
  induction os as [|o' os IH]; cbn; [done|]. case_match; [done|].
  rewrite IH. apply Permutation_swap.
Qed.

Lemma ref_link_perm news os : ref_link news os ≡ₚ news ++ os.
Proof.
  unfold ref_link. revert os. induction news as [|n news IH]; intros os; cbn; [done|].
  rewrite IH, insert_by_name_perm. by rewrite Permutation_middle.
Qed.

(** The number of faces of a mesh object, [0] for other data. *)
Definition mesh_faces {R} (o : object R) : nat :=
  match ob_data o with MeshData me => length (me_faces me) | _ => O end.

Lemma mesh_faces_imap (o : object Z) (s : nat -> string) (ms : list (mesh Z)) :
  sum_list_with mesh_faces (imap (fun i m => rename (s i) (with_data (MeshData m) o)) ms) =
  sum_list_with (fun m => length (me_faces m)) ms.
Proof.
  revert s. induction ms as [|m ms IH]; intros s; [done|].
  rewrite imap_cons. cbn [sum_list_with]. f_equal. apply (IH (fun i => s (S i))).
Qed.

(** [separate] on the reference host loses no face and duplicates none:
    the new objects and the one kept carry the faces of the mesh. *)
Lemma ref_separate_faces o me kept news :
  ob_data o = MeshData me -> wf_mesh me -> Forall (fun f => f <> []) (me_faces me) ->
  ref_separate o = (kept, news) -> sum_list_with mesh_faces (news ++ [kept]) = length (me_faces me).
Proof.
  intros Hd (_ & Hfs & _) Hne. unfold ref_separate, Loose.separate_loose. rewrite Hd.
  pose proof (Loose.separate_loop_faces (length (me_verts me)) (me_faces me) (seq 0 (length (me_verts me))) Hne
                ltac:(by rewrite length_seq)) as Hsum.
  destruct (Loose.separate_loop _ _ _) as [ps r]. intros [= <- <-]. cbn [fst snd] in Hsum.
  rewrite Loose.faces_in_all in Hsum by done. rewrite <- Hsum, sum_list_with_app, mesh_faces_imap.
  cbn [sum_list_with mesh_faces with_data ob_data Loose.submesh me_faces]. rewrite length_map, Nat.add_0_r.
  f_equal. clear Hsum. induction ps as [|X ps IH]; cbn; [done|]. by rewrite length_map, IH.
Qed.

#[export] Program Instance ref_host : Host Z := {
  host_convert_to_mesh := ref_convert;
  host_sort_faces := ref_sort;
  host_separate_loose := ref_separate;
  host_link_objects := ref_link;
  host_modifier_new := ref_modifier_new;
  host_shape_key_add := ref_shape_key_add;
  host_resize_zero := ref_resize_zero;
  host_frame_min := -300000;
  host_frame_max := 300000;
  host_duration_min := 1
}.
Next Obligation. intros o. unfold ref_convert. by destruct (ob_data o). Qed.
Next Obligation. intros o. unfold ref_convert. by destruct (ob_data o). Qed.
Next Obligation. intros c o. unfold ref_sort, is_mesh. destruct (ob_data o) eqn:Hd; cbn; by rewrite ?Hd. Qed.
Next Obligation. intros c o. unfold ref_sort, is_mesh. destruct (ob_data o) eqn:Hd; cbn; by rewrite ?Hd. Qed.
Next Obligation. intros o sps Hd. unfold ref_convert, is_mesh. by rewrite Hd. Qed.
Next Obligation. intros c o. unfold ref_sort, is_mesh. destruct (ob_data o) eqn:Hd; cbn; by rewrite ?Hd. Qed.
Next Obligation. exact ref_separate_parts. Qed.
Next Obligation. exact ref_separate_mesh. Qed.
Next Obligation. exact ref_separate_names. Qed.
Next Obligation. exact ref_link_perm. Qed.
Next Obligation. intros me. by eexists. Qed.
Next Obligation. done. Qed.
Next Obligation. done. Qed.
Next Obligation. done. Qed.
Next Obligation. done. Qed.
Next Obligation. exact ref_resize_fcurves. Qed.
Next Obligation. done. Qed.
Next Obligation. done. Qed.
Next Obligation. done. Qed.
Next Obligation. done. Qed.
Next Obligation. intros name mods Hn. unfold ref_modifier_new. by rewrite decide_False. Qed.

(** Scene constructors for the examples. *)
Definition id_mat : mat4 Z :=
  Mat4 (Vec4 1 0 0 0) (Vec4 0 1 0 0) (Vec4 0 0 1 0) (Vec4 0 0 0 1).

Definition mk_object (name : string) (d : obj_data Z) (mods : list (string * modifier)) : object Z :=
  Object name d id_mat mods false "" "".

Definition mk_world (os : list (object Z)) (active : option string) : world Z Z :=
  World os active (Vec3 0 0 0) 1 OBJECT_MODE default_branch_props default_leaves_props 0.
