(* ===== verification/Branches.v ===== *)
(** * [BranchesAnimProperties] and the Animate Branches operator

    Lines 96-125 and 151-280 of [src/ivy_growth_animator_addon.py].
    [find_ivy_branches] lists the islands by name and face count,
    [find_biggest_branch] finds the largest face count and the base
    build length, and [set_build_timing] writes a start frame and a
    duration into each island's Build modifier. [prepare_ivy_object]
    converts the curve, adds the modifier and splits the mesh, and
    [animate_branches_execute] chains these steps as the operator does.

    The theorems describe each operation on every branch, errors
    included. [find_biggest_branch] is checked against a reference
    maximum. [set_build_timing] is proved to write the staggered
    schedule, and the operator is proved to ignore [initial_delay].
    [prepare_runs] runs [prepare_ivy_object] symbolically through the
    checkpoints [stage], up to the split, after which [islands_ready]
    holds, and the islands are the parts [separate] made from
    [prepared_object]: the whole operator then times every island
    (C16), and on the reference host the islands' face counts add up to
    the faces of the converted curve (section [RefIslands], C27). *)

From stdpp Require Import base list strings decidable sets.
From Stdlib Require Import ZArith Lia Floats.SpecFloat.
From S2P Require Import Prelude PyFloat Scene MeshOps RefHost.

Local Open Scope Z_scope.

(** An entry of the list [find_ivy_branches] returns:
    [{"name": ..., "facecount": ...}]. *)
Record ivy_entry := IvyEntry { ie_name : string; ie_facecount : Z }.

#[export] Instance ivy_entry_eq_dec : EqDecision ivy_entry.
Proof. solve_decision. Defined.

Section Branches.
Context {R G : Type} `{Host R} `{Random G}.

Abbreviation M := (PyM (world R G)).

(** ** find_ivy_branches (lines 204-219) *)

(** [current_obj.data.update(calc_tessface=True)] then
    [len(current_obj.data.tessfaces)]: only a mesh has [update];
    a curve raises, and so does an object without data ([None]). *)
Definition tessface_count (o : object R) : result Z :=
  match ob_data o with
  | MeshData me => Ok (Z.of_nat (length (me_faces me)))
  | CurveData _ | OtherData => Err (AttributeError "update")
  end.

Fixpoint collect_ivy (base_name : string) (os : list (object R)) : result (list ivy_entry) :=
  match os with
  | [] => Ok []
  | o :: os' =>
      if py_str_contains base_name (ob_name o) then
        n ← tessface_count o;
        rest ← collect_ivy base_name os';
        Ok (IvyEntry (ob_name o) n :: rest)
      else collect_ivy base_name os'
  end.

Definition find_ivy_branches (base_name : string) : M (list ivy_entry) :=
  fun w => (collect_ivy base_name (w_objects w), w).

End Branches.

(** ** find_biggest_branch (lines 221-233) *)

(** One iteration of the loop of lines 226-229. *)
Definition biggest_step (acc : string * Z) (obj : ivy_entry) : string * Z :=
  if Z.ltb acc.2 (ie_facecount obj) then (ie_name obj, ie_facecount obj) else acc.

Definition find_biggest_branch (ivy_objects : list ivy_entry) (faces_per_frame : Z)
    : result (string * Z * Z) :=
  let '(biggest_obj, most_faces) := fold_left biggest_step ivy_objects (""%string, 0) in
  q ← PyFloat.int_truediv most_faces faces_per_frame;
  base_build_length ← PyFloat.to_int q;
  Ok (biggest_obj, most_faces, base_build_length).

(** The reference: the largest face count, and 0 for no face at all. *)
Definition max_facecount (ivy : list ivy_entry) : Z :=
  fold_right (fun e m => Z.max (ie_facecount e) m) 0 ivy.

(** The name of the first entry with [m] faces. *)
Fixpoint first_with_count (m : Z) (ivy : list ivy_entry) : option string :=
  match ivy with
  | [] => None
  | e :: ivy' => if Z.eqb (ie_facecount e) m then Some (ie_name e) else first_with_count m ivy'
  end.

(** ** set_build_timing (lines 235-257) *)

(** The start frame of the [count]-th island (lines 247-251). *)
Definition timing_start (build_start_frame build_interval wait_between_branches count : Z) : Z :=
  if Z.eqb count 0 then build_start_frame
  else build_start_frame + build_interval + count * wait_between_branches.

(** The duration of an island (lines 254-255):
    [int((facecount / most_faces) * base_build_length)]. *)
Definition timing_duration (facecount most_faces base_build_length : Z) : result Z :=
  ratio ← PyFloat.int_truediv facecount most_faces;
  PyFloat.to_int (PyFloat.mul_int ratio base_build_length).

Section Timing.
Context {R G : Type} `{Host R} `{Random G}.

Abbreviation M := (PyM (world R G)).

(** [bpy.data.objects[name].modifiers[modifier_name].<field> = v]:
    the right-hand side is already evaluated; the object lookup and the
    modifier lookup can raise, setting a Build field on another kind of
    modifier raises, and the RNA setter clamps the value. *)
Definition set_build_field (name modifier_name : string)
    (upd : build_modifier -> build_modifier) : M unit :=
  o ← objects_get name;
  m ← py_lift (modifiers_get modifier_name (ob_modifiers o));
  _ ← py_lift (as_build m);
  update_object name (fun o => with_modifiers (map_modifier modifier_name upd (ob_modifiers o)) o).

Definition set_frame_start (v : Z) (b : build_modifier) : build_modifier :=
  BuildMod (clamp host_frame_min host_frame_max v) (frame_duration b).

Definition set_frame_duration (v : Z) (b : build_modifier) : build_modifier :=
  BuildMod (frame_start b) (clamp host_duration_min host_frame_max v).

(** The loop of lines 241-257, [count] being the loop counter. *)
Fixpoint timing_loop (modifier_name : string) (build_start_frame build_interval
    wait_between_branches most_faces base_build_length : Z) (count : Z)
    (ivy : list ivy_entry) : M unit :=
  match ivy with
  | [] => py_ret tt
  | obj :: rest =>
      let name := ie_name obj in
      _ ← objects_get name;
      _ ← set_build_field name modifier_name
            (set_frame_start (timing_start build_start_frame build_interval
                                wait_between_branches count));
      ratio ← py_lift (PyFloat.int_truediv (ie_facecount obj) most_faces);
      dur ← py_lift (PyFloat.to_int (PyFloat.mul_int ratio base_build_length));
      _ ← set_build_field name modifier_name (set_frame_duration dur);
      timing_loop modifier_name build_start_frame build_interval
        wait_between_branches most_faces base_build_length (count + 1) rest
  end.

Definition set_build_timing (ivy_objects : list ivy_entry) (build_start_frame build_interval
    wait_between_branches most_faces base_build_length : Z) : M unit :=
  modifier_name ← py_gets (fun w => bp_modifier_name (w_branch_props w));
  timing_loop modifier_name build_start_frame build_interval wait_between_branches
    most_faces base_build_length 0 ivy_objects.

End Timing.

(** ** Proofs: set_build_timing *)

Section TimingProofs.
Context {R G : Type} `{Host R} `{Random G}.

Lemma objects_get_found name (w : world R G) o :
  find_object name (w_objects w) = Some o -> objects_get name w = (Ok o, w).
Proof. unfold objects_get. by intros ->. Qed.


Lemma build_of_find name mn (os : list (object R)) b :
  build_of os name mn = Some b ->
  exists o, find_object name os = Some o /\ modifiers_get mn (ob_modifiers o) = Ok (BuildModifier b).
Proof.
  unfold build_of. destruct (find_object name os) as [o|]; simpl; [|discriminate].
  destruct (modifiers_get mn (ob_modifiers o)) as [[b'|]|] eqn:Hm; intros Hb; simplify_eq; eauto.
Qed.

Lemma build_of_same_object n mn (os os' : list (object R)) :
  find_object n os = find_object n os' -> build_of os n mn = build_of os' n mn.
Proof. unfold build_of. by intros ->. Qed.

(** One assignment to a Build field of an existing modifier. *)
Lemma set_build_field_ok name mn upd (w : world R G) b :
  build_of (w_objects w) name mn = Some b ->
  set_build_field name mn upd w = (Ok tt, set_objects (update_build name mn upd (w_objects w)) w).
Proof.
  intros (o & Ho & Hm)%build_of_find. unfold set_build_field.
  rewrite (py_mbind_ok _ _ _ _ _ (objects_get_found _ _ _ Ho)).
  rewrite (py_mbind_ok (py_lift _) _ w (BuildModifier b) w) by (cbn; by rewrite Hm).
  reflexivity.
Qed.


Lemma set_build_field_no_modifier name mn upd (w : world R G) o :
  find_object name (w_objects w) = Some o ->
  modifiers_get mn (ob_modifiers o) = Err (KeyError mn) ->
  set_build_field name mn upd w = (Err (KeyError mn), w).
Proof.
  intros Ho Hm. unfold set_build_field.
  rewrite (py_mbind_ok _ _ _ _ _ (objects_get_found _ _ _ Ho)).
  apply py_mbind_err. cbn. by rewrite Hm.
Qed.

Lemma timing_duration_split f most base d :
  timing_duration f most base = Ok d ->
  exists r, PyFloat.int_truediv f most = Ok r /\
            PyFloat.to_int (PyFloat.mul_int r base) = Ok d.
Proof. unfold timing_duration. destruct (PyFloat.int_truediv f most); cbn; eauto; done. Qed.

(** The islands [set_build_timing] can time: each has a Build modifier
    called [mn]. *)
Definition timing_ready (mn : string) (os : list (object R)) (ivy : list ivy_entry) : Prop :=
  Forall (fun e => is_Some (build_of os (ie_name e) mn)) ivy.

Lemma timing_ready_update mn name upd os ivy :
  name ∉ ie_name <$> ivy -> timing_ready mn os ivy ->
  timing_ready mn (update_build name mn upd os) ivy.
Proof.
  intros Hn.
  induction ivy as [|e ivy IH]; [constructor|]. intros [He Hr]%Forall_cons.
  constructor; [|apply IH; [set_solver | exact Hr]].
  rewrite build_of_update_build. case_decide as Hd; [set_solver | exact He].
Qed.

(** The loop of [set_build_timing]: from counter [count], every
    island gets the clamped start frame of its position and the
    clamped duration of its face count, the other objects keep their
    modifiers, and nothing but the objects changes. *)
Lemma timing_loop_spec mn bsf interval wait most base (dur : ivy_entry -> Z) :
  forall (ivy : list ivy_entry) (count : Z) (w : world R G),
  NoDup (ie_name <$> ivy) ->
  timing_ready mn (w_objects w) ivy ->
  (forall e, e ∈ ivy -> timing_duration (ie_facecount e) most base = Ok (dur e)) ->
  exists os',
    timing_loop mn bsf interval wait most base count ivy w = (Ok tt, set_objects os' w) /\
    (forall k e, ivy !! k = Some e ->
       build_of os' (ie_name e) mn =
       Some (BuildMod (clamp host_frame_min host_frame_max
                         (timing_start bsf interval wait (count + Z.of_nat k)))
                      (clamp host_duration_min host_frame_max (dur e)))) /\
    (forall n, n ∉ ie_name <$> ivy -> find_object n os' = find_object n (w_objects w)).
Proof.
  induction ivy as [|e ivy IH]; intros count w Hnd Hr Hd.
  { exists (w_objects w). split; [by destruct w|]. split; [intros k e Hk; done | done]. }
  cbn in Hnd. apply NoDup_cons in Hnd as [Hne Hnd].
  apply Forall_cons in Hr as [[b Hb] Hr].
  destruct (timing_duration_split _ _ _ _ (Hd e ltac:(set_solver))) as (r & Hr1 & Hr2).
  destruct (build_of_find _ _ _ _ Hb) as (o & Ho & _).
  pose (s := set_frame_start (timing_start bsf interval wait count)).
  pose (w1 := set_objects (update_build (ie_name e) mn s (w_objects w)) w).
  pose (w2 := set_objects (update_build (ie_name e) mn (set_frame_duration (dur e)) (w_objects w1)) w1).
  assert (Hb1 : build_of (w_objects w1) (ie_name e) mn = Some (s b)).
  { unfold w1. cbn [w_objects set_objects].
    rewrite build_of_update_build, decide_True by done. by rewrite Hb. }
  destruct (IH (count + 1) w2) as (os' & Hrun & Hin & Hout).
  - exact Hnd.
  - unfold w2, w1. cbn [w_objects set_objects].
    apply timing_ready_update; [done|]. apply timing_ready_update; [done | exact Hr].
  - intros e' He'. apply Hd. set_solver.
  - exists os'. split; [|split].
    + cbn [timing_loop].
      rewrite (py_mbind_ok _ _ _ _ _ (objects_get_found _ _ _ Ho)).
      rewrite (py_mbind_ok _ _ _ _ _ (set_build_field_ok _ _ _ _ _ Hb)).
      fold s w1.
      rewrite (py_mbind_ok (py_lift _) _ w1 r w1) by (cbn; by rewrite Hr1).
      rewrite (py_mbind_ok (py_lift _) _ w1 (dur e) w1) by (cbn; by rewrite Hr2).
      rewrite (py_mbind_ok _ _ _ _ _ (set_build_field_ok _ _ _ _ _ Hb1)).
      fold w2. rewrite Hrun. by destruct w.
    + intros [|k] e' Hk; cbn in Hk.
      * simplify_eq. rewrite (build_of_same_object _ _ _ _ (Hout _ Hne)). unfold w2, w1. cbn [w_objects set_objects].
        rewrite !build_of_update_build, !decide_True by done. rewrite Hb.
        replace (count + Z.of_nat 0) with count by lia. reflexivity.
      * rewrite (Hin k e' Hk). by replace (count + 1 + Z.of_nat k) with (count + Z.of_nat (S k)) by lia.
    + intros n Hn. rewrite Hout by set_solver. unfold w2, w1. cbn [w_objects set_objects].
      rewrite !find_object_update_build, !decide_False by set_solver. done.
Qed.

End TimingProofs.

(** ** Proofs: the error paths of set_build_timing *)

Section TimingErrors.
Context {R G : Type} `{Host R} `{Random G}.

Lemma timing_loop_app mn bsf interval wait most base (l1 l2 : list ivy_entry) count (w : world R G) :
  timing_loop mn bsf interval wait most base count (l1 ++ l2) w =
  mbind (fun _ => timing_loop mn bsf interval wait most base (count + Z.of_nat (length l1)) l2)
        (timing_loop mn bsf interval wait most base count l1) w.
Proof.
  revert count w. induction l1 as [|e l1 IH]; intros count w; cbn [app timing_loop length].
  { rewrite Z.add_0_r. reflexivity. }
  unfold mbind, py_mbind. rewrite !py_bind_assoc. apply py_bind_ext. intros o w1.
  rewrite !py_bind_assoc. apply py_bind_ext. intros [] w2.
  rewrite !py_bind_assoc. apply py_bind_ext. intros r w3.
  rewrite !py_bind_assoc. apply py_bind_ext. intros d w4.
  rewrite !py_bind_assoc. apply py_bind_ext. intros [] w5.
  rewrite IH. by replace (count + 1 + Z.of_nat (length l1)) with (count + Z.of_nat (S (length l1))) by lia.
Qed.

(** C6. When the largest face count is 0 ([ratio = facecount /
    most_faces] with [most_faces = 0]), [ZeroDivisionError] is raised
    after the first island has already received its start frame. *)
Lemma timing_zero_division mn bsf interval wait base e rest (w : world R G) b :
  build_of (w_objects w) (ie_name e) mn = Some b ->
  timing_loop mn bsf interval wait 0 base 0 (e :: rest) w =
  (Err ZeroDivisionError,
   set_objects (update_build (ie_name e) mn (set_frame_start bsf) (w_objects w)) w).
Proof.
  intros Hb. destruct (build_of_find _ _ _ _ Hb) as (o & Ho & _). cbn [timing_loop].
  rewrite (py_mbind_ok _ _ _ _ _ (objects_get_found _ _ _ Ho)).
  rewrite (py_mbind_ok _ _ _ _ _ (set_build_field_ok _ _ _ _ _ Hb)).
  apply py_mbind_err. reflexivity.
Qed.

(** C5. An object that [find_ivy_branches] lists because its name
    contains the base name, but that has no modifier of that name, stops
    the loop with [KeyError] once the islands before it have been timed
    (they keep their new timing). *)
Lemma timing_missing_modifier mn bsf interval wait most base (dur : ivy_entry -> Z)
    (l1 : list ivy_entry) e l2 (w : world R G) o :
  NoDup (ie_name <$> l1) ->
  timing_ready mn (w_objects w) l1 ->
  (forall e, e ∈ l1 -> timing_duration (ie_facecount e) most base = Ok (dur e)) ->
  ie_name e ∉ ie_name <$> l1 ->
  find_object (ie_name e) (w_objects w) = Some o ->
  modifiers_get mn (ob_modifiers o) = Err (KeyError mn) ->
  exists os',
    timing_loop mn bsf interval wait most base 0 (l1 ++ e :: l2) w = (Err (KeyError mn), set_objects os' w) /\
    forall k e', l1 !! k = Some e' ->
      build_of os' (ie_name e') mn =
      Some (BuildMod (clamp host_frame_min host_frame_max (timing_start bsf interval wait (Z.of_nat k)))
                     (clamp host_duration_min host_frame_max (dur e'))).
Proof.
  intros Hnd Hr Hd Hn Ho Hm.
  destruct (timing_loop_spec mn bsf interval wait most base dur l1 0 w Hnd Hr Hd) as (os' & Hrun & Hin & Hout).
  exists os'. split.
  - rewrite timing_loop_app, (py_mbind_ok _ _ _ _ _ Hrun). cbn [timing_loop].
    assert (Ho' : find_object (ie_name e) (w_objects (set_objects os' w)) = Some o).
    { cbn [w_objects set_objects]. by rewrite Hout. }
    rewrite (py_mbind_ok _ _ _ _ _ (objects_get_found _ _ _ Ho')).
    by rewrite (py_mbind_err _ _ _ _ _ (set_build_field_no_modifier _ _ _ _ _ Ho' Hm)).
  - intros k e' Hk. rewrite (Hin k e' Hk). by rewrite Z.add_0_l.
Qed.

End TimingErrors.

(** ** Proofs: find_biggest_branch *)

Lemma fold_max_init (l : list ivy_entry) a c :
  a <= c ->
  fold_right (fun e m => Z.max (ie_facecount e) m) c l =
  Z.max c (fold_right (fun e m => Z.max (ie_facecount e) m) a l).
Proof. intros Hac. induction l as [|e l IH]; cbn; lia. Qed.

Lemma fold_max_ge (l : list ivy_entry) a :
  a <= fold_right (fun e m => Z.max (ie_facecount e) m) a l.
Proof. induction l as [|e l IH]; cbn; lia. Qed.

(** The scan of lines 226-229 from any start: the largest count it
    meets and the name of the first entry that reaches it, or the
    start when no entry is strictly larger than the start. *)
Lemma fold_biggest (ivy : list ivy_entry) (acc : string * Z) :
  fold_left biggest_step ivy acc =
  let m := fold_right (fun e m => Z.max (ie_facecount e) m) acc.2 ivy in
  if Z.ltb acc.2 m then (default ""%string (first_with_count m ivy), m) else acc.
Proof.
  revert acc. induction ivy as [|e ivy IH]; intros [b c]; cbn -[Z.max].
  { by rewrite Z.ltb_irrefl. }
  rewrite IH. unfold biggest_step. cbn -[Z.max].
  pose proof (fold_max_ge ivy c) as Hc.
  destruct (Z.ltb_spec c (ie_facecount e)); cbn -[Z.max].
  - rewrite (fold_max_init ivy c (ie_facecount e)) by lia.
    set (M := fold_right (fun e m => Z.max (ie_facecount e) m) c ivy) in *.
    destruct (Z.ltb_spec (ie_facecount e) (Z.max (ie_facecount e) M)),
      (Z.ltb_spec c (Z.max (ie_facecount e) M)),
      (Z.eqb_spec (ie_facecount e) (Z.max (ie_facecount e) M)); try lia; cbn; try reflexivity;
      f_equal; lia.
  - set (M := fold_right (fun e m => Z.max (ie_facecount e) m) c ivy) in *.
    replace (Z.max (ie_facecount e) M) with M by lia.
    destruct (Z.ltb_spec c M), (Z.eqb_spec (ie_facecount e) M); try lia; reflexivity.
Qed.

(** The name [find_biggest_branch] reports: the first entry with the
    largest count, or [""] when no entry has a face. *)
Definition biggest_name (ivy : list ivy_entry) : string :=
  if Z.ltb 0 (max_facecount ivy) then default ""%string (first_with_count (max_facecount ivy) ivy)
  else ""%string.

(** C2. The scan of [find_biggest_branch] (strict [>], starting from
    [("", 0)]) computes the largest face count, 0 when there is no face,
    and the name of the first entry with that count, or [""] when the
    largest count is 0. *)
Lemma biggest_scan (ivy : list ivy_entry) :
  fold_left biggest_step ivy (""%string, 0) = (biggest_name ivy, max_facecount ivy).
Proof.
  rewrite fold_biggest. unfold biggest_name, max_facecount. cbn [fst snd].
  destruct (Z.ltb_spec 0 (fold_right (fun e m => Z.max (ie_facecount e) m) 0 ivy)); [done|].
  f_equal. pose proof (fold_max_ge ivy 0). lia.
Qed.



Section TimingTop.
Context {R G : Type} `{Host R} `{Random G}.

(** C1. [set_build_timing] on islands whose names are distinct and
    that all carry the Build modifier named in the properties succeeds.
    The island at position [k] gets the start frame [frame_start] when
    [k = 0] and [frame_start + build_interval + k * wait_between_branches]
    otherwise, and the duration [int((facecount / most_faces) *
    base_build_length)], both clamped to the RNA ranges. Every other
    object is unchanged, and so is the rest of the state. *)
Lemma set_build_timing_spec ivy bsf interval wait most base (dur : ivy_entry -> Z) (w : world R G) :
  let mn := bp_modifier_name (w_branch_props w) in
  NoDup (ie_name <$> ivy) ->
  timing_ready mn (w_objects w) ivy ->
  (forall e, e ∈ ivy -> timing_duration (ie_facecount e) most base = Ok (dur e)) ->
  exists os',
    set_build_timing ivy bsf interval wait most base w = (Ok tt, set_objects os' w) /\
    (forall k e, ivy !! k = Some e ->
       build_of os' (ie_name e) mn =
       Some (BuildMod (clamp host_frame_min host_frame_max
                         (if decide (k = 0%nat) then bsf else bsf + interval + Z.of_nat k * wait))
                      (clamp host_duration_min host_frame_max (dur e)))) /\
    (forall n, n ∉ ie_name <$> ivy -> find_object n os' = find_object n (w_objects w)).
Proof.
  intros mn Hnd Hr Hd. unfold set_build_timing.
  rewrite (py_mbind_ok _ _ w mn w) by reflexivity.
  destruct (timing_loop_spec mn bsf interval wait most base dur ivy 0 w Hnd Hr Hd)
    as (os' & Hrun & Hb & Hout).
  exists os'. split; [exact Hrun|]. split; [|exact Hout].
  intros k e Hk. rewrite (Hb k e Hk). unfold timing_start. by destruct k.
Qed.

End TimingTop.

(** ** prepare_ivy_object (lines 153-201) *)

Section Prepare.
Context {R G : Type} `{Host R} `{Random G}.

Abbreviation M := (PyM (world R G)).

(** [obj.data.splines[0].points[0].co]: a mesh or another kind of
    data has no [splines]; an empty spline list or point list raises
    [IndexError]. *)
Definition first_curve_point (o : object R) : result (vec4 R) :=
  match ob_data o with
  | CurveData sps => sp ← py_index sps 0; py_index (sp_points sp) 0
  | MeshData _ | OtherData => Err (AttributeError "splines")
  end.

(** [bpy.ops.object.convert(target='MESH')] converts every selected object. *)
Definition convert_selected : M unit :=
  py_modify (fun w => set_objects
    (map (fun o => if ob_select o then host_convert_to_mesh o else o) (w_objects w)) w).

(** [bpy.ops.mesh.sort_elements(type='CURSOR_DISTANCE', elements={'FACE'})]
    on the active object, from the current 3D cursor. *)
Definition sort_faces_active : M unit :=
  act ← context_object;
  c ← py_gets w_cursor;
  update_object (ob_name act) (host_sort_faces c).

(** [obj.modifiers.new(modifier_name, 'BUILD')] *)
Definition add_build_modifier (name modifier_name : string) : M unit :=
  update_object name (fun o => with_modifiers (host_modifier_new modifier_name (ob_modifiers o)) o).

(** [bpy.ops.mesh.select_all()]: action [TOGGLE] deselects every vertex
    when one is selected and selects all otherwise. *)
Definition toggle_select (me : mesh R) : mesh R :=
  let b := negb (existsb id (me_vsel me)) in
  Mesh (me_verts me) (map (fun _ => b) (me_vsel me)) (me_faces me) (me_keys me) (me_active_key me).

Definition toggle_object (o : object R) : object R :=
  match ob_data o with
  | MeshData me => with_data (MeshData (toggle_select me)) o
  | _ => o
  end.

(** The object [separate] splits: the curve converted, its faces
    sorted from [c], the Build modifier added and the selection toggled. *)
Definition prepared_object (modifier_name : string) (c : vec3 R) (o : object R) : object R :=
  let objT := host_sort_faces c (host_convert_to_mesh (with_select true o)) in
  toggle_object (with_modifiers (host_modifier_new modifier_name (ob_modifiers objT)) objT).

Definition select_all_toggle : M unit :=
  act ← context_object;
  update_object (ob_name act) toggle_object.

(** [bpy.ops.mesh.separate(type='LOOSE')] on the active object: it keeps
    one part and the other parts become new objects. *)
Definition separate_loose_active : M unit :=
  act ← context_object;
  let '(kept, news) := host_separate_loose act in
  py_modify (fun w => set_objects
    (host_link_objects news
       (map (fun o => if decide (ob_name o = ob_name act) then kept else o) (w_objects w))) w).

Definition prepare_ivy_object (modifier_name : string) : M string :=
  ctx ← context_object;
  let ivy_obj_name := ob_BranchObject ctx in
  if decide (ivy_obj_name = ""%string) then py_ret ""%string else
  obj ← objects_get ivy_obj_name;
  first_curve_point_co ← py_lift (first_curve_point obj);
  _ ← py_modify (set_cursor (Vec3 (wx first_curve_point_co) (wy first_curve_point_co)
                                  (wz first_curve_point_co)));
  _ ← update_object ivy_obj_name (with_select true);
  _ ← py_modify (set_active (Some ivy_obj_name));
  _ ← convert_selected;
  _ ← py_modify (set_mode EDIT_MODE);
  _ ← sort_faces_active;
  _ ← add_build_modifier ivy_obj_name modifier_name;
  _ ← select_all_toggle;
  _ ← separate_loose_active;
  _ ← py_modify (set_mode OBJECT_MODE);
  py_ret ivy_obj_name.

(** ** AnimateBranches.execute (lines 103-125) *)

(** What [execute] returns: [{'FINISHED'}], or [None] from the bare
    [return] of line 110. *)
Inductive op_return := FINISHED | RETURNED_NONE.

Definition animate_branches_execute : M op_return :=
  modifier_name ← py_gets (fun w => bp_modifier_name (w_branch_props w));
  object_name ← prepare_ivy_object modifier_name;
  if decide (object_name = ""%string) then py_ret RETURNED_NONE else
  ivy_objects ← find_ivy_branches object_name;
  faces_per_frame ← py_gets (fun w => bp_faces_per_frame (w_branch_props w));
  '(biggest_obj, most_faces, base_build_length) ←
     py_lift (find_biggest_branch ivy_objects faces_per_frame);
  frame_start ← py_gets (fun w => bp_frame_start (w_branch_props w));
  delay_branches ← py_gets (fun w => bp_delay_branches (w_branch_props w));
  _ ← set_build_timing ivy_objects frame_start delay_branches delay_branches
        most_faces base_build_length;
  py_ret FINISHED.

End Prepare.

(** ** Proofs: the operator ignores [initial_delay] *)

Section InitialDelay.
Context {R G : Type} `{Host R} `{Random G}.

(** The state with [initial_delay] set to [d]. *)
Definition with_initial_delay (d : Z) (w : world R G) : world R G :=
  let bp := w_branch_props w in
  World (w_objects w) (w_active w) (w_cursor w) (w_frame w) (w_mode w)
        (BranchProps (bp_frame_start bp) (bp_faces_per_frame bp) (bp_delay_branches bp) d
                     (bp_modifier_name bp))
        (w_leaves_props w) (w_rng w).

Lemma objects_get_wid d name : commutes (with_initial_delay d) (objects_get name).
Proof. by apply objects_get_commutes. Qed.
Lemma context_object_wid d : commutes (with_initial_delay d) context_object.
Proof. by apply context_object_commutes. Qed.
Lemma update_object_wid d name g : commutes (with_initial_delay d) (update_object name g).
Proof. by apply update_object_commutes. Qed.
Lemma find_ivy_branches_wid d name : commutes (with_initial_delay d) (find_ivy_branches name).
Proof. intros w. reflexivity. Qed.
#[local] Hint Resolve objects_get_wid context_object_wid update_object_wid
  find_ivy_branches_wid : commute.

Lemma set_build_field_wid d name mn upd :
  commutes (with_initial_delay d) (set_build_field name mn upd).
Proof. unfold set_build_field. commute_solve. Qed.
#[local] Hint Resolve set_build_field_wid : commute.

Lemma set_build_timing_wid d ivy bsf interval wait most base :
  commutes (with_initial_delay d) (set_build_timing ivy bsf interval wait most base).
Proof.
  unfold set_build_timing. commute_solve.
  generalize 0. induction ivy as [|e ivy IH]; intros count; cbn [timing_loop]; commute_solve.
Qed.

Lemma prepare_ivy_object_wid d mn : commutes (with_initial_delay d) (prepare_ivy_object mn).
Proof.
  unfold prepare_ivy_object, convert_selected, sort_faces_active, add_build_modifier,
    select_all_toggle, separate_loose_active.
  commute_solve.
Qed.
#[local] Hint Resolve set_build_timing_wid prepare_ivy_object_wid : commute.

(** C3. The panel offers [initial_delay], "Number of frames to wait
    before animating 2nd branch", but Animate Branches never reads it:
    running the operator with any other [initial_delay] gives the same
    result and the same final state, up to that property. *)
Theorem animate_branches_ignores_initial_delay (d : Z) (w : world R G) :
  animate_branches_execute (with_initial_delay d w) =
  (fst (animate_branches_execute w), with_initial_delay d (snd (animate_branches_execute w))).
Proof.
  revert w. change (commutes (with_initial_delay d) animate_branches_execute).
  unfold animate_branches_execute. commute_solve.
Qed.

End InitialDelay.

(** ** The operator without a branch object *)

Section NoBranch.
Context {R G : Type} `{Host R} `{Random G}.

(** With an empty [BranchObject], [prepare_ivy_object] returns [""]. *)
Lemma prepare_no_object mn (w : world R G) ctx :
  context_object w = (Ok ctx, w) ->
  ob_BranchObject ctx = ""%string ->
  prepare_ivy_object mn w = (Ok ""%string, w).
Proof. intros Hc He. unfold prepare_ivy_object. rewrite (py_mbind_ok _ _ _ _ _ Hc). by rewrite He. Qed.

(** C7. When the [BranchObject] field of the active object is empty,
    [prepare_ivy_object] returns [""] and [execute] reaches the bare
    [return] of line 110: it returns [None] instead of a set such as
    [{'CANCELLED'}], and nothing changes. *)
Theorem animate_branches_no_object (w : world R G) ctx :
  context_object w = (Ok ctx, w) ->
  ob_BranchObject ctx = ""%string ->
  animate_branches_execute w = (Ok RETURNED_NONE, w).
Proof.
  intros Hc He. unfold animate_branches_execute.
  rewrite (py_mbind_ok _ _ w _ w) by reflexivity.
  by rewrite (py_mbind_ok _ _ _ _ _ (prepare_no_object _ _ _ Hc He)).
Qed.

(** [prepare_ivy_object] fails before it changes anything when the
    branch object is missing or has no first curve point. *)
Lemma prepare_errors mn (w : world R G) ctx :
  context_object w = (Ok ctx, w) -> ob_BranchObject ctx <> ""%string ->
  (find_object (ob_BranchObject ctx) (w_objects w) = None ->
     prepare_ivy_object mn w = (Err (KeyError (ob_BranchObject ctx)), w)) /\
  (forall obj e, find_object (ob_BranchObject ctx) (w_objects w) = Some obj -> first_curve_point obj = Err e ->
     prepare_ivy_object mn w = (Err e, w)).
Proof.
  intros Hc Hne. unfold prepare_ivy_object. rewrite (py_mbind_ok _ _ _ _ _ Hc). cbv beta.
  rewrite decide_False by exact Hne. split.
  - intros Hn. unfold mbind at 1, py_mbind, py_bind, objects_get. by rewrite Hn.
  - intros obj e Ho He. rewrite (py_mbind_ok _ _ _ _ _ (objects_get_found _ _ _ Ho)).
    unfold mbind at 1, py_mbind, py_bind, py_lift. by rewrite He.
Qed.

(** C8. When the [BranchObject] field names an object, Animate Branches
    raises, changing nothing, when no object has that name
    ([bpy.data.objects[...]], [KeyError]) or when it has no first curve
    point (line 171): a mesh, e.g. the ivy already converted by a first
    run, has no [splines] ([AttributeError]), and a curve without
    splines or whose first spline keeps its points in [bezier_points]
    raises [IndexError]. Nothing undoes or reports the earlier run. *)
Theorem animate_branches_execute_errors (w : world R G) ctx :
  context_object w = (Ok ctx, w) -> ob_BranchObject ctx <> ""%string ->
  (find_object (ob_BranchObject ctx) (w_objects w) = None ->
     animate_branches_execute w = (Err (KeyError (ob_BranchObject ctx)), w)) /\
  (forall obj, find_object (ob_BranchObject ctx) (w_objects w) = Some obj ->
     match ob_data obj with
     | CurveData sps => (forall sp, sps !! 0%nat = Some sp -> sp_points sp = []) ->
                        animate_branches_execute w = (Err IndexError, w)
     | _ => animate_branches_execute w = (Err (AttributeError "splines"), w)
     end).
Proof.
  intros Hc Hne. destruct (prepare_errors (bp_modifier_name (w_branch_props w)) w ctx Hc Hne) as [Hk Hf].
  unfold animate_branches_execute. rewrite (py_mbind_ok _ _ w _ w) by reflexivity.
  split; [intros Hn; exact (py_mbind_err _ _ _ _ _ (Hk Hn))|].
  intros obj Ho. unfold first_curve_point in Hf. destruct (ob_data obj) as [| sps |] eqn:Hd.
  - apply py_mbind_err, (Hf obj _ Ho). by rewrite Hd.
  - intros Hsp. apply py_mbind_err, (Hf obj IndexError Ho). rewrite Hd.
    destruct sps as [|sp sps]; [reflexivity|]. cbn. by rewrite (Hsp sp eq_refl).
  - apply py_mbind_err, (Hf obj _ Ho). by rewrite Hd.
Qed.

End NoBranch.

(** ** Proofs: the islands after prepare_ivy_object *)

Section Islands.
Context {R : Type}.

(** The names of the objects [find_ivy_branches n] lists, in order. *)
Definition island_names (n : string) (os : list (object R)) : list string :=
  ob_name <$> filter (fun o => py_str_contains n (ob_name o) = true) os.

(** What Animate Branches needs of the objects after the split: every
    object whose name contains [n] is a mesh with a Build modifier
    called [mn], their names are distinct, and [n] is one of them. *)
Definition islands_ready (n mn : string) (os : list (object R)) : Prop :=
  (forall o, o ∈ os -> py_str_contains n (ob_name o) = true ->
     is_mesh o = true /\ exists b, modifiers_get mn (ob_modifiers o) = Ok (BuildModifier b)) /\
  NoDup (island_names n os) /\ n ∈ island_names n os.

Lemma collect_ivy_meshes n (os : list (object R)) :
  (forall o, o ∈ os -> py_str_contains n (ob_name o) = true -> is_mesh o = true) ->
  exists ivy, collect_ivy n os = Ok ivy /\ ie_name <$> ivy = island_names n os.
Proof.
  unfold island_names. induction os as [|o os IH]; intros Hm; [by exists []|].
  cbn [collect_ivy]. rewrite filter_cons.
  destruct (IH ltac:(intros; apply Hm; set_solver)) as (ivy & Hc & Hn).
  destruct (py_str_contains n (ob_name o)) eqn:Ho.
  - rewrite decide_True by done. pose proof (Hm o ltac:(set_solver) Ho) as Hmo.
    unfold tessface_count. unfold is_mesh in Hmo. destruct (ob_data o); try done.
    rewrite Hc. eexists. split; [reflexivity|]. cbn. by rewrite Hn.
  - rewrite decide_False by done. by exists ivy.
Qed.

(** The face counts [find_ivy_branches n] lists add up to the faces of
    the objects whose name contains [n]. *)
Lemma collect_ivy_faces n (os : list (object R)) ivy :
  collect_ivy n os = Ok ivy ->
  foldr Z.add 0 (ie_facecount <$> ivy) =
  Z.of_nat (sum_list_with mesh_faces (filter (fun o => py_str_contains n (ob_name o) = true) os)).
Proof.
  revert ivy. induction os as [|o os IH]; intros ivy; cbn [collect_ivy]; [by intros [= <-]|].
  rewrite filter_cons. destruct (py_str_contains n (ob_name o)) eqn:Ho; cycle 1.
  { rewrite decide_False by done. apply IH. }
  rewrite decide_True by done. unfold tessface_count. destruct (ob_data o) eqn:Hd; [|discriminate..].
  destruct (collect_ivy n os) as [rest|] eqn:Hr; cbn; [|discriminate]. intros [= <-]. cbn.
  rewrite (IH rest eq_refl). replace (mesh_faces o) with (length (me_faces me)) by (unfold mesh_faces; by rewrite Hd). lia.
Qed.

(** The entry [find_ivy_branches] makes of a mesh object. *)
Definition ivy_entry_of (o : object R) : ivy_entry := IvyEntry (ob_name o) (Z.of_nat (mesh_faces o)).

(** C4. [find_ivy_branches n] lists, in the order of [bpy.data.objects],
    every object whose name contains [n] as a substring (line 212), with
    its number of faces, and changes nothing. So any object named after
    the ivy is listed, e.g. a leaves mesh "IvyLeaves" next to "Ivy". The
    first such object that is not a mesh makes [data.update] raise
    [AttributeError]. *)
Theorem find_ivy_branches_spec {G} n (w : world R G) :
  let matched := filter (fun o => py_str_contains n (ob_name o) = true) (w_objects w) in
  (Forall (fun o => is_mesh o = true) matched ->
   find_ivy_branches n w = (Ok (ivy_entry_of <$> matched), w)) /\
  (forall pre o post, matched = pre ++ o :: post -> Forall (fun o => is_mesh o = true) pre ->
   is_mesh o = false -> find_ivy_branches n w = (Err (AttributeError "update"), w)).
Proof.
  intros matched. unfold find_ivy_branches, matched. split.
  - intros Hm. f_equal. induction (w_objects w) as [|o os IH]; [done|]. cbn [collect_ivy].
    rewrite filter_cons in Hm |- *. destruct (py_str_contains n (ob_name o)) eqn:Ho; cycle 1.
    { rewrite decide_False in Hm |- * by done. by apply IH. }
    rewrite decide_True in Hm |- * by done. apply Forall_cons in Hm as [Hmo Hm].
    unfold tessface_count, is_mesh in *. destruct (ob_data o) as [me| |] eqn:Hd; [|discriminate..].
    cbn. rewrite (IH Hm). cbn. unfold ivy_entry_of, mesh_faces. by rewrite Hd.
  - intros pre o post Hsplit Hpre Ho. f_equal. revert pre Hsplit Hpre.
    induction (w_objects w) as [|o' os IH]; intros pre Hsplit Hpre; [by destruct pre|]. cbn [collect_ivy].
    rewrite filter_cons in Hsplit. destruct (py_str_contains n (ob_name o')) eqn:Ho'; cycle 1.
    { rewrite decide_False in Hsplit by done. exact (IH pre Hsplit Hpre). }
    rewrite decide_True in Hsplit by done. destruct pre as [|p pre]; cbn in Hsplit; injection Hsplit as <- Hsplit.
    + unfold tessface_count, is_mesh in *. by destruct (ob_data o').
    + apply Forall_cons in Hpre as [Hp Hpre]. unfold tessface_count, is_mesh in *.
      destruct (ob_data o'); [|discriminate..]. cbn. by rewrite (IH pre Hsplit Hpre).
Qed.




Lemma islands_timing_ready n mn (os : list (object R)) ivy :
  islands_ready n mn os -> ie_name <$> ivy = island_names n os -> timing_ready mn os ivy.
Proof.
  intros (Hr & _ & _) Hn. apply Forall_forall. intros e He.
  assert (Hin : ie_name e ∈ island_names n os) by (rewrite <- Hn; by apply list_elem_of_fmap_2).
  unfold island_names in Hin. apply list_elem_of_fmap in Hin as (o & Hoe & Ho).
  apply list_elem_of_filter in Ho as [Hc Ho].
  destruct (find_object_Some (ie_name e) os) as (o' & Hf & Ho' & Hn').
  { rewrite Hoe. by apply list_elem_of_fmap_2. }
  destruct (Hr o' Ho') as (_ & b & Hb); [by rewrite Hn', Hoe|].
  unfold build_of. rewrite Hf. cbn. by rewrite Hb.
Qed.

Lemma find_object_map_names (f : object R -> object R) n (os : list (object R)) :
  (forall o, ob_name (f o) = ob_name o) -> find_object n (map f os) = f <$> find_object n os.
Proof. intros Hf. induction os as [|o os IH]; [done|]. cbn. rewrite Hf. by case_decide. Qed.

Lemma names_map (f : object R -> object R) (os : list (object R)) :
  (forall o, ob_name (f o) = ob_name o) -> ob_name <$> map f os = ob_name <$> os.
Proof. intros Hf. induction os as [|o os IH]; [done|]. cbn. by rewrite Hf, IH. Qed.

Lemma island_names_alt n (os : list (object R)) :
  island_names n os = filter (fun x => py_str_contains n x = true) (ob_name <$> os).
Proof.
  unfold island_names. induction os as [|o os IH]; [done|]. cbn [fmap list_fmap].
  rewrite !filter_cons. case_decide; cbn; by rewrite IH.
Qed.

Lemma island_names_app n (os1 os2 : list (object R)) :
  island_names n (os1 ++ os2) = island_names n os1 ++ island_names n os2.
Proof. unfold island_names. by rewrite filter_app, fmap_app. Qed.

(** In a list of distinct names where [n] is the only one with [P], the
    filter keeps exactly [n]. *)
Lemma filter_unique (P : string -> Prop) `{!forall x, Decision (P x)} (l : list string) n :
  NoDup l -> n ∈ l -> P n -> (forall x, x ∈ l -> P x -> x = n) -> filter P l = [n].
Proof.
  induction l as [|x l IH]; [set_solver|]. intros Hnd Hn HP Honly.
  apply NoDup_cons in Hnd as [Hx Hnd]. rewrite filter_cons.
  destruct (decide (x = n)) as [->|Hxn].
  - rewrite decide_True by done. f_equal.
    assert (Hnone : forall y, y ∈ l -> ~ P y).
    { intros y Hy HPy. by pose proof (Honly y ltac:(set_solver) HPy) as ->. }
    clear -Hnone. induction l as [|y l IH]; [done|].
    rewrite filter_cons, decide_False by (apply Hnone; set_solver). apply IH. set_solver.
  - rewrite decide_False by (intros HPx; apply Hxn, Honly; set_solver).
    apply IH; [done | set_solver | done | intros; apply Honly; set_solver].
Qed.

End Islands.

Section Split.
Context {R : Type} `{Host R}.

(** [find_ivy_branches] lists the same names, up to order, for two
    orders of the same objects. *)
#[export] Instance island_names_perm n : Proper ((≡ₚ) ==> (≡ₚ)) (@island_names R n).
Proof. intros os1 os2 Hp. rewrite !island_names_alt. by rewrite Hp. Qed.

Lemma island_names_all n (os : list (object R)) :
  Forall (fun o => py_str_contains n (ob_name o) = true) os -> island_names n os = ob_name <$> os.
Proof.
  unfold island_names. induction 1 as [|o os Ho _ IH]; [done|].
  rewrite filter_cons, decide_True by done. cbn. by rewrite IH.
Qed.

Lemma filter_Forall_id (P : object R -> Prop) `{!forall o, Decision (P o)} (os : list (object R)) :
  Forall P os -> filter P os = os.
Proof. induction 1 as [|o os Ho _ IH]; [done|]. by rewrite filter_cons, decide_True, IH. Qed.

Section AfterSplit.
Variables (n mn : string) (os0 osG : list (object R)) (objG kept : object R) (news : list (object R)).
Hypothesis Hnames : ob_name <$> osG = ob_name <$> os0.
Hypothesis Huniq : NoDup (ob_name <$> os0).
Hypothesis Hn : n ∈ ob_name <$> os0.
Hypothesis Honly : forall x, x ∈ ob_name <$> os0 -> py_str_contains n x = true -> x = n.
Hypothesis HG : ob_name objG = n.
Hypothesis HGmesh : is_mesh objG = true.
Hypothesis HGbuild : exists b, modifiers_get mn (ob_modifiers objG) = Ok (BuildModifier b).
Hypothesis Hsep : host_separate_loose objG = (kept, news).

Definition osK : list (object R) :=
  map (fun o => if decide (ob_name o = ob_name objG) then kept else o) osG.

Lemma osK_names : ob_name <$> osK = ob_name <$> os0.
Proof.
  destruct (host_separate_parts _ _ _ Hsep) as (Hk & _). unfold osK. rewrite names_map; [done|].
  intros o. case_decide; congruence.
Qed.

Lemma split_island_names :
  island_names n (host_link_objects news osK) ≡ₚ (ob_name <$> news) ++ [n].
Proof.
  destruct (host_separate_parts _ _ _ Hsep) as (_ & _ & Hnews).
  rewrite host_link_perm, island_names_app, island_names_all.
  2: { eapply Forall_impl; [exact Hnews|]. intros o [Ho _]. by rewrite <- HG. }
  f_equiv. rewrite island_names_alt, osK_names, (filter_unique _ _ n); [done | done | done | |].
  - apply py_str_contains_refl.
  - intros x Hx Hc. exact (Honly x Hx Hc).
Qed.

(** After the split, every object named after the ivy is one of the
    parts: a mesh carrying the Build modifier, under a distinct name. *)
Lemma split_islands_ready : islands_ready n mn (host_link_objects news osK).
Proof.
  destruct (host_separate_parts _ _ _ Hsep) as (Hk & Hkm & Hnews).
  pose proof (host_separate_mesh _ _ _ Hsep HGmesh) as Hmesh.
  pose proof (host_separate_names _ _ _ Hsep) as Hnd. rewrite HG in Hnd.
  rewrite Forall_forall in Hnews, Hmesh. split; [|split].
  - intros o Ho Hc. rewrite host_link_perm in Ho. apply elem_of_app in Ho as [Ho|Ho].
    + destruct (Hnews o Ho) as [_ Hm]. split; [apply Hmesh; set_solver|]. by rewrite Hm.
    + unfold osK in Ho. apply list_elem_of_In, in_map_iff in Ho as (x & <- & Hx). case_decide as Hxn.
      * split; [apply Hmesh; set_solver|]. by rewrite Hkm.
      * exfalso. apply Hxn. rewrite HG. apply Honly; [|exact Hc].
        rewrite <- Hnames. apply list_elem_of_fmap_2. by apply list_elem_of_In.
  - rewrite split_island_names, (Permutation_app_comm _ [n]). exact Hnd.
  - rewrite split_island_names. set_solver.
Qed.

(** The objects themselves: those named after the ivy are the parts
    [separate] made and the part kept. *)
Lemma split_islands :
  filter (fun o => py_str_contains n (ob_name o) = true) (host_link_objects news osK) ≡ₚ news ++ [kept].
Proof.
  destruct (host_separate_parts _ _ _ Hsep) as (Hk & _ & Hnews).
  rewrite host_link_perm, filter_app, filter_Forall_id.
  2: { eapply Forall_impl; [exact Hnews|]. intros o [Ho _]. by rewrite <- HG. }
  f_equiv. assert (Hl : island_names n osK = [n]).
  { rewrite island_names_alt, osK_names, (filter_unique _ _ n); [done | done | done | |].
    - apply py_str_contains_refl.
    - intros x Hx Hc. exact (Honly x Hx Hc). }
  unfold island_names in Hl.
  destruct (filter _ osK) as [|o [|o' l]] eqn:Hf; [discriminate..| |discriminate]. injection Hl as Hon.
  assert (Ho : o ∈ osK) by (apply (list_elem_of_filter (fun o => py_str_contains n (ob_name o) = true)); rewrite Hf; set_solver).
  unfold osK in Ho. apply list_elem_of_In, in_map_iff in Ho as (x & Hx & _).
  case_decide as Hxn; [by subst|]. subst o. by rewrite HG in Hxn.
Qed.

End AfterSplit.
End Split.

Section PrepareRuns.
Context {R G : Type} `{Host R} `{Random G}.

Lemma context_object_runs (w : world R G) name o P :
  w_active w = Some name -> find_object name (w_objects w) = Some o -> P o w -> runs context_object w P.
Proof. intros Ha Ho HP. exists o, w. unfold context_object, objects_get. by rewrite Ha, Ho. Qed.

(** [update_object n f] on a list where [n] names [o]. *)
Lemma find_object_update n f (os : list (object R)) o :
  (forall o, ob_name (f o) = ob_name o) -> find_object n os = Some o ->
  find_object n (map (fun o => if decide (ob_name o = n) then f o else o) os) = Some (f o).
Proof. intros Hf Ho. rewrite find_object_map by exact Hf. by rewrite decide_True, Ho. Qed.

Lemma names_update n f (os : list (object R)) :
  (forall o, ob_name (f o) = ob_name o) ->
  ob_name <$> map (fun o => if decide (ob_name o = n) then f o else o) os = ob_name <$> os.
Proof. intros Hf. apply names_map. intros o. case_decide; [apply Hf | done]. Qed.

Variables (w : world R G) (ctx obj : object R) (n mn : string) (sps : list (spline R)) (p : vec4 R).
Hypothesis Hc : context_object w = (Ok ctx, w).
Hypothesis Hn : ob_BranchObject ctx = n.
Hypothesis Hne : n <> ""%string.
Hypothesis Hobj : find_object n (w_objects w) = Some obj.
Hypothesis Hcurve : ob_data obj = CurveData sps.
Hypothesis Hp : first_curve_point obj = Ok p.
Hypothesis Hmods : mn ∉ (ob_modifiers obj).*1.
Hypothesis Huniq : NoDup (ob_name <$> w_objects w).
Hypothesis Honly : forall x, x ∈ ob_name <$> w_objects w -> py_str_contains n x = true -> x = n.

(** The state between two steps of [prepare_ivy_object]: the ivy is
    active, the properties and the names are those of [w], and the
    object called [n] is [o]. *)
Definition stage (o : object R) (w' : world R G) : Prop :=
  w_active w' = Some n /\ w_branch_props w' = w_branch_props w /\
  ob_name <$> w_objects w' = ob_name <$> w_objects w /\ find_object n (w_objects w') = Some o.

Lemma stage_update f o (w' : world R G) :
  (forall o, ob_name (f o) = ob_name o) -> stage o w' ->
  stage (f o) (set_objects (map (fun o => if decide (ob_name o = n) then f o else o) (w_objects w')) w').
Proof.
  intros Hf (Ha & Hb & Hnm & Ho). split; [done|]. split; [done|]. cbn.
  rewrite names_update by done. split; [done|]. by apply find_object_update.
Qed.

Lemma stage_name o (w' : world R G) : stage o w' -> ob_name o = n.
Proof. intros (_ & _ & _ & Ho). exact (find_object_name _ _ _ Ho). Qed.

Lemma stage_context o (w' : world R G) P : stage o w' -> P o w' -> runs context_object w' P.
Proof. intros (Ha & _ & _ & Ho). by apply context_object_runs with n. Qed.

Lemma prepare_runs :
  runs (prepare_ivy_object mn) w (fun r w1 =>
    r = n /\ w_branch_props w1 = w_branch_props w /\ islands_ready n mn (w_objects w1) /\
    exists kept news, host_separate_loose (prepared_object mn (Vec3 (wx p) (wy p) (wz p)) obj) = (kept, news) /\
      filter (fun o => py_str_contains n (ob_name o) = true) (w_objects w1) ≡ₚ news ++ [kept]).
Proof.
  pose proof (find_object_name _ _ _ Hobj) as Hno.
  unfold prepare_ivy_object. runs_step. eapply runs_eq; [exact Hc|]. cbv beta iota zeta.
  rewrite Hn, decide_False by exact Hne.
  runs_step. eapply runs_eq; [exact (objects_get_found _ _ _ Hobj)|]. rewrite Hp.
  set (c := Vec3 (wx p) (wy p) (wz p)).
  set (objC := host_convert_to_mesh (with_select true obj)).
  unfold update_object, convert_selected. do 12 runs_step.
  eapply runs_at with (Q := fun w' => stage objC w' /\ w_cursor w' = c).
  { split; [|done]. split; [done|]. split; [done|]. cbn [w_objects set_mode set_objects set_active set_cursor].
    assert (Hconv : forall o, ob_name (if ob_select o then host_convert_to_mesh o else o) = ob_name o).
    { intros o. destruct (ob_select o); [apply host_convert_name | done]. }
    rewrite names_map, names_update by done. split; [done|].
    rewrite find_object_map_names, (find_object_update _ _ _ obj) by done. reflexivity. }
  intros w1 [H1 Hc1]. unfold sort_faces_active. runs_step. runs_step.
  eapply stage_context; [exact H1|]. rewrite (stage_name _ _ H1). runs_step. runs_step.
  rewrite Hc1. unfold add_build_modifier, update_object. runs_step. runs_step. runs_step.
  set (objT := host_sort_faces c objC).
  set (objM := with_modifiers (host_modifier_new mn (ob_modifiers objT)) objT).
  eapply runs_at with (Q := stage objM).
  { apply (stage_update (fun o => with_modifiers (host_modifier_new mn (ob_modifiers o)) o)); [done|].
    apply (stage_update (host_sort_faces c)); [apply host_sort_name | exact H1]. }
  intros w3 H3. unfold select_all_toggle, update_object. runs_step. runs_step.
  eapply stage_context; [exact H3|]. rewrite (stage_name _ _ H3). runs_step.
  set (tog := toggle_object).
  assert (Htog : forall o, ob_name (tog o) = ob_name o) by (intros o; unfold tog, toggle_object; by destruct (ob_data o)).
  eapply runs_at with (Q := stage (tog objM)); [by apply (stage_update tog)|].
  intros w4 H4. unfold separate_loose_active. runs_step. runs_step.
  eapply stage_context; [exact H4|]. cbv beta iota zeta.
  destruct (host_separate_loose (tog objM)) as [kept news] eqn:Hsep.
  do 4 runs_step. cbn [w_branch_props w_objects set_mode set_objects].
  destruct H4 as (_ & Hb4 & Hnm4 & Ho4). split; [done|]. split; [exact Hb4|].
  assert (HmT : is_mesh objT = true).
  { unfold objT. rewrite host_sort_mesh. by apply (host_convert_curve _ sps). }
  assert (HmodT : ob_modifiers objT = ob_modifiers obj).
  { unfold objT, objC. by rewrite host_sort_modifiers, host_convert_modifiers. }
  assert (HnIn : n ∈ ob_name <$> w_objects w).
  { rewrite <- Hno. apply list_elem_of_fmap_2. exact (find_object_in _ _ _ Hobj). }
  pose proof (find_object_name _ _ _ Ho4) as HG4.
  assert (HGm : is_mesh (tog objM) = true).
  { unfold tog, toggle_object, objM, is_mesh in *. cbn [ob_data with_modifiers].
    destruct (ob_data objT); [done | discriminate..]. }
  assert (HGb : exists b, modifiers_get mn (ob_modifiers (tog objM)) = Ok (BuildModifier b)).
  { assert (Hm : ob_modifiers (tog objM) = ob_modifiers objM) by (unfold tog, toggle_object; by destruct (ob_data objM)).
    rewrite Hm. unfold objM. cbn [ob_modifiers with_modifiers]. rewrite HmodT, host_modifier_new_fresh by done.
    eexists. by apply modifiers_get_fresh. }
  split; [|exists kept, news; split; [exact Hsep|]]; [eapply split_islands_ready | eapply split_islands]; eassumption.
Qed.

Hypothesis Hmn : bp_modifier_name (w_branch_props w) = mn.

(** C16. Animate Branches on an ivy curve whose name no other object's
    name contains, among objects with distinct names, and which has no
    modifier called [modifier_name] yet: [prepare_ivy_object] returns
    the name, and [find_ivy_branches] then lists exactly the objects
    named after it (the kept part and the parts [separate] made, under
    distinct names), the curve's own name among them. Whenever
    [find_biggest_branch] and the duration of each island compute,
    the operator returns [{'FINISHED'}], having given the island at
    position [k] the start frame [frame_start] for [k = 0] and
    [frame_start + delay_branches + k * delay_branches] otherwise, and
    its proportional duration, both clamped. *)
Theorem animate_branches_execute_spec :
  exists w1 ivy,
    prepare_ivy_object mn w = (Ok n, w1) /\ collect_ivy n (w_objects w1) = Ok ivy /\
    ie_name <$> ivy = island_names n (w_objects w1) /\ NoDup (ie_name <$> ivy) /\ n ∈ ie_name <$> ivy /\
    forall b most base (dur : ivy_entry -> Z),
      find_biggest_branch ivy (bp_faces_per_frame (w_branch_props w)) = Ok (b, most, base) ->
      (forall e, e ∈ ivy -> timing_duration (ie_facecount e) most base = Ok (dur e)) ->
      exists os', animate_branches_execute w = (Ok FINISHED, set_objects os' w1) /\
        forall k e, ivy !! k = Some e ->
          build_of os' (ie_name e) mn =
          Some (BuildMod (clamp host_frame_min host_frame_max
                  (if decide (k = 0%nat) then bp_frame_start (w_branch_props w)
                   else bp_frame_start (w_branch_props w) + bp_delay_branches (w_branch_props w) +
                        Z.of_nat k * bp_delay_branches (w_branch_props w)))
                (clamp host_duration_min host_frame_max (dur e))).
Proof.
  destruct prepare_runs as (r & w1 & Hrun & -> & Hb1 & Hready & _).
  destruct (collect_ivy_meshes n (w_objects w1)) as (ivy & Hcol & Hnames).
  { intros o Ho Hc'. apply (proj1 Hready o Ho Hc'). }
  destruct Hready as (Hr & Hnd & Hin).
  exists w1, ivy. do 2 (split; [done|]). split; [exact Hnames|]. rewrite Hnames. do 2 (split; [done|]).
  intros b most base dur Hfb Hd.
  assert (Hready : islands_ready n mn (w_objects w1)) by done.
  destruct (timing_loop_spec mn (bp_frame_start (w_branch_props w)) (bp_delay_branches (w_branch_props w))
              (bp_delay_branches (w_branch_props w)) most base dur ivy 0 w1)
    as (os' & Hloop & Hbuild & _); [by rewrite Hnames | exact (islands_timing_ready _ _ _ _ Hready Hnames) | exact Hd |].
  exists os'. split.
  - unfold animate_branches_execute. rewrite (py_mbind_ok _ _ w mn w) by (unfold py_gets; by rewrite Hmn).
    rewrite (py_mbind_ok _ _ _ _ _ Hrun), decide_False by exact Hne.
    rewrite (py_mbind_ok _ _ w1 ivy w1) by (unfold find_ivy_branches; by rewrite Hcol).
    rewrite (py_mbind_ok _ _ w1 (bp_faces_per_frame (w_branch_props w)) w1) by (unfold py_gets; by rewrite Hb1).
    rewrite (py_mbind_ok _ _ w1 (b, most, base) w1) by (cbn; by rewrite Hfb). cbv beta iota.
    rewrite (py_mbind_ok _ _ w1 (bp_frame_start (w_branch_props w)) w1) by (unfold py_gets; by rewrite Hb1).
    rewrite (py_mbind_ok _ _ w1 (bp_delay_branches (w_branch_props w)) w1) by (unfold py_gets; by rewrite Hb1).
    rewrite (py_mbind_ok _ _ w1 tt (set_objects os' w1)); [reflexivity|].
    unfold set_build_timing. rewrite (py_mbind_ok _ _ w1 mn w1) by (unfold py_gets; by rewrite Hb1, Hmn). exact Hloop.
  - intros k e Hk. rewrite (Hbuild k e Hk). unfold timing_start. by destruct k.
Qed.

End PrepareRuns.

(** ** Invariants through the timing loop *)

(** The timing loop keeps any invariant that survives writing a Build
    field. *)
Section TimingInvariant.
Context {R G : Type} `{Host R} `{Random G}.
Variable J : world R G -> Prop.
Hypothesis HJ : forall name mn upd,
  preserves J (update_object name (fun o => with_modifiers (map_modifier mn upd (ob_modifiers o)) o))
            (fun _ => True).

Lemma preserves_find_ivy_branches n : preserves J (find_ivy_branches n) (fun _ => True).
Proof. intros w Hw. by split. Qed.

Lemma preserves_set_build_field name mn upd : preserves J (set_build_field name mn upd) (fun _ => True).
Proof. unfold set_build_field. preserves_solve. Qed.

Lemma preserves_timing_loop mn a b c d e count ivy :
  preserves J (timing_loop mn a b c d e count ivy) (fun _ => True).
Proof.
  revert count. induction ivy as [|obj ivy IH]; intros count; cbn [timing_loop];
    preserves_solve; apply preserves_set_build_field.
Qed.

End TimingInvariant.


#[export] Hint Resolve preserves_find_ivy_branches : preserves.

(** ** Proofs: the active object after the operator

    [prepare_ivy_object] makes the ivy the active object (line 184), and
    nothing after it changes the active object. *)

Section BranchesActive.
Context {R G : Type} `{Host R} `{Random G}.

Lemma prepare_ivy_object_active mn (w w1 : world R G) n ctx :
  context_object w = (Ok ctx, w) -> prepare_ivy_object mn w = (Ok n, w1) ->
  n = ob_BranchObject ctx /\ (n = ""%string \/ w_active w1 = Some n).
Proof.
  intros Hc Hp. unfold prepare_ivy_object in Hp. rewrite (py_mbind_ok _ _ _ _ _ Hc) in Hp.
  case_decide as He; [injection Hp as <- _; split; [done | by left]|].
  apply py_mbind_ok_inv in Hp as (o & w2 & _ & Hp).
  apply py_mbind_ok_inv in Hp as (pt & w3 & _ & Hp).
  apply py_mbind_ok_inv in Hp as ([] & w4 & _ & Hp).
  apply py_mbind_ok_inv in Hp as ([] & w5 & _ & Hp).
  apply py_mbind_ok_inv in Hp as ([] & w6 & Hact & Hp). injection Hact as <-.
  eapply (preserves_ok (active_is (Some (ob_BranchObject ctx))) _ (fun b => b = ob_BranchObject ctx)) in Hp
    as [Ha ->]; [split; [done | by right] | | reflexivity].
  unfold convert_selected, sort_faces_active, add_build_modifier, select_all_toggle, separate_loose_active.
  preserves_solve.
Qed.

Lemma animate_branches_active (w w' : world R G) ctx :
  context_object w = (Ok ctx, w) -> animate_branches_execute w = (Ok FINISHED, w') ->
  w_active w' = Some (ob_BranchObject ctx).
Proof.
  intros Hc He. unfold animate_branches_execute in He.
  apply py_mbind_ok_inv in He as (mn & w0 & Hg & He). injection Hg as <- <-.
  apply py_mbind_ok_inv in He as (n & w1 & Hp & He).
  destruct (prepare_ivy_object_active _ _ _ _ _ Hc Hp) as [-> Hact].
  case_decide as Hn; [discriminate|]. destruct Hact as [Hn' | Ha]; [done|].
  eapply (preserves_ok (active_is (Some (ob_BranchObject ctx))) _ (fun _ => True)) in He
    as [Ha' _]; [exact Ha' | | exact Ha].
  unfold set_build_timing. preserves_solve.
  apply preserves_timing_loop. intros. apply preserves_update_object_active.
Qed.

End BranchesActive.

(** ** End to end on the reference host: the islands share the faces

    On [ref_host] every face the conversion of the ivy curve makes ends
    up in exactly one island of [find_ivy_branches]: sorting, the Build
    modifier and the selection toggle keep the faces, and [separate]
    hands each face to one part. *)

Section RefIslands.

Lemma wf_mesh_toggle_select {R} (me : mesh R) : wf_mesh me -> wf_mesh (toggle_select me).
Proof. intros (Hv & Hf & Hk). split; [|split]; cbn; rewrite ?length_map; done. Qed.

(** The object [separate] splits, on the reference host, is the curve's
    mesh with its faces reordered. *)
Lemma ref_prepared_mesh mn c (obj : object Z) sps :
  ob_data obj = CurveData sps ->
  exists me, ob_data (prepared_object mn c obj) = MeshData me /\ wf_mesh me /\ me_faces me ≡ₚ curve_faces 0 sps.
Proof.
  intros Hd. unfold prepared_object, toggle_object. cbn [host_convert_to_mesh host_sort_faces ref_host].
  unfold ref_convert. cbn [ob_data with_select]. rewrite Hd. unfold ref_sort. cbn [ob_data with_data with_modifiers].
  eexists. split; [reflexivity|]. split.
  - apply wf_mesh_toggle_select, CursorSort.sort_faces_wf.
    apply (ref_convert_wf (mk_object "" (CurveData sps) [])). done.
  - cbn [me_faces toggle_select]. by rewrite CursorSort.sort_faces_perm.
Qed.

Variables (w : world Z Z) (ctx obj : object Z) (n mn : string) (sps : list (spline Z)) (p : vec4 Z).
Hypothesis Hc : context_object w = (Ok ctx, w).
Hypothesis Hn : ob_BranchObject ctx = n.
Hypothesis Hne : n <> ""%string.
Hypothesis Hobj : find_object n (w_objects w) = Some obj.
Hypothesis Hcurve : ob_data obj = CurveData sps.
Hypothesis Hp : first_curve_point obj = Ok p.
Hypothesis Hmods : mn ∉ (ob_modifiers obj).*1.
Hypothesis Huniq : NoDup (ob_name <$> w_objects w).
Hypothesis Honly : forall x, x ∈ ob_name <$> w_objects w -> py_str_contains n x = true -> x = n.

(** C27. On the reference host, under the hypotheses of C16, the face
    counts [find_ivy_branches] lists after [prepare_ivy_object] add up
    to the face count of the converted curve: no face of the ivy is
    lost or counted twice on the way through sorting, the Build
    modifier, the selection toggle and the split into islands. *)
Theorem prepare_islands_faces :
  exists w1 ivy, prepare_ivy_object mn w = (Ok n, w1) /\ collect_ivy n (w_objects w1) = Ok ivy /\
    tessface_count (ref_convert obj) = Ok (foldr Z.add 0 (ie_facecount <$> ivy)).
Proof.
  edestruct (prepare_runs w) as (r & w1 & Hrun & -> & _ & Hready & kept & news & Hsep & Hfilt); try eassumption.
  destruct (collect_ivy_meshes n (w_objects w1)) as (ivy & Hcol & _); [apply Hready|].
  exists w1, ivy. do 2 (split; [done|]).
  rewrite (collect_ivy_faces _ _ _ Hcol), Hfilt.
  destruct (ref_prepared_mesh mn (Vec3 (wx p) (wy p) (wz p)) obj sps Hcurve) as (me & Hd & Hwf & Hperm).
  rewrite (ref_separate_faces _ _ _ _ Hd Hwf ltac:(rewrite Hperm; apply curve_faces_nonempty) Hsep), Hperm.
  unfold tessface_count, ref_convert. by rewrite Hcurve.
Qed.

End RefIslands.

(** ** Concrete runs on the reference host *)

Definition faces (n : nat) : obj_data Z := MeshData (Mesh [] [] (repeat [] n) [] 0).
Definition grow (s d : Z) : list (string * modifier) := [("GROW"%string, BuildModifier (BuildMod s d))].

(** Three islands with 1, 2 and 3 faces. *)
Definition ivy3 : list ivy_entry := [IvyEntry "A" 1; IvyEntry "B" 2; IvyEntry "C" 3].
Definition world3 : world Z Z :=
  mk_world [mk_object "A" (faces 1) (grow 1 100); mk_object "B" (faces 2) (grow 1 100);
            mk_object "C" (faces 3) (grow 1 100)] None.
Definition dur3 (e : ivy_entry) : Z :=
  match timing_duration (ie_facecount e) 3 3 with Ok d => d | Err _ => 0 end.

(** Witness of [set_build_timing_spec]: on three timed islands the
    second one starts at [1 + 4 + 1 * 4 = 9] and lasts [2] frames. *)
Lemma set_build_timing_spec_witness :
  exists os', set_build_timing ivy3 1 4 4 3 3 world3 = (Ok tt, set_objects os' world3) /\
              build_of os' "B" "GROW" = Some (BuildMod 9 2).
Proof.
  destruct (set_build_timing_spec ivy3 1 4 4 3 3 dur3 world3) as (os' & Hrun & Hin & _).
  - apply (bool_decide_unpack _). vm_compute. reflexivity.
  - repeat constructor; vm_compute; eexists; reflexivity.
  - apply Forall_forall. repeat constructor.
  - exists os'. split; [exact Hrun|].
    pose proof (Hin 1%nat (IvyEntry "B" 2) eq_refl) as HB. vm_compute in HB |- *. exact HB.
Defined.

(** Witness of [timing_zero_division]: a single island with no face. *)
Lemma timing_zero_division_witness :
  timing_loop "GROW" 1 4 4 0 0 0 [IvyEntry "A" 0] (mk_world [mk_object "A" (faces 0) (grow 5 100)] None) =
  (Err ZeroDivisionError,
   set_objects (update_build "A" "GROW" (set_frame_start 1) [mk_object "A" (faces 0) (grow 5 100)])
               (mk_world [mk_object "A" (faces 0) (grow 5 100)] None)).
Proof.
  exact (timing_zero_division "GROW" 1 4 4 0 (IvyEntry "A" 0) []
           (mk_world [mk_object "A" (faces 0) (grow 5 100)] None) (BuildMod 5 100) eq_refl).
Defined.

(** Witness of [timing_missing_modifier]: the islands of "Ivy" are
    timed, then the leaves object "IvyLeaves", which has no "GROW"
    modifier, raises [KeyError]. *)
Definition world_clash : world Z Z :=
  mk_world [mk_object "Ivy" (faces 3) (grow 1 100); mk_object "IvyLeaves" (faces 1) []] None.

(** Witness of [find_ivy_branches_spec]: the leaves mesh "IvyLeaves"
    is listed as an island of "Ivy". *)
Lemma find_ivy_branches_spec_witness :
  find_ivy_branches "Ivy" world_clash = (Ok [IvyEntry "Ivy" 3; IvyEntry "IvyLeaves" 1], world_clash).
Proof. exact (proj1 (find_ivy_branches_spec "Ivy" world_clash) ltac:(repeat constructor)). Defined.

Lemma timing_missing_modifier_witness :
  exists os',
    timing_loop "GROW" 1 4 4 3 3 0 [IvyEntry "Ivy" 3; IvyEntry "IvyLeaves" 1] world_clash =
    (Err (KeyError "GROW"), set_objects os' world_clash) /\
    build_of os' "Ivy" "GROW" = Some (BuildMod 1 3).
Proof.
  destruct (timing_missing_modifier "GROW" 1 4 4 3 3 dur3 [IvyEntry "Ivy" 3] (IvyEntry "IvyLeaves" 1) []
              world_clash (mk_object "IvyLeaves" (faces 1) [])) as (os' & Hrun & Hin).
  - apply (bool_decide_unpack _). vm_compute. reflexivity.
  - repeat constructor; vm_compute; eexists; reflexivity.
  - apply Forall_forall. repeat constructor.
  - apply (bool_decide_unpack _). vm_compute. reflexivity.
  - reflexivity.
  - reflexivity.
  - exists os'. split; [exact Hrun|].
    pose proof (Hin 0%nat (IvyEntry "Ivy" 3) eq_refl) as HB. vm_compute in HB |- *. exact HB.
Defined.

(** Witness of [animate_branches_no_object]. *)
Lemma animate_branches_no_object_witness :
  animate_branches_execute (mk_world [mk_object "Ctrl" OtherData []] (Some "Ctrl")) =
  (Ok RETURNED_NONE, mk_world [mk_object "Ctrl" OtherData []] (Some "Ctrl")).
Proof. apply (animate_branches_no_object _ (mk_object "Ctrl" OtherData [])); reflexivity. Defined.


(** A scene with an ivy curve "Ivy" of three splines and a leaves mesh "IvyLeaves". *)
Definition pt (x : Z) : vec4 Z := Vec4 x 0 0 1.
Definition ivy_curve : obj_data Z :=
  CurveData [Spline [pt 0; pt 1; pt 2; pt 3]; Spline [pt 10; pt 11]; Spline [pt 20; pt 21; pt 22]].
Definition leaves_mesh : obj_data Z :=
  MeshData (Mesh [Vec3 0 0 0; Vec3 1 0 0; Vec3 0 1 0] [false; false; false] [[0; 1; 2]%nat] [] 0).
Definition scene_ivy_leaves : world Z Z :=
  mk_world [Object "Ctrl" OtherData id_mat [] false "Ivy" "IvyLeaves";
            mk_object "Ivy" ivy_curve []; mk_object "IvyLeaves" leaves_mesh []] (Some "Ctrl").

(** The ivy curve alone, next to the control object that names it. *)
Definition ctrl : object Z := Object "Ctrl" OtherData id_mat [] false "Ivy" "".
Definition scene_ivy : world Z Z := mk_world [ctrl; mk_object "Ivy" ivy_curve []] (Some "Ctrl").

Lemma animate_branches_execute_spec_witness :
  exists w1 ivy,
    prepare_ivy_object "GROW" scene_ivy = (Ok "Ivy"%string, w1) /\ collect_ivy "Ivy" (w_objects w1) = Ok ivy /\
    ie_name <$> ivy = island_names "Ivy" (w_objects w1) /\ NoDup (ie_name <$> ivy) /\ "Ivy"%string ∈ ie_name <$> ivy /\
    forall b most base (dur : ivy_entry -> Z),
      find_biggest_branch ivy (bp_faces_per_frame (w_branch_props scene_ivy)) = Ok (b, most, base) ->
      (forall e, e ∈ ivy -> timing_duration (ie_facecount e) most base = Ok (dur e)) ->
      exists os', animate_branches_execute scene_ivy = (Ok FINISHED, set_objects os' w1) /\
        forall k e, ivy !! k = Some e ->
          build_of os' (ie_name e) "GROW" =
          Some (BuildMod (clamp host_frame_min host_frame_max
                  (if decide (k = 0%nat) then bp_frame_start (w_branch_props scene_ivy)
                   else bp_frame_start (w_branch_props scene_ivy) + bp_delay_branches (w_branch_props scene_ivy) +
                        Z.of_nat k * bp_delay_branches (w_branch_props scene_ivy)))
                (clamp host_duration_min host_frame_max (dur e))).
Proof.
  eapply (animate_branches_execute_spec scene_ivy ctrl (mk_object "Ivy" ivy_curve []) "Ivy" "GROW");
    try reflexivity.
  - discriminate.
  - apply not_elem_of_nil.
  - cbn. repeat constructor; set_solver.
  - by_elements (intros Hx'; vm_compute in Hx'; first [reflexivity | discriminate]).
Defined.

(** Witness of [prepare_islands_faces]: the six faces of the converted
    ivy curve are shared out between its islands. *)
Lemma prepare_islands_faces_witness :
  exists w1 ivy,
    prepare_ivy_object "GROW" scene_ivy = (Ok "Ivy"%string, w1) /\ collect_ivy "Ivy" (w_objects w1) = Ok ivy /\
    tessface_count (ref_convert (mk_object "Ivy" ivy_curve [])) = Ok (foldr Z.add 0 (ie_facecount <$> ivy)).
Proof.
  eapply (prepare_islands_faces scene_ivy ctrl (mk_object "Ivy" ivy_curve []) "Ivy" "GROW");
    try reflexivity.
  - discriminate.
  - apply not_elem_of_nil.
  - cbn. repeat constructor; set_solver.
  - by_elements (intros Hx'; vm_compute in Hx'; first [reflexivity | discriminate]).
Defined.


(** The ivy already converted to a mesh, as a first run of Animate
    Branches leaves it. *)
Definition scene_converted : world Z Z := mk_world [ctrl; mk_object "Ivy" (faces 3) (grow 1 100)] (Some "Ctrl").

(** Witness of [animate_branches_execute_errors]: a second run raises at
    [obj.data.splines]. *)
Lemma animate_branches_execute_errors_witness :
  animate_branches_execute scene_converted = (Err (AttributeError "splines"), scene_converted).
Proof.
  exact (proj2 (animate_branches_execute_errors scene_converted ctrl eq_refl ltac:(discriminate))
               (mk_object "Ivy" (faces 3) (grow 1 100)) eq_refl).
Defined.
