(* ===== verification/Durations.v ===== *)
(** * The float duration of [set_build_timing], checked exhaustively

    Line 255 computes [int((facecount / most_faces) * base_build_length)]
    in binary64. The exact proportional duration is
    [facecount * base_build_length / most_faces], rounded down. Two
    roundings happen before the truncation, so the float result can fall
    just below an integer the exact value reaches: the duration is then
    one frame short ([int((1 / 49) * 49) = int(0.9999999999999999) = 0]
    where the proportion is 1). This file shows that this is the only deviation, for
    every island of a branch with at most [max_faces] faces.

    [base_build_length] is [int(most_faces / faces_per_frame)], at most
    [most_faces] when [faces_per_frame >= 1], and [facecount] is at most
    [most_faces]; the check ranges over exactly these triples. It is a
    decision procedure ([dur_ok], [durations_ok]) evaluated once by
    [vm_compute], and [durations_ok_spec] turns its result into the
    statement over integers. *)

From stdpp Require Import base list.
From Stdlib Require Import ZArith Lia.
From S2P Require Import Prelude PyFloat Branches.

Local Open Scope Z_scope.

(** The largest face count the check covers. *)
Definition max_faces : Z := 24.

(** [int((f / m) * b)] is [f * b / m], or one less when [m] divides
    [f * b]. *)
Definition dur_ok (f m b : Z) : bool :=
  match timing_duration f m b with
  | Ok d => Z.eqb d (f * b / m) || (Z.eqb d (f * b / m - 1) && Z.eqb ((f * b) mod m) 0)
  | Err _ => false
  end.

Definition zrange (lo hi : Z) : list Z := Z.of_nat <$> seq (Z.to_nat lo) (S (Z.to_nat (hi - lo))).

Definition durations_ok (n : Z) : bool :=
  forallb (fun m => forallb (fun f => forallb (fun b => dur_ok f m b) (zrange 0 m)) (zrange 0 m))
          (zrange 1 n).

Lemma zrange_spec lo hi x : 0 <= lo -> lo <= x <= hi -> x ∈ zrange lo hi.
Proof.
  intros Hlo Hx. unfold zrange. apply list_elem_of_fmap. exists (Z.to_nat x).
  split; [lia|]. apply elem_of_seq. lia.
Qed.

Lemma durations_ok_spec n m f b :
  durations_ok n = true -> 1 <= m <= n -> 0 <= f <= m -> 0 <= b <= m -> dur_ok f m b = true.
Proof.
  unfold durations_ok. rewrite !forallb_forall. intros Hall Hm Hf Hb.
  assert (Hin : forall x lo hi, 0 <= lo -> lo <= x <= hi -> In x (zrange lo hi)).
  { intros x lo hi ? ?. apply list_elem_of_In. by apply zrange_spec. }
  specialize (Hall m (Hin m 1 n ltac:(lia) Hm)). rewrite forallb_forall in Hall.
  specialize (Hall f (Hin f 0 m ltac:(lia) Hf)). rewrite forallb_forall in Hall.
  exact (Hall b (Hin b 0 m ltac:(lia) Hb)).
Qed.

Lemma durations_ok_max : durations_ok max_faces = true.
Proof. vm_compute. reflexivity. Qed.

(** C17. For a largest face count [most_faces] between 1 and
    [max_faces], every [facecount] and [base_build_length] between 0 and
    [most_faces]: the duration of line 255 is computed (no error) and it
    is [facecount * base_build_length / most_faces] rounded down, or one
    frame less, and then only when the exact value is a whole number. *)
Theorem duration_float_bounds f m b :
  1 <= m <= max_faces -> 0 <= f <= m -> 0 <= b <= m ->
  exists d, timing_duration f m b = Ok d /\
    (d = f * b / m \/ (d = f * b / m - 1 /\ (f * b) mod m = 0)).
Proof.
  intros Hm Hf Hb. pose proof (durations_ok_spec _ _ _ _ durations_ok_max Hm Hf Hb) as Hok.
  unfold dur_ok in Hok. destruct (timing_duration f m b) as [d|e]; [|done].
  exists d. split; [done|].
  apply orb_true_iff in Hok as [Hd | [Hd Hmod]%andb_true_iff]; apply Z.eqb_eq in Hd; [by left|].
  apply Z.eqb_eq in Hmod. by right.
Qed.

(** Thirteen faces out of 23, with a base length of 23 frames: the
    float computation gives 12 frames where the exact proportion is 13. *)
Lemma duration_float_bounds_witness :
  (1 <= 23 <= max_faces /\ 0 <= 13 <= 23 /\ 0 <= 23 <= 23) /\
  timing_duration 13 23 23 = Ok 12 /\
  exists d, timing_duration 13 23 23 = Ok d /\
    (d = 13 * 23 / 23 \/ (d = 13 * 23 / 23 - 1 /\ (13 * 23) mod 23 = 0)).
Proof.
  split; [vm_compute; repeat split; discriminate|]. split; [vm_compute; reflexivity|].
  apply duration_float_bounds; vm_compute; repeat split; discriminate.
Defined.
