(* ===== verification/Leaves.v ===== *)
(** * [LeavesAnimProperties] and the Animate Leaves operator

    Lines 128-149 and 282-437 of [src/ivy_growth_animator_addon.py].
    [find_nearest_face_on_mesh] measures the distance (sum of absolute
    coordinate differences) from a point to the centres of a mesh's
    faces, sorts the distances and returns the first one.
    [find_nearest_branch] keeps the first island whose distance is
    strictly smallest. [create_shapekey] adds a shape key collapsing one
    leaf and keys its value at three frames. [animate_leaves] does this
    for every face of the leaves mesh, using the Build timing of the
    leaf's nearest island. Coordinates are of any [Scalar] type.

    The proofs go from the search to the whole operator:
    [find_nearest_branch] against a reference ([first_nearest]), its
    indifference to the islands' translations, the run of
    [create_shapekey] (symbolic execution with [runs_step] and
    checkpoints), the loop of [animate_leaves] by the invariant
    [leaves_inv], and the error paths of [execute]. [keeps] and
    [same_shape] describe what a run leaves unchanged. The error paths
    are values of the state monad: [select_face_vertices] keeps the
    flags it wrote before raising, [create_shapekey] with an empty growth
    range leaves a half-keyed leaf (C13), and a leaves object that is not
    a mesh fails after being selected and made active (C18). *)

From stdpp Require Import base list strings decidable sets.
From Stdlib Require Import ZArith Lia Sorted.
From S2P Require Import Prelude PyFloat Scene RefHost Branches.

Local Open Scope Z_scope.

(** ** Geometry (mathutils) *)

Section Geometry.
Context {R : Type} `{Scalar R}.

Definition vzero : vec3 R := Vec3 s_zero s_zero s_zero.

Definition vadd (a b : vec3 R) : vec3 R :=
  Vec3 (s_add (vx a) (vx b)) (s_add (vy a) (vy b)) (s_add (vz a) (vz b)).

(** [face.center] of a tessface: the mean of its vertices. *)
Definition face_center (me : mesh R) (f : list nat) : vec3 R :=
  let s := fold_left vadd ((fun i => default vzero (me_verts me !! i)) <$> f) vzero in
  Vec3 (s_div_nat (vx s) (length f)) (s_div_nat (vy s) (length f)) (s_div_nat (vz s) (length f)).

(** [v * m] for a 3D vector and a 4x4 matrix in mathutils (Blender
    2.62 and later): [v] is a row vector extended with [w = 1], so
    component [j] is [sum_i v[i] * m[i][j] + m[3][j]]. *)
Definition vec_mul_mat (v : vec3 R) (m : mat4 R) : vec3 R :=
  let col (c : vec4 R -> R) :=
    s_add (s_add (s_add (s_mul (vx v) (c (row0 m))) (s_mul (vy v) (c (row1 m))))
                 (s_mul (vz v) (c (row2 m)))) (c (row3 m)) in
  Vec3 (col wx) (col wy) (col wz).

(** [abs(pt1.x - pt2.x) + abs(pt1.y - pt2.y) + abs(pt1.z - pt2.z)] *)
Definition manhattan (p q : vec3 R) : R :=
  s_add (s_add (s_abs (s_sub (vx p) (vx q))) (s_abs (s_sub (vy p) (vy q))))
        (s_abs (s_sub (vz p) (vz q))).

End Geometry.

(** ** find_nearest_face_on_mesh (lines 284-303) and
       find_nearest_branch (lines 305-329) *)

Section Nearest.
Context {R : Type} `{Scalar R}.

(** The list [distances] built by lines 293-299. *)
Definition face_distances (o : object R) (coordinates : vec3 R) : result (list R) :=
  me ← as_mesh o;
  Ok ((fun f => manhattan (vec_mul_mat (face_center me f) (ob_matrix_world o)) coordinates)
        <$> me_faces me).

Definition find_nearest_face_on_mesh (o : object R) (coordinates : vec3 R) : result R :=
  distances ← face_distances o coordinates;
  py_index (py_sort s_ltb distances) 0.

(** [bpy.data.objects[branch["name"]]] followed by the distance. *)
Definition branch_distance (os : list (object R)) (glob_co : vec3 R) (branch : ivy_entry) : result R :=
  match find_object (ie_name branch) os with
  | Some o => find_nearest_face_on_mesh o glob_co
  | None => Err (KeyError (ie_name branch))
  end.

(** The loop of lines 321-327. *)
Fixpoint nearest_loop (os : list (object R)) (glob_co : vec3 R) (closest : ivy_entry)
    (minimum_distance : R) (l : list ivy_entry) : result ivy_entry :=
  match l with
  | [] => Ok closest
  | branch :: l' =>
      distance ← branch_distance os glob_co branch;
      if s_ltb distance minimum_distance
      then nearest_loop os glob_co branch distance l'
      else nearest_loop os glob_co closest minimum_distance l'
  end.

Definition find_nearest_branch (os : list (object R)) (ivy_objects : list ivy_entry)
    (glob_co : vec3 R) : result ivy_entry :=
  closest_object ← py_index ivy_objects 0;
  minimum_distance ← branch_distance os glob_co closest_object;
  nearest_loop os glob_co closest_object minimum_distance ivy_objects.

End Nearest.

(** ** create_shapekey (lines 331-387) *)

Section ShapeKeys.
Context {R G : Type} `{Scalar R} `{Host R} `{Random G}.

Abbreviation M := (PyM (world R G)).

(** The mesh of the active object. *)
Definition active_mesh : M (string * mesh R) :=
  o ← context_object;
  me ← py_lift (as_mesh o);
  py_ret (ob_name o, me).

(** [bpy.ops.object.shape_key_add(from_mix=False)] on the active
    object. Blender adds a key to a mesh, and also to a curve, whose keys
    the model does not keep: the add-on never reads them, a curve failing
    at the next [data.update] (line 402). An object without data fails
    the operator's poll, and [bpy.ops] raises [RuntimeError]. *)
Definition shape_key_add : M unit :=
  o ← context_object;
  match ob_data o with
  | MeshData _ => update_mesh (ob_name o) host_shape_key_add
  | CurveData _ => py_ret tt
  | OtherData => py_raise RuntimeError
  end.

(** [current_shape_key.value = v] then [current_shape_key.keyframe_insert('value')] *)
Definition key_value_at (idx : nat) (v : Z) : M unit :=
  '(name, _) ← active_mesh;
  frame ← py_gets w_frame;
  update_mesh name (alter_key idx (fun k => insert_value_key frame (set_value v k))).

(** [bpy.context.scene.frame_set(f)]: the frame is clamped to
    [[MINAFRAME, MAXFRAME]]. *)
Definition frame_set (f : Z) : M unit :=
  py_modify (set_frame (clamp host_frame_min host_frame_max f)).

(** [for i in range(idxmin, length): vertices[vert_index].select = True]
    (lines 356-360): each flag is written at once, so at a corner out of
    range [IndexError] is raised with the flags of the corners before it
    already set. The mesh reached and the outcome. *)
Fixpoint select_face_vertices (f : list nat) (me : mesh R) : mesh R * result unit :=
  match f with
  | [] => (me, Ok tt)
  | vi :: f' =>
      if decide (vi < length (me_vsel me))%nat
      then select_face_vertices f' (with_vsel (<[vi := true]> (me_vsel me)) me)
      else (me, Err IndexError)
  end.

(** Lines 341-381: the leaf's key is added and made active, the leaf
    collapsed, and its value keyed at the Build start frame and at the
    growth start; the key's index and the growth start frame are
    returned for the last keyframe. *)
Definition leaf_key_start (leaf_idx : nat) (start duration : Z) : M (nat * Z) :=
  _ ← shape_key_add;
  '(name, me) ← active_mesh;
  let latest_shape_key_index := (length (me_keys me) - 1)%nat in
  _ ← update_mesh name (with_active_key latest_shape_key_index);
  _ ← py_modify (set_mode EDIT_MODE);
  _ ← update_mesh name (fun me => with_vsel ((fun _ => false) <$> me_vsel me) me);
  _ ← py_modify (set_mode OBJECT_MODE);
  '(_, me) ← active_mesh;
  face ← py_lift (py_index (me_faces me) leaf_idx);
  let '(me', r) := select_face_vertices face me in
  _ ← update_mesh name (fun _ => me');
  _ ← py_lift r;
  _ ← py_modify (set_mode EDIT_MODE);
  _ ← update_mesh name host_resize_zero;
  _ ← py_modify (set_mode OBJECT_MODE);
  build_start_frame ← py_gets (fun w => bp_frame_start (w_branch_props w));
  _ ← frame_set build_start_frame;
  _ ← key_value_at latest_shape_key_index 1;
  delay_after_branch ← py_gets (fun w => lp_delay_after_branch (w_leaves_props w));
  r1 ← randint 0 delay_after_branch;
  let start_frame := start + duration + r1 in
  _ ← frame_set start_frame;
  _ ← key_value_at latest_shape_key_index 1;
  py_ret (latest_shape_key_index, start_frame).

(** Lines 383-387: the keyframe where the growth ends. *)
Definition growth_end_key (latest_shape_key_index : nat) (start_frame : Z) : M unit :=
  min_growth ← py_gets (fun w => lp_min_growth_length (w_leaves_props w));
  max_growth ← py_gets (fun w => lp_max_growth_length (w_leaves_props w));
  r2 ← randint min_growth max_growth;
  let end_frame := start_frame + r2 in
  _ ← frame_set end_frame;
  key_value_at latest_shape_key_index 0.

Definition create_shapekey (leaf_idx : nat) (start duration : Z) : M unit :=
  '(latest_shape_key_index, start_frame) ← leaf_key_start leaf_idx start duration;
  growth_end_key latest_shape_key_index start_frame.

End ShapeKeys.

(** ** animate_leaves (lines 389-420) and AnimateLeaves.execute (135-149) *)

Section Animate.
Context {R G : Type} `{Scalar R} `{Host R} `{Random G}.

Abbreviation M := (PyM (world R G)).

(** One iteration of the loop of lines 413-420. *)
Definition animate_leaf (leaves_name : string) (worldmatrix : mat4 R)
    (ivy_objects : list ivy_entry) (modifier_name : string) (index : nat) : M unit :=
  leaves ← objects_get leaves_name;
  me ← py_lift (as_mesh leaves);
  face ← py_lift (py_index (me_faces me) index);
  let leaf_center_pos_glob := vec_mul_mat (face_center me face) worldmatrix in
  os ← py_gets w_objects;
  branch ← py_lift (find_nearest_branch os ivy_objects leaf_center_pos_glob);
  branch_obj ← objects_get (ie_name branch);
  m ← py_lift (modifiers_get modifier_name (ob_modifiers branch_obj));
  b ← py_lift (as_build m);
  create_shapekey index (frame_start b) (frame_duration b).

Definition animate_leaves (leaves_object_name : string) (ivy_objects : list ivy_entry) : M unit :=
  leaves ← objects_get leaves_object_name;
  _ ← update_object leaves_object_name (with_select true);
  _ ← py_modify (set_active (Some leaves_object_name));
  _ ← shape_key_add;
  me ← py_lift (as_mesh leaves);
  let leaf_indices := seq 0 (length (me_faces me)) in
  let worldmatrix := ob_matrix_world leaves in
  modifier_name ← py_gets (fun w => bp_modifier_name (w_branch_props w));
  py_for leaf_indices (animate_leaf leaves_object_name worldmatrix ivy_objects modifier_name).

Definition animate_leaves_execute : M op_return :=
  ctx ← context_object;
  let leaves := ob_LeavesObject ctx in
  let branches := ob_BranchObject ctx in
  if decide (branches = ""%string) then py_ret RETURNED_NONE else
  ivy_objects ← find_ivy_branches branches;
  _ ← animate_leaves leaves ivy_objects;
  py_ret FINISHED.

End Animate.

(** ** Proofs: the nearest face and the nearest branch *)

Section NearestProofs.
Context {R : Type} `{Scalar R}.

(** The reference: the first entry that no entry of the list is
    strictly closer than. *)
Definition nearest_in (dist : ivy_entry -> R) (l : list ivy_entry) (x : ivy_entry) : bool :=
  forallb (fun y => negb (s_ltb (dist y) (dist x))) l.

Definition first_nearest (dist : ivy_entry -> R) (l : list ivy_entry) : option ivy_entry :=
  List.find (nearest_in dist l) l.

Lemma find_ext_in {A} (P Q : A -> bool) (l : list A) :
  (forall y, y ∈ l -> P y = Q y) -> List.find P l = List.find Q l.
Proof.
  induction l as [|y l IH]; intros Hpq; cbn; [done|].
  rewrite (Hpq y ltac:(set_solver)). destruct (Q y); [done|]. apply IH. set_solver.
Qed.

Lemma nearest_in_false_witness dist l x :
  nearest_in dist l x = false -> exists y, y ∈ l /\ s_ltb (dist y) (dist x) = true.
Proof.
  unfold nearest_in. induction l as [|y l IH]; cbn; [done|].
  destruct (s_ltb (dist y) (dist x)) eqn:Hy; cbn; [intros _; exists y; set_solver|].
  intros (z & Hz & Hzx)%IH. exists z. set_solver.
Qed.

Lemma find_cons_false {A} (P : A -> bool) x l : P x = false -> List.find P (x :: l) = List.find P l.
Proof. cbn. by intros ->. Qed.

Lemma find_cons_true {A} (P : A -> bool) x l : P x = true -> List.find P (x :: l) = Some x.
Proof. cbn. by intros ->. Qed.

Lemma nearest_in_cons dist y l x :
  nearest_in dist (y :: l) x = negb (s_ltb (dist y) (dist x)) && nearest_in dist l x.
Proof. reflexivity. Qed.

Lemma first_nearest_dup dist (b : ivy_entry) l :
  first_nearest dist (b :: b :: l) = first_nearest dist (b :: l).
Proof.
  unfold first_nearest. cbn [List.find].
  assert (Hp : forall y, nearest_in dist (b :: b :: l) y = nearest_in dist (b :: l) y).
  { intros y. rewrite !nearest_in_cons. by destruct (negb _). }
  rewrite !Hp. destruct (nearest_in dist (b :: l) b); [done|].
  apply find_ext_in. intros y _. apply Hp.
Qed.

Lemma find_nearest_in dist (L l : list ivy_entry) x :
  List.find (nearest_in dist L) l = Some x ->
  exists k, l !! k = Some x /\ nearest_in dist L x = true /\
    forall j y, (j < k)%nat -> l !! j = Some y -> nearest_in dist L y = false.
Proof.
  induction l as [|b l IH]; cbn; [done|].
  destruct (nearest_in dist L b) eqn:Hb.
  - intros [= <-]. exists 0%nat. repeat split; [done|]. intros j y Hj. lia.
  - intros (k & Hk & Hx & Hfirst)%IH. exists (S k). repeat split; [done..|].
    intros [|j] y Hj Hy; cbn in Hy; [by simplify_eq|]. apply (Hfirst j); [lia|done].
Qed.

Lemma first_nearest_spec dist (l : list ivy_entry) x :
  first_nearest dist l = Some x ->
  exists k, l !! k = Some x /\ (forall y, y ∈ l -> s_ltb (dist y) (dist x) = false) /\
    forall j y, (j < k)%nat -> l !! j = Some y -> exists z, z ∈ l /\ s_ltb (dist z) (dist y) = true.
Proof.
  intros (k & Hk & Hx & Hfirst)%find_nearest_in. exists k. split; [done|]. split.
  - intros y Hy. unfold nearest_in in Hx. apply negb_true_iff.
    apply (proj1 (forallb_forall _ _) Hx). by apply list_elem_of_In.
  - intros j y Hj Hy. apply nearest_in_false_witness. exact (Hfirst j y Hj Hy).
Qed.

(** [<] on coordinates is a strict weak order (as on floats without NaN). *)
Context `{!ScalarOrder R}.

Lemma lt_connected a b c : s_ltb a c = true -> s_ltb a b = true \/ s_ltb b c = true.
Proof.
  intros Hac. destruct (s_ltb a b) eqn:Hab; [by left|]. destruct (s_ltb b c) eqn:Hbc; [by right|].
  by rewrite (lt_negtrans _ _ _ Hab Hbc) in Hac.
Qed.


(** The loop of lines 321-327, started from [closest] with its own
    distance, returns the first entry of [closest :: l] that no entry is
    strictly closer than. *)
Lemma nearest_loop_spec os co (dist : ivy_entry -> R) (l : list ivy_entry) :
  (forall b, b ∈ l -> branch_distance os co b = Ok (dist b)) ->
  forall c, exists x, nearest_loop os co c (dist c) l = Ok x /\ first_nearest dist (c :: l) = Some x.
Proof.
  unfold first_nearest. induction l as [|b l IH]; intros Hd c.
  { exists c. cbn. by rewrite lt_irrefl. }
  cbn [nearest_loop]. rewrite (Hd b ltac:(set_solver)). cbn [mbind result_bind].
  destruct (s_ltb (dist b) (dist c)) eqn:Hbc.
  - destruct (IH ltac:(intros; apply Hd; set_solver) b) as (x & Hrun & Hfind).
    exists x. split; [exact Hrun|]. rewrite <- Hfind.
    rewrite find_cons_false by (rewrite !nearest_in_cons, Hbc; by rewrite !andb_false_r).
    apply find_ext_in. intros y _. rewrite nearest_in_cons.
    destruct (nearest_in dist (b :: l) y) eqn:Hy; [|by rewrite andb_false_r].
    rewrite andb_true_r. apply negb_true_iff.
    destruct (s_ltb (dist c) (dist y)) eqn:Hcy; [|done].
    rewrite nearest_in_cons in Hy. by rewrite (lt_trans _ _ _ Hbc Hcy) in Hy.
  - destruct (IH ltac:(intros; apply Hd; set_solver) c) as (x & Hrun & Hfind).
    exists x. split; [exact Hrun|]. rewrite <- Hfind.
    destruct (nearest_in dist (c :: l) c) eqn:Hc.
    + rewrite !find_cons_true; [done | exact Hc|].
      revert Hc. rewrite !nearest_in_cons, Hbc. by destruct (negb _).
    + destruct (nearest_in_false_witness _ _ _ Hc) as (z & Hz & Hzc).
      assert (Hzb : s_ltb (dist z) (dist b) = true).
      { destruct (lt_connected _ (dist b) _ Hzc) as [?|Hbc']; [done|congruence]. }
      rewrite (find_cons_false (nearest_in dist (c :: l)) c l Hc).
      rewrite find_cons_false by (revert Hc; rewrite !nearest_in_cons, Hbc; by destruct (negb _)).
      rewrite find_cons_false.
      2: { apply not_true_iff_false. intros Hb. unfold nearest_in in Hb.
           apply (proj1 (forallb_forall _ _)) with (x := z) in Hb; [by rewrite Hzb in Hb|].
           apply list_elem_of_In. set_solver. }
      apply find_ext_in. intros y _. rewrite !nearest_in_cons.
      destruct (s_ltb (dist c) (dist y)) eqn:Hcy; cbn; [done|].
      destruct (s_ltb (dist b) (dist y)) eqn:Hby; cbn; [|done].
      destruct (lt_connected _ (dist c) _ Hby); congruence.
Qed.

End NearestProofs.

Section NearestBranch.
Context {R : Type} `{Scalar R}.
Context `{!ScalarOrder R}.

(** C9. When every island's distance to the leaf is computed,
    [find_nearest_branch] returns an island at some position [k] that no
    island is strictly closer than, while each island before position [k]
    has an island strictly closer than it. It is the first nearest
    island. *)
Theorem find_nearest_branch_spec (os : list (object R)) (ivy : list ivy_entry) co
    (dist : ivy_entry -> R) :
  ivy <> [] ->
  (forall b, b ∈ ivy -> branch_distance os co b = Ok (dist b)) ->
  exists k x, find_nearest_branch os ivy co = Ok x /\ ivy !! k = Some x /\
    (forall y, y ∈ ivy -> s_ltb (dist y) (dist x) = false) /\
    (forall j y, (j < k)%nat -> ivy !! j = Some y -> exists z, z ∈ ivy /\ s_ltb (dist z) (dist y) = true).
Proof.
  intros Hne Hd. destruct ivy as [|b rest]; [done|].
  destruct (nearest_loop_spec os co dist (b :: rest) Hd b)
    as (x & Hrun & Hfind).
  rewrite first_nearest_dup in Hfind.
  destruct (first_nearest_spec dist _ _ Hfind) as (k & Hk & Hmin & Hfirst).
  exists k, x. split; [|done].
  unfold find_nearest_branch. cbn [py_index lookup list_lookup mbind result_bind].
  by rewrite (Hd b ltac:(set_solver)).
Qed.


End NearestBranch.

(** ** The distances ignore where the islands are placed

    [face.center * mesh_obj.matrix_world] (line 296) multiplies a row
    vector by the matrix. For an object matrix, whose last row is
    [(0, 0, 0, 1)], this applies the transposed rotation and scale and
    leaves out the translation column [m[0][3], m[1][3], m[2][3]]. The
    comment of line 296 says the point is converted to global
    coordinates; it is not. *)

Section Translation.
Context {R : Type} `{Scalar R}.

(** Add [t] to the translation column of a matrix. *)
Definition translate (t : vec3 R) (m : mat4 R) : mat4 R :=
  let tr (r : vec4 R) x := Vec4 (wx r) (wy r) (wz r) (s_add (ww r) x) in
  Mat4 (tr (row0 m) (vx t)) (tr (row1 m) (vy t)) (tr (row2 m) (vz t)) (row3 m).

(** Move an object by [t]. *)
Definition move (t : vec3 R) (o : object R) : object R :=
  Object (ob_name o) (ob_data o) (translate t (ob_matrix_world o)) (ob_modifiers o)
         (ob_select o) (ob_BranchObject o) (ob_LeavesObject o).


Lemma nearest_loop_ext os os' co c d l :
  (forall b, b ∈ l -> branch_distance os co b = branch_distance os' co b) ->
  nearest_loop os co c d l = nearest_loop os' co c d l.
Proof.
  intros He. revert c d. induction l as [|b l IH]; intros c d; [done|]. cbn.
  rewrite He by set_solver. destruct (branch_distance os' co b); cbn; [|done].
  case_match; apply IH; intros; apply He; set_solver.
Qed.

(** [find_nearest_branch] reads only the objects of the islands. *)
Lemma find_nearest_branch_ext os os' ivy co :
  (forall b, b ∈ ivy -> find_object (ie_name b) os' = find_object (ie_name b) os) ->
  find_nearest_branch os' ivy co = find_nearest_branch os ivy co.
Proof.
  intros He. assert (Hd : forall b, b ∈ ivy -> branch_distance os' co b = branch_distance os co b).
  { intros b Hb. unfold branch_distance. by rewrite He. }
  unfold find_nearest_branch. destruct ivy as [|c l]; [done|]. cbn [py_index lookup list_lookup mbind result_bind].
  rewrite Hd by set_solver. destruct (branch_distance os co c); cbn [mbind result_bind]; [|done].
  apply nearest_loop_ext. intros b Hb. apply Hd. set_solver.
Qed.

Lemma find_nearest_face_ok o me co :
  as_mesh o = Ok me -> me_faces me <> [] -> exists d, find_nearest_face_on_mesh o co = Ok d.
Proof.
  intros Ho Hf. unfold find_nearest_face_on_mesh, face_distances. rewrite Ho. cbn.
  set (ds := (fun f => _) <$> me_faces me).
  assert (Hl : length (py_sort s_ltb ds) <> 0%nat).
  { rewrite (Permutation_length (py_sort_perm s_ltb ds)). unfold ds. rewrite length_fmap.
    by destruct (me_faces me). }
  unfold py_index. destruct (py_sort s_ltb ds) as [|d l]; [done|]. by exists d.
Qed.

Lemma nearest_loop_ok os co l :
  (forall b, b ∈ l -> exists d, branch_distance os co b = Ok d) ->
  forall c d, exists x, nearest_loop os co c d l = Ok x /\ (x = c \/ x ∈ l).
Proof.
  induction l as [|b l IH]; intros Hd c d; [by exists c; auto|].
  destruct (Hd b ltac:(set_solver)) as [db Hb]. cbn. rewrite Hb. cbn.
  case_match;
    [destruct (IH ltac:(intros; apply Hd; set_solver) b db) as (x & Hx & Hin)
    |destruct (IH ltac:(intros; apply Hd; set_solver) c d) as (x & Hx & Hin)];
    exists x; split; try exact Hx; destruct Hin; set_solver.
Qed.

(** When every island's distance is computed, [find_nearest_branch]
    returns one of the islands. *)
Lemma find_nearest_branch_ok os ivy co :
  ivy <> [] -> (forall b, b ∈ ivy -> exists d, branch_distance os co b = Ok d) ->
  exists x, find_nearest_branch os ivy co = Ok x /\ x ∈ ivy.
Proof.
  intros Hne Hd. destruct ivy as [|c l]; [done|].
  destruct (Hd c ltac:(set_solver)) as [dc Hc].
  destruct (nearest_loop_ok os co (c :: l) Hd c dc) as (x & Hx & Hin).
  exists x. unfold find_nearest_branch. cbn [py_index lookup list_lookup mbind result_bind].
  rewrite Hc. cbn. split; [exact Hx|]. destruct Hin; set_solver.
Qed.

(** C10. Moving every island object by its own translation changes
    nothing in the island [find_nearest_branch] returns, nor in its
    errors: the distances of lines 293-299 do not depend on the
    islands' locations. *)
Theorem find_nearest_branch_translation (tr : string -> vec3 R) (os : list (object R)) ivy co :
  find_nearest_branch ((fun o => move (tr (ob_name o)) o) <$> os) ivy co =
  find_nearest_branch os ivy co.
Proof.
  assert (Hd : forall b, branch_distance ((fun o => move (tr (ob_name o)) o) <$> os) co b =
                         branch_distance os co b).
  { intros b. unfold branch_distance. rewrite find_object_fmap by done.
    by destruct (find_object (ie_name b) os). }
  unfold find_nearest_branch. destruct (py_index ivy 0) as [c|]; cbn; [|done].
  rewrite Hd. destruct (branch_distance os co c); cbn; [|done].
  apply nearest_loop_ext. intros b _. apply Hd.
Qed.

(** A mesh without faces has an empty [distances] list, and line 303
    indexes it. *)
Lemma find_nearest_face_empty o me co :
  as_mesh o = Ok me -> me_faces me = [] -> find_nearest_face_on_mesh o co = Err IndexError.
Proof.
  intros Ho Hf. unfold find_nearest_face_on_mesh, face_distances. rewrite Ho. cbn. by rewrite Hf.
Qed.

(** Over islands that are meshes, a distance is computed or raises
    [IndexError]. *)
Lemma branch_distance_cases os co b :
  (exists o me, find_object (ie_name b) os = Some o /\ ob_data o = MeshData me) ->
  (exists d, branch_distance os co b = Ok d) \/ branch_distance os co b = Err IndexError.
Proof.
  intros (o & me & Ho & Hd). unfold branch_distance. rewrite Ho.
  assert (Hm : as_mesh o = Ok me) by (unfold as_mesh; by rewrite Hd).
  destruct (me_faces me) eqn:Hf; [right; exact (find_nearest_face_empty o me co Hm Hf)|].
  left. apply (find_nearest_face_ok o me co Hm). by rewrite Hf.
Qed.

Lemma nearest_loop_error os co l b :
  (forall b, b ∈ l -> (exists d, branch_distance os co b = Ok d) \/ branch_distance os co b = Err IndexError) ->
  b ∈ l -> branch_distance os co b = Err IndexError ->
  forall c d, nearest_loop os co c d l = Err IndexError.
Proof.
  intros Hc Hb Hbe. induction l as [|b' l IH]; intros c d; [set_solver|]. cbn.
  destruct (Hc b' ltac:(set_solver)) as [[d' Hd']|He]; [rewrite Hd'; cbn|by rewrite He].
  apply elem_of_cons in Hb as [->|Hb]; [congruence|].
  case_match; apply IH; auto; intros; apply Hc; set_solver.
Qed.

(** C11. When every island names a mesh, [find_nearest_branch] raises
    [IndexError] exactly when there is no island ([ivy_objects[0]],
    line 315) or some island has no face ([distances[0]] on an empty
    list, line 303): every island's distance is computed, also after
    the nearest one has been found. *)
Theorem find_nearest_branch_index_error os ivy co :
  (forall b, b ∈ ivy -> exists o me, find_object (ie_name b) os = Some o /\ ob_data o = MeshData me) ->
  find_nearest_branch os ivy co = Err IndexError <->
  ivy = [] \/ exists b o me, b ∈ ivy /\ find_object (ie_name b) os = Some o /\
                             ob_data o = MeshData me /\ me_faces me = [].
Proof.
  intros Hm. pose proof (fun b Hb => branch_distance_cases os co b (Hm b Hb)) as Hc. split.
  - intros He. destruct ivy as [|c l]; [by left|]. right.
    destruct (existsb (fun b => if branch_distance os co b is Err _ then true else false) (c :: l)) eqn:Ex.
    + apply existsb_exists in Ex as (b & Hb%list_elem_of_In & Hbe).
      destruct (Hm b Hb) as (o & me & Ho & Hd). exists b, o, me. do 3 (split; [done|]).
      destruct (me_faces me) eqn:Hf; [done|]. exfalso.
      destruct (find_nearest_face_ok o me co) as [d Hd']; [unfold as_mesh; by rewrite Hd | by rewrite Hf |].
      unfold branch_distance in Hbe. by rewrite Ho, Hd' in Hbe.
    + exfalso. destruct (find_nearest_branch_ok os (c :: l) co) as (x & Hx & _); [done| |congruence].
      intros b Hb. destruct (Hc b Hb) as [Hok|He']; [done|]. exfalso.
      assert (Hin : existsb (fun b => if branch_distance os co b is Err _ then true else false) (c :: l) = true).
      { apply existsb_exists. exists b. split; [by apply list_elem_of_In | by rewrite He']. }
      congruence.
  - intros [->|(b & o & me & Hb & Ho & Hd & Hf)]; [reflexivity|].
    assert (Hbe : branch_distance os co b = Err IndexError).
    { unfold branch_distance. rewrite Ho. apply (find_nearest_face_empty o me co); [|done].
      unfold as_mesh. by rewrite Hd. }
    destruct ivy as [|c l]; [set_solver|]. unfold find_nearest_branch.
    cbn [py_index lookup list_lookup mbind result_bind].
    destruct (Hc c ltac:(set_solver)) as [[dc Hdc]|Hce]; [rewrite Hdc; cbn|by rewrite Hce].
    exact (nearest_loop_error os co (c :: l) b Hc Hb Hbe c dc).
Qed.

End Translation.

(** Two one-face islands: ["Ivy"] at the origin with its face at
    [x = 50], and ["Ivy.001"] moved to [x = 100] with its face at its
    own origin. A leaf at [x = 100] lies on ["Ivy.001"]. *)
Definition point_mesh (x : Z) : obj_data Z := MeshData (Mesh [Vec3 x 0 0] [false] [[0%nat]] [] 0).
Definition offset_mat : mat4 Z := translate (Vec3 100 0 0) id_mat.
Definition offset_objects : list (object Z) :=
  [mk_object "Ivy" (point_mesh 50) (grow 1 20);
   Object "Ivy.001" (point_mesh 0) offset_mat (grow 9 20) false "" ""].
Definition offset_ivy : list ivy_entry := [IvyEntry "Ivy" 1; IvyEntry "Ivy.001" 1].
Definition offset_dist (b : ivy_entry) : Z := if decide (ie_name b = "Ivy") then 50 else 100.

Lemma find_nearest_branch_spec_witness :
  exists k x, find_nearest_branch offset_objects offset_ivy (Vec3 100 0 0) = Ok x /\
    offset_ivy !! k = Some x /\
    (forall y, y ∈ offset_ivy -> s_ltb (offset_dist y) (offset_dist x) = false) /\
    (forall j y, (j < k)%nat -> offset_ivy !! j = Some y ->
       exists z, z ∈ offset_ivy /\ s_ltb (offset_dist z) (offset_dist y) = true).
Proof.
  apply find_nearest_branch_spec; [discriminate|].
  by_elements reflexivity.
Defined.

(** ** Proofs: create_shapekey *)

Section ShapeKeyProofs.
Context {R G : Type} `{Scalar R} `{Host R} `{Random G}.

(** The mesh of the object called [name]. *)
Definition mesh_of (name : string) (os : list (object R)) : option (mesh R) :=
  o ← find_object name os;
  match ob_data o with MeshData me => Some me | _ => None end.

(** [me'] has the faces, the vertices and the number of vertices of
    [me]: what the leaf positions depend on. *)
Definition same_shape (me me' : mesh R) : Prop :=
  me_faces me' = me_faces me /\ me_verts me' = me_verts me /\ length (me_vsel me') = length (me_vsel me).

Lemma same_shape_trans me1 me2 me3 : same_shape me1 me2 -> same_shape me2 me3 -> same_shape me1 me3.
Proof. intros (? & ? & ?) (? & ? & ?). repeat split; congruence. Qed.

(** The keyframes of every shape key of a mesh. *)
Definition fcurves (me : mesh R) : list (list (Z * Z)) := sk_fcurve <$> me_keys me.

Definition map_mesh (name : string) (f : mesh R -> mesh R) (os : list (object R)) :=
  map (fun o => if decide (ob_name o = name) then
                  match ob_data o with MeshData me => with_data (MeshData (f me)) o | _ => o end
                else o) os.

Lemma update_mesh_run name f (w : world R G) :
  update_mesh name f w = (Ok tt, set_objects (map_mesh name f (w_objects w)) w).
Proof. reflexivity. Qed.

Lemma mesh_of_map_mesh name f os n :
  mesh_of n (map_mesh name f os) = if decide (n = name) then f <$> mesh_of n os else mesh_of n os.
Proof.
  unfold mesh_of, map_mesh. rewrite find_object_map.
  2: { intros o. by destruct (ob_data o). }
  destruct (decide (n = name)); destruct (find_object n os) as [o|]; cbn; try done.
  all: destruct (ob_data o) eqn:Hd; cbn; rewrite ?Hd; done.
Qed.

Lemma find_object_map_mesh name f os n :
  n <> name -> find_object n (map_mesh name f os) = find_object n os.
Proof.
  intros Hn. unfold map_mesh. rewrite find_object_map; [by rewrite decide_False|].
  intros o. by destruct (ob_data o).
Qed.

Lemma mesh_of_find name os me :
  mesh_of name os = Some me -> exists o, find_object name os = Some o /\ ob_data o = MeshData me.
Proof.
  unfold mesh_of. destruct (find_object name os) as [o|]; cbn; [|done].
  destruct (ob_data o) eqn:Hd; intros; simplify_eq; eauto.
Qed.

Lemma context_object_run (w : world R G) name o :
  w_active w = Some name -> find_object name (w_objects w) = Some o ->
  context_object w = (Ok o, w).
Proof. intros Ha Ho. unfold context_object. rewrite Ha. exact (objects_get_found _ _ _ Ho). Qed.

Lemma active_mesh_run (w : world R G) name me :
  w_active w = Some name -> mesh_of name (w_objects w) = Some me ->
  active_mesh w = (Ok (name, me), w).
Proof.
  intros Ha (o & Ho & Hd)%mesh_of_find. unfold active_mesh.
  rewrite (py_mbind_ok _ _ _ _ _ (context_object_run _ _ _ Ha Ho)).
  cbn. unfold as_mesh. rewrite Hd. cbn. by rewrite (find_object_name _ _ _ Ho).
Qed.

Lemma randint_run a b (w : world R G) :
  a <= b ->
  exists r g', randint a b w = (Ok r, set_rng g' w) /\ a <= r <= b.
Proof.
  intros Hab. unfold randint. destruct (Z.ltb_spec 0 (b + 1 - a)) as [Hw|]; [|lia].
  pose proof (randbelow_range (b + 1 - a) (w_rng w) Hw) as Hr.
  destruct (randbelow (b + 1 - a) (w_rng w)) as [r g'] eqn:E. cbn in Hr.
  exists (a + r), g'. split; [done|lia].
Qed.

Lemma randint_empty a b (w : world R G) : b < a -> randint a b w = (Err ValueError, w).
Proof. intros Hab. unfold randint. destruct (Z.ltb_spec 0 (b + 1 - a)); [lia|done]. Qed.

(** [w'] differs from [w] at most in the object called [name], the
    current frame, the mode and the random state. *)
Definition keeps (name : string) (w w' : world R G) : Prop :=
  w_active w' = w_active w /\ w_branch_props w' = w_branch_props w /\
  w_leaves_props w' = w_leaves_props w /\
  forall n, n <> name -> find_object n (w_objects w') = find_object n (w_objects w).

Lemma keeps_refl name (w : world R G) : keeps name w w.
Proof. by repeat split. Qed.

Lemma keeps_map_mesh name f (w w1 : world R G) :
  keeps name w w1 -> keeps name w (set_objects (map_mesh name f (w_objects w1)) w1).
Proof.
  intros (Ha & Hb & Hl & Ho). repeat split; try done.
  intros n Hn. cbn. rewrite find_object_map_mesh by done. by apply Ho.
Qed.

Lemma keeps_set_mode name m (w w1 : world R G) : keeps name w w1 -> keeps name w (set_mode m w1).
Proof. done. Qed.

Lemma keeps_set_frame name f (w w1 : world R G) : keeps name w w1 -> keeps name w (set_frame f w1).
Proof. done. Qed.

Lemma keeps_set_rng name g (w w1 : world R G) : keeps name w w1 -> keeps name w (set_rng g w1).
Proof. done. Qed.

End ShapeKeyProofs.

(** Reduce the setters of a world term and the mesh lookups. *)
Ltac world_simpl :=
  cbn [w_objects w_active w_frame w_rng w_mode w_branch_props w_leaves_props
       set_objects set_mode set_frame set_rng set_active set_cursor];
  rewrite ?mesh_of_map_mesh, ?decide_True by reflexivity; cbn [fmap option_fmap option_map].

Create HintDb keeps discriminated.
#[export] Hint Resolve keeps_refl keeps_map_mesh keeps_set_mode keeps_set_frame keeps_set_rng : keeps.

Section ShapeKeyRuns.
Context {R G : Type} `{Scalar R} `{Host R} `{Random G}.

Lemma active_mesh_runs (w : world R G) name me P :
  w_active w = Some name -> mesh_of name (w_objects w) = Some me ->
  P (name, me) w -> runs active_mesh w P.
Proof. intros Ha Hm HP. exact (runs_eq _ _ _ _ _ (active_mesh_run w name me Ha Hm) HP). Qed.

Lemma update_mesh_runs name f (w : world R G) P :
  P tt (set_objects (map_mesh name f (w_objects w)) w) -> runs (update_mesh name f) w P.
Proof. intros HP. exact (runs_eq _ _ _ _ _ (update_mesh_run name f w) HP). Qed.

Lemma shape_key_add_runs (w : world R G) name me P :
  w_active w = Some name -> mesh_of name (w_objects w) = Some me ->
  P tt (set_objects (map_mesh name host_shape_key_add (w_objects w)) w) ->
  runs shape_key_add w P.
Proof.
  intros Ha (o & Ho & Hd)%mesh_of_find HP. unfold shape_key_add. runs_step.
  eapply runs_eq; [exact (context_object_run _ _ _ Ha Ho)|]. cbv beta.
  rewrite Hd, (find_object_name _ _ _ Ho). by apply update_mesh_runs.
Qed.

Lemma key_value_at_runs idx v (w : world R G) name me P :
  w_active w = Some name -> mesh_of name (w_objects w) = Some me ->
  P tt (set_objects (map_mesh name (alter_key idx (fun k => insert_value_key (w_frame w) (set_value v k)))
                               (w_objects w)) w) ->
  runs (key_value_at idx v) w P.
Proof.
  intros Ha Hm HP. unfold key_value_at. runs_step.
  eapply active_mesh_runs; [exact Ha | exact Hm |]. runs_step. runs_step. by apply update_mesh_runs.
Qed.

Lemma randint_runs a b (w : world R G) P :
  a <= b -> (forall r g', a <= r <= b -> P r (set_rng g' w)) -> runs (randint a b) w P.
Proof.
  intros Hab HP. destruct (randint_run a b w Hab) as (r & g' & Hrun & Hr).
  exact (runs_eq _ _ _ _ _ Hrun (HP r g' Hr)).
Qed.

Lemma select_face_vertices_ok (f : list nat) (me : mesh R) :
  Forall (fun vi => vi < length (me_vsel me))%nat f ->
  exists me', select_face_vertices f me = (me', Ok tt) /\ me_keys me' = me_keys me /\ same_shape me me'.
Proof.
  intros Hf. cut (forall me0 : mesh R, same_shape me me0 ->
    exists me', select_face_vertices f me0 = (me', Ok tt) /\ me_keys me' = me_keys me0 /\ same_shape me me').
  { intros Hgen. apply Hgen. by repeat split. }
  induction Hf as [|vi f Hvi Hf IH]; intros me0 (Hfa & Hv & Hlen); [by exists me0|].
  cbn [select_face_vertices]. rewrite decide_True by lia.
  destruct (IH (with_vsel (<[vi := true]> (me_vsel me0)) me0)) as (me' & Hrun & Hk & Hs).
  { unfold same_shape. cbn. rewrite length_insert. by repeat split. }
  exists me'. by rewrite Hrun, Hk.
Qed.

Lemma fcurves_alter_key i f v (me : mesh R) :
  fcurves (alter_key i (fun k => insert_value_key f (set_value v k)) me) =
  alter (fcurve_insert f v) i (fcurves me).
Proof.
  unfold fcurves, alter_key. cbn [me_keys]. generalize i.
  induction (me_keys me) as [|k ks IH]; intros [|j]; cbn; rewrite ?IH; done.
Qed.

Lemma alter_app_length {A} (g : A -> A) (l : list A) x : alter g (length l) (l ++ [x]) = l ++ [g x].
Proof. induction l as [|y l IH]; cbn; [done|]. by rewrite IH. Qed.

Lemma fcurves_shape_key_add (me : mesh R) : exists k,
  me_keys (host_shape_key_add me) = me_keys me ++ [k] /\ fcurves (host_shape_key_add me) = fcurves me ++ [[]].
Proof.
  destruct (host_shape_key_add_keys me) as (k & Hk & Hf). exists k. split; [done|].
  unfold fcurves. rewrite Hk, fmap_app. cbn. by rewrite Hf.
Qed.

(** The keyframes of a new leaf key: hidden at [b], hidden at [s],
    full size at [e]. *)
Definition leaf_keyframes (b s e : Z) : list (Z * Z) :=
  fcurve_insert e 0 (fcurve_insert s 1 (fcurve_insert b 1 [])).

(** Symbolic execution of [create_shapekey]: the monad steps and the
    mesh updates of the active object. *)
Ltac leaf_steps := repeat first [runs_step | apply update_mesh_runs].

(** The run of [leaf_key_start] on a well-formed leaf: the new key
    holds the keyframes at the Build start frame and at the growth
    start [start + duration + r1]. *)
Lemma leaf_key_start_runs (w : world R G) name me leaf_idx face start duration :
  w_active w = Some name -> mesh_of name (w_objects w) = Some me ->
  me_faces me !! leaf_idx = Some face -> Forall (fun vi => vi < length (me_vsel me))%nat face ->
  0 <= lp_delay_after_branch (w_leaves_props w) ->
  runs (leaf_key_start leaf_idx start duration) w (fun ls w' =>
    ls.1 = length (fcurves me) /\ keeps name w w' /\
    exists me' r1, ls.2 = start + duration + r1 /\ 0 <= r1 <= lp_delay_after_branch (w_leaves_props w) /\
      mesh_of name (w_objects w') = Some me' /\ same_shape me me' /\ me_faces me' = me_faces me /\
      fcurves me' = fcurves me ++
        [fcurve_insert (clamp host_frame_min host_frame_max ls.2) 1
           (fcurve_insert (clamp host_frame_min host_frame_max (bp_frame_start (w_branch_props w))) 1 [])]).
Proof.
  intros Ha Hm Hf Hv Hd. destruct (fcurves_shape_key_add me) as (k & Hk & Hfk).
  set (L := (length (me_keys (host_shape_key_add me)) - 1)%nat).
  assert (HL : L = length (fcurves me)) by (unfold L, fcurves; rewrite Hk, length_app, length_fmap; cbn; lia).
  set (meE := with_vsel ((fun _ => false) <$> me_vsel (with_active_key L (host_shape_key_add me)))
                        (with_active_key L (host_shape_key_add me))).
  assert (HsE : same_shape me meE).
  { unfold same_shape. cbn. rewrite length_fmap, host_shape_key_add_faces, host_shape_key_add_verts,
      host_shape_key_add_vsel. by repeat split. }
  unfold leaf_key_start, frame_set.
  runs_step. eapply shape_key_add_runs; [exact Ha | exact Hm |].
  runs_step. eapply active_mesh_runs; [exact Ha | world_simpl; rewrite Hm; reflexivity |]. fold L.
  leaf_steps.
  eapply runs_at with (Q := fun w' => mesh_of name (w_objects w') = Some meE /\ keeps name w w').
  { split; [world_simpl; by rewrite Hm | eauto 10 with keeps]. }
  intros w1 (Hm1 & Hk1). pose proof Hk1 as (Ha1 & Hb1 & Hl1 & _). rewrite Ha in Ha1.
  eapply active_mesh_runs; [exact Ha1 | exact Hm1 |]. cbv beta iota zeta.
  assert (HfE : me_faces meE !! leaf_idx = Some face) by (cbn; by rewrite host_shape_key_add_faces).
  rewrite (py_index_lookup _ _ _ HfE). leaf_steps.
  destruct (select_face_vertices_ok face meE) as (meS & HS & HSk & HsS).
  { cbn. rewrite length_fmap, host_shape_key_add_vsel. exact Hv. }
  rewrite HS. cbv beta iota zeta. leaf_steps.
  set (bsf := clamp host_frame_min host_frame_max (bp_frame_start (w_branch_props w))).
  set (meK1 := alter_key L (fun k => insert_value_key bsf (set_value 1 k)) (host_resize_zero meS)).
  eapply key_value_at_runs; [world_simpl; exact Ha1 | world_simpl; rewrite Hm1; reflexivity |].
  eapply runs_at with (Q := fun w' => mesh_of name (w_objects w') = Some meK1 /\ keeps name w w').
  { split; [world_simpl; rewrite Hm1, Hb1; reflexivity | eauto 10 with keeps]. }
  intros w2 (Hm2 & Hk2). pose proof Hk2 as (Ha2 & _ & Hl2 & _). rewrite Ha in Ha2.
  leaf_steps. eapply randint_runs; [rewrite Hl2; lia|]. intros r1 g1 Hr1.
  leaf_steps. eapply key_value_at_runs; [world_simpl; exact Ha2 | world_simpl; exact Hm2 |].
  leaf_steps. cbn [fst snd]. split; [exact HL|]. split; [eauto 10 with keeps|].
  world_simpl. rewrite Hm2. cbn [fmap option_fmap option_map].
  cbn [w_leaves_props set_objects set_frame set_rng set_mode] in Hr1. rewrite ?Hl2 in Hr1.
  eexists _, r1. split; [reflexivity|]. split; [exact Hr1|]. split; [reflexivity|].
  assert (Hs : same_shape me (alter_key L (fun k => insert_value_key (clamp host_frame_min host_frame_max
                                (start + duration + r1)) (set_value 1 k)) meK1)).
  { apply (same_shape_trans _ meE); [exact HsE|]. apply (same_shape_trans _ meS); [exact HsS|].
    unfold same_shape. cbn. by rewrite host_resize_faces, host_resize_verts, host_resize_vsel. }
  split; [exact Hs|]. split; [exact (proj1 Hs)|].
  rewrite !fcurves_alter_key. unfold meK1. rewrite fcurves_alter_key.
  replace (fcurves (host_resize_zero (Host:=H0) meS)) with (fcurves me ++ [[]]).
  2: { unfold fcurves. rewrite (host_resize_fcurves meS), HSk. exact (eq_sym Hfk). }
  rewrite HL, !alter_app_length. reflexivity.
Qed.

(** The run of [create_shapekey] on a well-formed leaf (the claim
    below states it). *)
Lemma create_shapekey_runs (w : world R G) name me leaf_idx face start duration :
  w_active w = Some name -> mesh_of name (w_objects w) = Some me ->
  me_faces me !! leaf_idx = Some face -> Forall (fun vi => vi < length (me_vsel me))%nat face ->
  0 <= lp_delay_after_branch (w_leaves_props w) ->
  lp_min_growth_length (w_leaves_props w) <= lp_max_growth_length (w_leaves_props w) ->
  runs (create_shapekey leaf_idx start duration) w (fun _ w' =>
    keeps name w w' /\
    exists me' r1 r2, mesh_of name (w_objects w') = Some me' /\ same_shape me me' /\
      fcurves me' = fcurves me ++
        [leaf_keyframes (clamp host_frame_min host_frame_max (bp_frame_start (w_branch_props w)))
                        (clamp host_frame_min host_frame_max (start + duration + r1))
                        (clamp host_frame_min host_frame_max (start + duration + r1 + r2))] /\
      0 <= r1 <= lp_delay_after_branch (w_leaves_props w) /\
      lp_min_growth_length (w_leaves_props w) <= r2 <= lp_max_growth_length (w_leaves_props w)).
Proof.
  intros Ha Hm Hf Hv Hd Hg. unfold create_shapekey. runs_step.
  eapply runs_weaken; [exact (leaf_key_start_runs w name me leaf_idx face start duration Ha Hm Hf Hv Hd)|].
  intros [L sf] w2 (HL & Hk2 & me2 & r1 & Hsf & Hr1 & Hm2 & Hs2 & _ & Hf2). cbn [fst snd] in *. subst L sf.
  pose proof Hk2 as (Ha2 & _ & Hl2 & _). rewrite Ha in Ha2.
  unfold growth_end_key, frame_set. leaf_steps. eapply randint_runs; [rewrite Hl2; lia|]. intros r2 g2 Hr2.
  leaf_steps. eapply key_value_at_runs; [world_simpl; exact Ha2 | world_simpl; exact Hm2 |].
  split; [eauto 10 with keeps|]. world_simpl. rewrite Hm2. cbn [fmap option_fmap option_map].
  rewrite Hl2 in Hr2. eexists _, r1, r2. split; [reflexivity|].
  split; [apply (same_shape_trans _ me2); [exact Hs2 | unfold same_shape; cbn; by repeat split]|].
  split; [|split; assumption].
  rewrite fcurves_alter_key, Hf2, alter_app_length. reflexivity.
Qed.

(** C12. On an active mesh whose face [leaf_idx] indexes existing
    vertices, with [delay_after_branch >= 0] and
    [min_growth_length <= max_growth_length], [create_shapekey] returns,
    and the mesh has one more shape key, whose value curve holds exactly
    the three keyframes of lines 369-387: 1 at the Build start frame, 1 at
    [start + duration + r1] and 0 at [start + duration + r1 + r2], with
    [r1] in [[0, delay_after_branch]] and [r2] in
    [[min_growth_length, max_growth_length]], each frame clamped to
    [[MINAFRAME, MAXFRAME]] by [frame_set]. The curves of the other keys
    are unchanged. *)
Theorem create_shapekey_spec (w : world R G) name me leaf_idx face start duration :
  w_active w = Some name -> mesh_of name (w_objects w) = Some me ->
  me_faces me !! leaf_idx = Some face -> Forall (fun vi => vi < length (me_vsel me))%nat face ->
  0 <= lp_delay_after_branch (w_leaves_props w) ->
  lp_min_growth_length (w_leaves_props w) <= lp_max_growth_length (w_leaves_props w) ->
  runs (create_shapekey leaf_idx start duration) w (fun _ w' =>
    keeps name w w' /\
    exists me' r1 r2, mesh_of name (w_objects w') = Some me' /\ same_shape me me' /\
      fcurves me' = fcurves me ++
        [leaf_keyframes (clamp host_frame_min host_frame_max (bp_frame_start (w_branch_props w)))
                        (clamp host_frame_min host_frame_max (start + duration + r1))
                        (clamp host_frame_min host_frame_max (start + duration + r1 + r2))] /\
      0 <= r1 <= lp_delay_after_branch (w_leaves_props w) /\
      lp_min_growth_length (w_leaves_props w) <= r2 <= lp_max_growth_length (w_leaves_props w)).
Proof. apply create_shapekey_runs. Qed.

(** C13. With [min_growth_length] above [max_growth_length],
    [random.randint] of line 384 raises [ValueError] after the leaf's
    shape key has been added, the leaf collapsed and its value keyed at
    the Build start frame and at the growth start: the mesh is left half
    animated, whatever the scene. The properties of lines 423-437 accept
    any pair of integers. *)
Theorem create_shapekey_bad_growth_range (w : world R G) name me leaf_idx face start duration :
  w_active w = Some name -> mesh_of name (w_objects w) = Some me ->
  me_faces me !! leaf_idx = Some face -> Forall (fun vi => vi < length (me_vsel me))%nat face ->
  0 <= lp_delay_after_branch (w_leaves_props w) ->
  lp_max_growth_length (w_leaves_props w) < lp_min_growth_length (w_leaves_props w) ->
  exists w', create_shapekey leaf_idx start duration w = (Err ValueError, w') /\ keeps name w w' /\
    exists me' r1, mesh_of name (w_objects w') = Some me' /\ same_shape me me' /\
      fcurves me' = fcurves me ++
        [fcurve_insert (clamp host_frame_min host_frame_max (start + duration + r1)) 1
           (fcurve_insert (clamp host_frame_min host_frame_max (bp_frame_start (w_branch_props w))) 1 [])] /\
      0 <= r1 <= lp_delay_after_branch (w_leaves_props w).
Proof.
  intros Ha Hm Hf Hv Hd Hg.
  destruct (leaf_key_start_runs w name me leaf_idx face start duration Ha Hm Hf Hv Hd)
    as ([L sf] & w2 & Hrun & _ & Hk2 & me2 & r1 & Hsf & Hr1 & Hm2 & Hs2 & _ & Hf2).
  cbn [fst snd] in *. subst sf. pose proof Hk2 as (_ & _ & Hl2 & _).
  exists w2. unfold create_shapekey. rewrite (py_mbind_ok _ _ _ _ _ Hrun). split.
  - unfold growth_end_key, mbind, py_mbind, py_bind, py_gets. cbn -[randint].
    rewrite randint_empty by (rewrite Hl2; exact Hg). reflexivity.
  - split; [exact Hk2|]. exists me2, r1. done.
Qed.

End ShapeKeyRuns.

(** ** Selecting a face's vertices, against a reference

    The loop of lines 356-360 sets the selection flag of each corner of
    the face, one at a time, and raises [IndexError] at a corner out of
    range. [select_ref] sets all of them at once. *)

Definition select_ref (f : list nat) (sel : list bool) : list bool :=
  imap (fun i b => b || bool_decide (i ∈ f)) sel.

Section SelectProofs.
Context {R : Type}.

Lemma select_ref_nil sel : select_ref [] sel = sel.
Proof.
  apply list_eq. intros i. unfold select_ref. rewrite list_lookup_imap.
  destruct (sel !! i) as [b|]; cbn; [|done]. rewrite bool_decide_false by set_solver. by destruct b.
Qed.

Lemma select_ref_insert vi f sel :
  (vi < length sel)%nat -> select_ref f (<[vi := true]> sel) = select_ref (vi :: f) sel.
Proof.
  intros Hvi. apply list_eq. intros i. unfold select_ref. rewrite !list_lookup_imap, list_lookup_insert.
  case_decide as Hi; [destruct Hi as [<- _]|].
  - destruct (lookup_lt_is_Some_2 sel vi Hvi) as [b ->]. cbn. rewrite bool_decide_true by set_solver.
    by destruct b.
  - destruct (sel !! i) as [b|] eqn:Hb; cbn; [|done]. f_equal. f_equal. apply bool_decide_ext.
    assert (i <> vi) by (intros ->; apply Hi; split; [done | exact (lookup_lt_Some _ _ _ Hb)]).
    set_solver.
Qed.


Lemma length_select_ref f sel : length (select_ref f sel) = length sel.
Proof. apply length_imap. Qed.

(** Corners in range are selected one after the other as [select_ref]
    selects them at once. *)
Lemma select_face_vertices_app pre rest (me : mesh R) :
  Forall (fun vi => vi < length (me_vsel me))%nat pre ->
  select_face_vertices (pre ++ rest) me = select_face_vertices rest (with_vsel (select_ref pre (me_vsel me)) me).
Proof.
  revert me. induction pre as [|vi pre IH]; intros me Hpre.
  - rewrite select_ref_nil. by destruct me.
  - apply Forall_cons in Hpre as [Hvi Hpre]. cbn [app select_face_vertices]. rewrite decide_True by done.
    rewrite IH by (cbn; by rewrite length_insert). cbn [me_vsel with_vsel]. by rewrite select_ref_insert.
Qed.

(** C25. The loop of lines 356-360 against the reference [select_ref]:
    when every corner of the face is in range it sets their flags and
    nothing else; otherwise it raises [IndexError] at the first corner
    out of range, the flags of the corners before it already set. *)
Theorem select_face_vertices_spec (f : list nat) (me : mesh R) :
  (Forall (fun vi => vi < length (me_vsel me))%nat f ->
   select_face_vertices f me = (with_vsel (select_ref f (me_vsel me)) me, Ok tt)) /\
  (forall pre vi post, f = pre ++ vi :: post -> Forall (fun vj => vj < length (me_vsel me))%nat pre ->
   (length (me_vsel me) <= vi)%nat ->
   select_face_vertices f me = (with_vsel (select_ref pre (me_vsel me)) me, Err IndexError)).
Proof.
  split.
  - intros Hf. rewrite <- (app_nil_r f), select_face_vertices_app, app_nil_r by done. reflexivity.
  - intros pre vi post -> Hpre Hvi. rewrite select_face_vertices_app by done.
    cbn [select_face_vertices me_vsel with_vsel]. rewrite length_select_ref, decide_False by lia. reflexivity.
Qed.

End SelectProofs.

(** ** Proofs: animate_leaves *)

Section AnimateProofs.
Context {R G : Type} `{Scalar R} `{Host R} `{Random G}.

(** The scene: a leaves object [lo] with mesh [me0] whose faces index
    existing vertices, and a non-empty list of islands that are meshes
    with at least one face and the Build modifier named in the
    properties, none of them the leaves object. *)
Variables (w0 : world R G) (leaves_name : string) (lo : object R) (me0 : mesh R)
  (ivy : list ivy_entry).
Hypothesis Hlo : find_object leaves_name (w_objects w0) = Some lo.
Hypothesis Hme : ob_data lo = MeshData me0.
Hypothesis Hfaces : Forall (Forall (fun vi => vi < length (me_vsel me0))%nat) (me_faces me0).
Hypothesis Hivy : ivy <> [].
Hypothesis Hisl : forall e, e ∈ ivy -> ie_name e <> leaves_name /\
  exists o m b, find_object (ie_name e) (w_objects w0) = Some o /\ ob_data o = MeshData m /\
    me_faces m <> [] /\ build_of (w_objects w0) (ie_name e) (bp_modifier_name (w_branch_props w0)) = Some b.
Hypothesis Hdelay : 0 <= lp_delay_after_branch (w_leaves_props w0).
Hypothesis Hgrowth : lp_min_growth_length (w_leaves_props w0) <= lp_max_growth_length (w_leaves_props w0).

(** The keyframes of leaf [i] as the loop body computes them. *)
Definition leaf_ok (i : nat) (kf : list (Z * Z)) : Prop :=
  exists f b st du r1 r2, me_faces me0 !! i = Some f /\
    find_nearest_branch (w_objects w0) ivy (vec_mul_mat (face_center me0 f) (ob_matrix_world lo)) = Ok b /\
    build_of (w_objects w0) (ie_name b) (bp_modifier_name (w_branch_props w0)) = Some (BuildMod st du) /\
    kf = leaf_keyframes (clamp host_frame_min host_frame_max (bp_frame_start (w_branch_props w0)))
                        (clamp host_frame_min host_frame_max (st + du + r1))
                        (clamp host_frame_min host_frame_max (st + du + r1 + r2)) /\
    0 <= r1 <= lp_delay_after_branch (w_leaves_props w0) /\
    lp_min_growth_length (w_leaves_props w0) <= r2 <= lp_max_growth_length (w_leaves_props w0).

(** The loop invariant after the leaves [pre]. *)
Definition leaves_inv (pre : list nat) (s : world R G) : Prop :=
  w_active s = Some leaves_name /\ w_branch_props s = w_branch_props w0 /\
  w_leaves_props s = w_leaves_props w0 /\
  (forall n, n <> leaves_name -> find_object n (w_objects s) = find_object n (w_objects w0)) /\
  exists me keys, mesh_of leaves_name (w_objects s) = Some me /\ same_shape me0 me /\
    fcurves me = fcurves me0 ++ [[]] ++ keys /\ Forall2 leaf_ok pre keys.

Lemma face_center_same_shape me f : same_shape me0 me -> face_center me f = face_center me0 f.
Proof. intros (_ & Hv & _). unfold face_center. by rewrite Hv. Qed.

Lemma island_distance co e : e ∈ ivy -> exists d, branch_distance (w_objects w0) co e = Ok d.
Proof.
  intros He. destruct (Hisl e He) as (_ & o & m & b & Ho & Hd & Hf & _).
  unfold branch_distance. rewrite Ho. apply (find_nearest_face_ok o m); [|done].
  unfold as_mesh. by rewrite Hd.
Qed.

(** One iteration of the loop of lines 413-420 carries the invariant. *)
Lemma animate_leaf_runs pre i (s : world R G) :
  (i < length (me_faces me0))%nat -> leaves_inv pre s ->
  runs (animate_leaf leaves_name (ob_matrix_world lo) ivy (bp_modifier_name (w_branch_props w0)) i) s
       (fun _ s' => leaves_inv (pre ++ [i]) s').
Proof.
  intros Hi (Ha & Hb & Hl & Ho & me & keys & Hm & Hs & Hfc & Hk).
  destruct (lookup_lt_is_Some_2 _ _ Hi) as [f Hf]. pose proof Hs as (Hsf & _ & Hsl).
  destruct (mesh_of_find _ _ _ Hm) as (o & Hos & Hod).
  unfold animate_leaf. runs_step. eapply runs_eq; [exact (objects_get_found _ _ _ Hos)|].
  unfold as_mesh. rewrite Hod. runs_step. runs_step.
  rewrite (py_index_lookup (me_faces me) i f) by (rewrite Hsf; exact Hf). runs_step. runs_step.
  rewrite face_center_same_shape by exact Hs.
  set (co := vec_mul_mat (face_center me0 f) (ob_matrix_world lo)). runs_step. runs_step.
  destruct (find_nearest_branch_ok (w_objects w0) ivy co Hivy (fun e He => island_distance co e He))
    as (x & Hx & Hxin).
  rewrite (find_nearest_branch_ext (w_objects w0) (w_objects s) ivy co).
  2: { intros b Hb'. apply Ho. apply (Hisl b Hb'). }
  rewrite Hx. runs_step. runs_step.
  destruct (Hisl x Hxin) as (Hxn & _ & _ & bx & _ & _ & _ & Hbx).
  destruct (build_of_find _ _ _ _ Hbx) as (ox & Hox & Hmod).
  runs_step. eapply runs_eq; [apply objects_get_found; rewrite Ho by done; exact Hox|].
  rewrite Hmod. runs_step. runs_step. destruct bx as [st du]. cbn [frame_start frame_duration].
  eapply runs_weaken.
  { apply (create_shapekey_runs s leaves_name me i f st du Ha Hm);
      [by rewrite Hsf | rewrite Hsl; exact (Forall_lookup_1 _ _ _ _ Hfaces Hf)
      | rewrite Hl; exact Hdelay | rewrite Hl; exact Hgrowth]. }
  intros [] s' ((Ha' & Hb' & Hl' & Ho') & me' & r1 & r2 & Hm' & Hs' & Hfc' & Hr1 & Hr2).
  rewrite Hb, Hl in *. split; [congruence|]. split; [congruence|]. split; [congruence|].
  split; [intros n Hn; rewrite Ho' by done; by apply Ho|].
  eexists me', (keys ++ [_]). split; [exact Hm'|]. split; [exact (same_shape_trans _ _ _ Hs Hs')|].
  split; [rewrite Hfc', Hfc; by rewrite <- !app_assoc|].
  apply Forall2_app; [exact Hk|]. constructor; [|constructor].
  exists f, x, st, du, r1, r2. split; [exact Hf|]. split; [exact Hx|]. split; [exact Hbx|].
  split; [reflexivity|]. split; assumption.
Qed.

(** C14. [animate_leaves] on that scene returns. The leaves mesh ends
    with the base key of line 401, without keyframes, followed by one key
    per face, in face order. The key of face [i] is keyed hidden at the
    Build start frame, hidden at [start + duration + r1] and full size
    [r2] frames later, where [start] and [duration] are those of the
    Build modifier of the island [find_nearest_branch] picks for the
    face's centre, and [r1], [r2] lie in the random ranges. The faces and
    vertices of the mesh and every other object are unchanged. *)
Theorem animate_leaves_spec :
  runs (animate_leaves leaves_name ivy) w0 (fun _ w' =>
    (forall n, n <> leaves_name -> find_object n (w_objects w') = find_object n (w_objects w0)) /\
    exists me keys, mesh_of leaves_name (w_objects w') = Some me /\ same_shape me0 me /\
      fcurves me = fcurves me0 ++ [[]] ++ keys /\ length keys = length (me_faces me0) /\
      forall i kf, keys !! i = Some kf -> leaf_ok i kf).
Proof.
  assert (Hsel : forall n, find_object n (map (fun o => if decide (ob_name o = leaves_name)
                   then with_select true o else o) (w_objects w0)) =
                 if decide (n = leaves_name) then with_select true <$> find_object n (w_objects w0)
                 else find_object n (w_objects w0)) by (intros n; by apply find_object_map).
  unfold animate_leaves, update_object.
  runs_step. eapply runs_eq; [exact (objects_get_found _ _ _ Hlo)|]. cbv beta.
  do 5 runs_step. eapply shape_key_add_runs; [reflexivity | |].
  { cbn. unfold mesh_of. rewrite Hsel, decide_True, Hlo by done. cbn. by rewrite Hme. }
  unfold as_mesh. rewrite Hme. do 4 runs_step. world_simpl.
  eapply runs_weaken; [apply (runs_for leaves_inv)|].
  - intros pre x post s Hl Hinv. apply animate_leaf_runs; [|exact Hinv].
    assert (Hx : x ∈ seq 0 (length (me_faces me0))) by (rewrite Hl; set_solver).
    apply elem_of_seq in Hx. lia.
  - destruct (fcurves_shape_key_add me0) as (k & _ & Hfk).
    split; [done|]. split; [done|]. split; [done|].
    split; [intros n Hn; cbn; rewrite find_object_map_mesh, Hsel, decide_False by done; done|].
    exists (host_shape_key_add me0), []. split.
    { cbn [w_objects set_objects]. rewrite mesh_of_map_mesh, decide_True by done. unfold mesh_of. rewrite Hsel, decide_True, Hlo by done.
      cbn. by rewrite Hme. }
    split; [unfold same_shape; by rewrite host_shape_key_add_faces, host_shape_key_add_verts,
                                          host_shape_key_add_vsel|].
    split; [by rewrite Hfk, app_nil_r | constructor].
  - intros [] s (_ & _ & _ & Ho & me & keys & Hm & Hs & Hfc & Hk).
    split; [exact Ho|]. exists me, keys. do 3 (split; [done|]).
    split; [by rewrite <- (Forall2_length _ _ _ Hk), length_seq|].
    intros i kf Hkf. destruct (Forall2_lookup_r _ _ _ _ _ Hk Hkf) as (j & Hj & Hok).
    apply lookup_seq in Hj as [-> _]. exact Hok.
Qed.

End AnimateProofs.

(** A leaves object with one triangle, active, with the default
    properties: the Build modifier of its island starts at frame 5 and
    lasts 20 frames. *)
Definition leaves_world : world Z Z :=
  mk_world [mk_object "IvyLeaves" leaves_mesh []] (Some "IvyLeaves"%string).

Definition leaf_triangle : mesh Z :=
  Mesh [Vec3 0 0 0; Vec3 1 0 0; Vec3 0 1 0] [false; false; false] [[0; 1; 2]%nat] [] 0.

Lemma create_shapekey_spec_witness :
  runs (create_shapekey (R:=Z) 0 5 20) leaves_world (fun _ w' =>
    keeps "IvyLeaves" leaves_world w' /\
    exists me' r1 r2, mesh_of "IvyLeaves" (w_objects w') = Some me' /\ same_shape leaf_triangle me' /\
      fcurves me' = fcurves leaf_triangle ++
                      [leaf_keyframes (clamp host_frame_min host_frame_max 1)
                                      (clamp host_frame_min host_frame_max (5 + 20 + r1))
                                      (clamp host_frame_min host_frame_max (5 + 20 + r1 + r2))] /\
      0 <= r1 <= 10 /\ 10 <= r2 <= 25).
Proof.
  apply (create_shapekey_spec leaves_world "IvyLeaves" leaf_triangle 0 [0; 1; 2]%nat 5 20);
    [reflexivity.. | apply Forall_forall; by_elements (cbn; lia) | cbn; lia | cbn; lia].
Defined.

(** The same scene with [min_growth_length = 30] above
    [max_growth_length = 25]. *)
Definition leaves_world_bad : world Z Z :=
  World (w_objects leaves_world) (w_active leaves_world) (w_cursor leaves_world) 1 OBJECT_MODE
        default_branch_props (LeavesProps 10 25 30) 0.

(** Witness of [create_shapekey_bad_growth_range]: the leaf is keyed at
    frames 1 and 25, and [randint(30, 25)] raises. *)
Lemma create_shapekey_bad_growth_range_witness :
  exists w', create_shapekey (R:=Z) 0 5 20 leaves_world_bad = (Err ValueError, w') /\
    keeps "IvyLeaves" leaves_world_bad w' /\
    exists me' r1, mesh_of "IvyLeaves" (w_objects w') = Some me' /\ same_shape leaf_triangle me' /\
      fcurves me' = fcurves leaf_triangle ++
        [fcurve_insert (clamp host_frame_min host_frame_max (5 + 20 + r1)) 1
           (fcurve_insert (clamp host_frame_min host_frame_max 1) 1 [])] /\ 0 <= r1 <= 10.
Proof.
  apply (create_shapekey_bad_growth_range leaves_world_bad "IvyLeaves" leaf_triangle 0 [0; 1; 2]%nat 5 20);
    [reflexivity.. | apply Forall_forall; by_elements (cbn; lia) | cbn; lia | cbn; lia].
Defined.

(** ** Proofs: the error paths of AnimateLeaves.execute *)

Section ExecuteErrors.
Context {R G : Type} `{Scalar R} `{Host R} `{Random G}.

(** C15. When the active object names a branch object, [execute]
    raises, and leaves the scene as it was, in two cases. Either
    [find_ivy_branches] fails: run before Animate Branches, the ivy is
    still a curve and [data.update] raises [AttributeError]. Or the
    [LeavesObject] field names no object, e.g. it was left empty:
    [bpy.data.objects[leaves_object_name]] raises [KeyError]. *)
Theorem animate_leaves_execute_errors (w : world R G) ctx :
  context_object w = (Ok ctx, w) -> ob_BranchObject ctx <> ""%string ->
  (forall e, collect_ivy (ob_BranchObject ctx) (w_objects w) = Err e ->
     animate_leaves_execute w = (Err e, w)) /\
  (forall ivy, collect_ivy (ob_BranchObject ctx) (w_objects w) = Ok ivy ->
     find_object (ob_LeavesObject ctx) (w_objects w) = None ->
     animate_leaves_execute w = (Err (KeyError (ob_LeavesObject ctx)), w)).
Proof.
  intros Hc Hb. unfold animate_leaves_execute. rewrite (py_mbind_ok _ _ _ _ _ Hc).
  cbv beta. rewrite decide_False by exact Hb.
  split; [intros e He | intros ivy Hi Hl]; unfold find_ivy_branches, mbind, py_mbind, py_bind;
    [by rewrite He | rewrite Hi].
  unfold animate_leaves, mbind, py_mbind, py_bind, objects_get. by rewrite Hl.
Qed.


End ExecuteErrors.

(** The two islands of [offset_objects] and a leaves object with one
    triangle. *)
Definition leaves_object : object Z := mk_object "IvyLeaves" (MeshData leaf_triangle) [].
Definition leaves_scene : world Z Z := mk_world (offset_objects ++ [leaves_object]) None.

Lemma animate_leaves_spec_witness :
  runs (animate_leaves "IvyLeaves" offset_ivy) leaves_scene (fun _ w' =>
    (forall n, n <> "IvyLeaves"%string -> find_object n (w_objects w') = find_object n (w_objects leaves_scene)) /\
    exists me keys, mesh_of "IvyLeaves" (w_objects w') = Some me /\ same_shape leaf_triangle me /\
      fcurves me = fcurves leaf_triangle ++ [[]] ++ keys /\ length keys = length (me_faces leaf_triangle) /\
      forall i kf, keys !! i = Some kf ->
        leaf_ok leaves_scene leaves_object leaf_triangle offset_ivy i kf).
Proof.
  apply animate_leaves_spec; [reflexivity | reflexivity | | discriminate | | cbn; lia | cbn; lia].
  - repeat constructor; cbn; lia.
  - by_elements (split; [discriminate | do 3 eexists; repeat split; try reflexivity; discriminate]).
Defined.

(** Animate Leaves on the scene of [scene_ivy_leaves], before Animate
    Branches has converted the curve "Ivy". *)
Lemma animate_leaves_execute_errors_witness :
  context_object scene_ivy_leaves = (Ok (Object "Ctrl" OtherData id_mat [] false "Ivy" "IvyLeaves"), scene_ivy_leaves) /\
  ("Ivy" <> ""%string) /\
  ((forall e, collect_ivy "Ivy" (w_objects scene_ivy_leaves) = Err e ->
      animate_leaves_execute scene_ivy_leaves = (Err e, scene_ivy_leaves)) /\
   (forall ivy, collect_ivy "Ivy" (w_objects scene_ivy_leaves) = Ok ivy ->
      find_object "IvyLeaves" (w_objects scene_ivy_leaves) = None ->
      animate_leaves_execute scene_ivy_leaves = (Err (KeyError "IvyLeaves"), scene_ivy_leaves))) /\
  collect_ivy (R:=Z) "Ivy" (w_objects scene_ivy_leaves) = Err (AttributeError "update").
Proof.
  split; [reflexivity|]. split; [discriminate|]. split; [|reflexivity].
  exact (animate_leaves_execute_errors scene_ivy_leaves _ eq_refl ltac:(discriminate)).
Defined.

(** The two islands, a leaves object whose name does not contain the
    ivy's, and an active object that names them, as the panel sets
    [BranchObject] and [LeavesObject]. *)
Definition leaves_ctrl_scene : world Z Z :=
  mk_world (offset_objects ++ [mk_object "Leaves" (MeshData leaf_triangle) [];
                               Object "Ctrl" OtherData id_mat [] false "Ivy" "Leaves"])
           (Some "Ctrl"%string).

(** ** Running the two operators in turn *)

Section Sequence.
Context {R G : Type} `{Scalar R} `{Host R} `{Random G}.

(** C24. After Animate Branches finishes, the ivy is the active object
    (line 184), so Animate Leaves, run next, reads [BranchObject] and
    [LeavesObject] from the ivy (lines 137-138), not from the object on
    which the panel set them. When the ivy's own [BranchObject] is
    empty, Animate Leaves then does nothing and returns [None]. *)
Theorem branches_then_leaves (w w' : world R G) ctx :
  context_object w = (Ok ctx, w) -> animate_branches_execute w = (Ok FINISHED, w') ->
  context_object w' = objects_get (ob_BranchObject ctx) w' /\
  (forall ivy, find_object (ob_BranchObject ctx) (w_objects w') = Some ivy ->
     ob_BranchObject ivy = ""%string -> animate_leaves_execute w' = (Ok RETURNED_NONE, w')).
Proof.
  intros Hc He. pose proof (animate_branches_active w w' ctx Hc He) as Ha.
  assert (Hctx : context_object w' = objects_get (ob_BranchObject ctx) w')
    by (unfold context_object; by rewrite Ha).
  split; [exact Hctx|]. intros ivy Hf Hb.
  assert (Hi : context_object w' = (Ok ivy, w')) by (rewrite Hctx; unfold objects_get; by rewrite Hf).
  unfold animate_leaves_execute. rewrite (py_mbind_ok _ _ _ _ _ Hi). cbv beta.
  by rewrite decide_True.
Qed.

End Sequence.

(** The panel's fields set on a control object "Ctrl": the ivy curve
    "Ivy" and a leaves mesh "Leaves". *)
Definition workflow_scene : world Z Z :=
  mk_world [Object "Ctrl" OtherData id_mat [] false "Ivy" "Leaves"; mk_object "Ivy" ivy_curve [];
            mk_object "Leaves" leaves_mesh []] (Some "Ctrl"%string).

Definition workflow_after : world Z Z := snd (animate_branches_execute workflow_scene).

(** Animate Branches finishes; Animate Leaves right after it does
    nothing, and once "Ctrl" is selected again it keys the leaf. *)
Lemma branches_then_leaves_witness :
  context_object workflow_scene = (Ok (Object "Ctrl" OtherData id_mat [] false "Ivy" "Leaves"), workflow_scene) /\
  animate_branches_execute workflow_scene = (Ok FINISHED, workflow_after) /\
  (exists ivy, find_object "Ivy" (w_objects workflow_after) = Some ivy /\ ob_BranchObject ivy = ""%string /\
     animate_leaves_execute workflow_after = (Ok RETURNED_NONE, workflow_after)) /\
  fst (animate_leaves_execute (set_active (Some "Ctrl"%string) workflow_after)) = Ok FINISHED.
Proof.
  assert (Hc : context_object workflow_scene =
               (Ok (Object "Ctrl" OtherData id_mat [] false "Ivy" "Leaves"), workflow_scene)) by reflexivity.
  assert (He : animate_branches_execute workflow_scene = (Ok FINISHED, workflow_after))
    by (vm_compute; reflexivity).
  split; [exact Hc|]. split; [exact He|]. split; [|vm_compute; reflexivity].
  destruct (find_object "Ivy" (w_objects workflow_after)) as [ivy|] eqn:Hf; [|vm_compute in Hf; discriminate].
  assert (Hb : ob_BranchObject ivy = ""%string) by (vm_compute in Hf; injection Hf as <-; reflexivity).
  exists ivy. split; [done|]. split; [exact Hb|].
  exact (proj2 (branches_then_leaves _ _ _ Hc He) ivy Hf Hb).
Defined.

(** Witness of [select_face_vertices_spec]: on the triangle, the face
    [[0; 5; 1]] selects vertex 0, then raises at corner 5, vertex 1
    staying unselected. *)
Lemma select_face_vertices_spec_witness :
  select_face_vertices [0; 5; 1]%nat leaf_triangle = (with_vsel [true; false; false] leaf_triangle, Err IndexError).
Proof.
  rewrite (proj2 (select_face_vertices_spec [0; 5; 1]%nat leaf_triangle) [0%nat] 5%nat [1%nat]);
    [reflexivity | reflexivity | repeat constructor; cbn; lia | cbn; lia].
Defined.


(** The two islands of [offset_objects] and a third one without faces. *)
Definition empty_island_objects : list (object Z) :=
  offset_objects ++ [mk_object "Ivy.002" (MeshData (Mesh [] [] [] [] 0)) (grow 17 20)].
Definition empty_island_ivy : list ivy_entry := offset_ivy ++ [IvyEntry "Ivy.002" 0].

(** Witness of [find_nearest_branch_index_error]: the faceless island
    makes the search raise, though the leaf lies on ["Ivy.001"]. *)
Lemma find_nearest_branch_index_error_witness :
  find_nearest_branch empty_island_objects empty_island_ivy (Vec3 100 0 0) = Err IndexError.
Proof.
  refine (proj2 (find_nearest_branch_index_error empty_island_objects empty_island_ivy (Vec3 100 0 0) _) _).
  - by_elements (do 2 eexists; split; reflexivity).
  - right. exists (IvyEntry "Ivy.002" 0), (mk_object "Ivy.002" (MeshData (Mesh [] [] [] [] 0)) (grow 17 20)),
      (Mesh [] [] [] [] 0).
    split; [unfold empty_island_ivy; set_solver|]. repeat split.
Defined.
