(* ===== verification/Addon.v ===== *)
(** * The add-on's classes, [register] / [unregister], and the panel

    Lines 36-101, 128-133, 259-280, 423-437 and 439-448 of
    [src/ivy_growth_animator_addon.py]: [bl_info], the five classes of
    the module with their [bl_*] attributes and RNA properties,
    [register], [unregister], and [IvyGrowthAnimator.draw].

    [register] and [unregister] call [bpy.utils.register_module] and
    [bpy.utils.unregister_module] of Blender 2.65
    ([release/scripts/modules/bpy/utils.py]), modelled as that file
    implements them. [register_module] registers, in the order the
    module defines them, the classes of the module not registered yet;
    it prints and ignores an error of [register_class]; and it raises
    [Exception] when it found no class to register. [unregister_module]
    unregisters the registered ones. Assigning a [bpy.props] property to
    [bpy.types.Object] or [bpy.types.Scene] defines it and replaces a
    property of the same name. A [PointerProperty] whose type is not a
    registered [PropertyGroup] raises [TypeError].

    The registry holds the registered classes (a [gset]) and the
    properties defined on the two RNA types (a [gmap] keyed by type and
    attribute name). [lifecycle_step] is one call of [register] or of
    [unregister], as enabling and disabling the add-on make them.
    [call_operator] is the host's dispatch of [bpy.ops.<idname>] to the
    registered operator. The panel's [draw] builds a [layout]: a list
    of columns and boxes, each a list of widgets. *)

From stdpp Require Import base list strings decidable sets gmap finite relations.
From Stdlib Require Import ZArith Lia.
From S2P Require Import Prelude Scene RefHost Branches Leaves.

Local Open Scope Z_scope.

(** ** [bl_info] (lines 36-46) *)

Record addon_info := AddonInfo {
  ai_name : string; ai_author : string; ai_version : nat * nat * nat; ai_blender : nat * nat * nat;
  ai_category : string; ai_location : string; ai_wiki_url : string; ai_download_url : string;
  ai_description : string
}.

Definition bl_info : addon_info :=
  AddonInfo "Ivy Growth Animator" "Tamir Lousky" (1, 0, 0)%nat (2, 65, 0)%nat "Object"
    "3D View >> Tools" "http://bioblog3d.wordpress.com/2013/02/06/iga-is-ready/"
    "https://github.com/Tlousky/ivy_growth_animator" "Animate the growth of Ivy and Trees.".

(** ** The classes of the module and their declarations *)

Inductive bl_class :=
| IvyGrowthAnimator
| AnimateBranches
| AnimateLeaves
| BranchesAnimProperties
| LeavesAnimProperties.

#[export] Instance bl_class_eq_dec : EqDecision bl_class.
Proof. solve_decision. Defined.

#[export] Program Instance bl_class_finite : Finite bl_class :=
  {| enum := [IvyGrowthAnimator; AnimateBranches; AnimateLeaves; BranchesAnimProperties;
              LeavesAnimProperties] |}.
Next Obligation. repeat constructor; set_solver. Qed.
Next Obligation. intros []; set_solver. Qed.

#[export] Instance bl_class_countable : Countable bl_class := finite_countable.

(** A [bpy.props] property as RNA defines it; an unnamed property is
    named after its attribute. *)
Inductive rna_prop :=
| IntProperty (name description : string) (default : Z)
| StringProperty (name default : string)
| PointerProperty (type : bl_class).

#[export] Instance rna_prop_eq_dec : EqDecision rna_prop.
Proof. solve_decision. Defined.

Inductive class_decl :=
| PanelDecl (idname label space_type region_type context : string)
| OperatorDecl (idname label description : string) (options : list string)
| PropertyGroupDecl (props : list (string * rna_prop)).

(** [class IvyGrowthAnimator(bpy.types.Panel)] (lines 50-55) *)
Definition ivy_growth_animator_decl : class_decl :=
  PanelDecl "IvyGrowthAnimatorPanel" "Ivy Growth Animator" "VIEW_3D" "TOOLS" "objectmode".

(** [class AnimateBranches(bpy.types.Operator)] (lines 96-101) *)
Definition animate_branches_decl : class_decl :=
  OperatorDecl "object.animate_branches" "Animate Branches" "Animate the BranchObject selected above"
    ["REGISTER"; "UNDO"].

(** [class AnimateLeaves(bpy.types.Operator)] (lines 128-133) *)
Definition animate_leaves_decl : class_decl :=
  OperatorDecl "object.animate_leaves" "Animate Leaves" "Animate the LeavesObject selected above"
    ["REGISTER"; "UNDO"].

(** The properties of [BranchesAnimProperties] (lines 259-280). *)
Definition branches_props_decl : class_decl :=
  PropertyGroupDecl
    [("frame_start", IntProperty "frame_start" "Growth animation's start point (frame)" 1);
     ("faces_per_frame", IntProperty "faces_per_frame" "Speed of the animation (higher values = faster)" 4);
     ("delay_branches", IntProperty "delay_branches" "Number of frames to wait between branch builds" 4);
     ("initial_delay", IntProperty "initial_delay" "Number of frames to wait before animating 2nd branch" 15);
     ("modifier_name", StringProperty "modifier_name" "GROW")].

(** The properties of [LeavesAnimProperties] (lines 423-437). *)
Definition leaves_props_decl : class_decl :=
  PropertyGroupDecl
    [("delay_after_branch", IntProperty "delay_after_branch"
        "Frames to wait before animating leaf after closest branch finished animating" 10);
     ("max_growth_length", IntProperty "max_growth_length" "Maximum length for the growth animation of a leaf" 25);
     ("min_growth_length", IntProperty "min_growth_length" "Minimum length for the growth animation of a leaf" 10)].

Definition class_decl_of (c : bl_class) : class_decl :=
  match c with
  | IvyGrowthAnimator => ivy_growth_animator_decl
  | AnimateBranches => animate_branches_decl
  | AnimateLeaves => animate_leaves_decl
  | BranchesAnimProperties => branches_props_decl
  | LeavesAnimProperties => leaves_props_decl
  end.

(** The classes in the order the module defines them, which is the
    order [bpy.types.TypeMap] keeps for [register_module]. *)
Definition module_classes : list bl_class :=
  [IvyGrowthAnimator; AnimateBranches; AnimateLeaves; BranchesAnimProperties; LeavesAnimProperties].


Definition is_property_group (c : bl_class) : bool :=
  match class_decl_of c with PropertyGroupDecl _ => true | _ => false end.

Definition operator_idname (c : bl_class) : option string :=
  match class_decl_of c with OperatorDecl idname _ _ _ => Some idname | _ => None end.

(** ** The registry *)

Inductive rna_type := RNA_Object | RNA_Scene.

#[export] Instance rna_type_eq_dec : EqDecision rna_type.
Proof. solve_decision. Defined.

#[export] Program Instance rna_type_finite : Finite rna_type := {| enum := [RNA_Object; RNA_Scene] |}.
Next Obligation. repeat constructor; set_solver. Qed.
Next Obligation. intros []; set_solver. Qed.

#[export] Instance rna_type_countable : Countable rna_type := finite_countable.

Record registry := Registry {
  reg_classes : gset bl_class;
  reg_props : gmap (rna_type * string) rna_prop
}.

#[export] Instance registry_eq_dec : EqDecision registry.
Proof. solve_decision. Defined.

Definition empty_registry : registry := Registry ∅ ∅.

(** [bpy.utils.register_class]: a class registers once. *)
Definition register_class (c : bl_class) : PyM registry unit :=
  fun r => if decide (c ∈ reg_classes r) then (Err ValueError, r)
           else (Ok tt, Registry ({[c]} ∪ reg_classes r) (reg_props r)).

(** [bpy.utils.unregister_class] *)
Definition unregister_class (c : bl_class) : PyM registry unit :=
  fun r => if decide (c ∈ reg_classes r) then (Ok tt, Registry (reg_classes r ∖ {[c]}) (reg_props r))
           else (Err RuntimeError, r).

(** [try: c except: print(...)] *)
Definition py_ignore {S} (c : PyM S unit) : PyM S unit :=
  fun s => match c s with (Err _, s') => (Ok tt, s') | r => r end.

(** [bpy.utils.register_module]: the classes not registered yet are
    registered, errors printed; [cls] is still [None] after the loop
    when there was none. *)
Definition register_module (classes : list bl_class) : PyM registry unit :=
  todo ← py_gets (fun r => filter (fun c => c ∉ reg_classes r) classes);
  _ ← py_for todo (fun c => py_ignore (register_class c));
  if decide (todo = []) then py_raise (Exception "register_module: defines no classes") else py_ret tt.

Definition unregister_module (classes : list bl_class) : PyM registry unit :=
  todo ← py_gets (fun r => filter (fun c => c ∈ reg_classes r) classes);
  py_for todo (fun c => py_ignore (unregister_class c)).

(** [bpy.types.<t>.<attr> = prop] *)
Definition define_property (t : rna_type) (attr : string) (p : rna_prop) : PyM registry unit :=
  fun r => match p with
           | PointerProperty c =>
               if decide (c ∈ reg_classes r /\ is_property_group c = true)
               then (Ok tt, Registry (reg_classes r) (<[(t, attr) := p]> (reg_props r)))
               else (Err TypeError, r)
           | _ => (Ok tt, Registry (reg_classes r) (<[(t, attr) := p]> (reg_props r)))
           end.

(** [register()] (lines 439-445) *)
Definition register : PyM registry unit :=
  _ ← register_module module_classes;
  _ ← define_property RNA_Object "BranchObject" (StringProperty "BranchObject" "");
  _ ← define_property RNA_Object "LeavesObject" (StringProperty "LeavesObject" "");
  _ ← define_property RNA_Scene "BranchesAnimProperties" (PointerProperty BranchesAnimProperties);
  define_property RNA_Scene "LeavesAnimProperties" (PointerProperty LeavesAnimProperties).

(** [unregister()] (lines 447-448) *)
Definition unregister : PyM registry unit := unregister_module module_classes.

(** The properties [register] defines. *)
Definition addon_props : gmap (rna_type * string) rna_prop :=
  <[(RNA_Scene, "LeavesAnimProperties") := PointerProperty LeavesAnimProperties]>
  (<[(RNA_Scene, "BranchesAnimProperties") := PointerProperty BranchesAnimProperties]>
  (<[(RNA_Object, "LeavesObject") := StringProperty "LeavesObject" ""]>
  (<[(RNA_Object, "BranchObject") := StringProperty "BranchObject" ""]> ∅))).

(** Enabled: every class registered, every property defined. *)
Definition ready_registry : registry := Registry (list_to_set module_classes) addon_props.

(** Disabled after having been enabled: no class, the properties left. *)
Definition disabled_registry : registry := Registry ∅ addon_props.

(** Enabling and disabling the add-on. *)
Inductive lifecycle_step : registry -> registry -> Prop :=
| step_register r : lifecycle_step r (run_st register r)
| step_unregister r : lifecycle_step r (run_st unregister r).

Definition reachable (r : registry) : Prop := rtc lifecycle_step empty_registry r.

(** A pointer property whose type is not registered. *)
Definition dangling (r : registry) : Prop :=
  exists k c, reg_props r !! k = Some (PointerProperty c) /\ c ∉ reg_classes r.

(** ** Dispatch of [bpy.ops.<idname>] *)

(** The registered operator whose [bl_idname] is [idname]. *)
Definition operator_of_idname (r : registry) (idname : string) : option bl_class :=
  List.find (fun c => bool_decide (c ∈ reg_classes r /\ operator_idname c = Some idname)) module_classes.

Section Dispatch.
Context {R G : Type} `{Scalar R} `{Host R} `{Random G}.

(** Calling an operator runs the [execute] of its class, or raises
    [AttributeError] ("could not be found") when none is registered. *)
Definition call_operator (r : registry) (idname : string) : PyM (world R G) op_return :=
  match operator_of_idname r idname with
  | Some AnimateBranches => animate_branches_execute
  | Some AnimateLeaves => animate_leaves_execute
  | _ => py_raise (AttributeError idname)
  end.

End Dispatch.

(** ** [IvyGrowthAnimator.draw] (lines 58-93) *)












(** [context.object] for the panel: the active object, or [None]. *)
Definition context_object_opt {R G} (w : world R G) : option (object R) :=
  n ← w_active w; find_object n (w_objects w).





(** ** Proofs: the lifecycle *)

Definition lifecycle_state (r : registry) : Prop :=
  r = empty_registry \/ r = ready_registry \/ r = disabled_registry.

(** [register] and [unregister] map each of the three states to one
    of them (computed). *)
Lemma lifecycle_state_step r r' : lifecycle_state r -> lifecycle_step r r' -> lifecycle_state r'.
Proof.
  intros Hr Hs. inversion Hs; subst; destruct Hr as [-> | [-> | ->]]; unfold lifecycle_state;
    first [left; reflexivity | right; left; reflexivity | right; right; reflexivity].
Qed.

(** Every reachable registry is one of the three states. *)
Lemma reachable_lifecycle_state r : reachable r -> lifecycle_state r.
Proof.
  unfold reachable. revert r. apply rtc_ind_r; [by left|].
  intros r1 r2 _ Hs IH. exact (lifecycle_state_step r1 r2 IH Hs).
Qed.

Lemma ready_classes c : c ∈ reg_classes ready_registry.
Proof. unfold ready_registry, reg_classes. rewrite elem_of_list_to_set. destruct c; set_solver. Qed.

Lemma ready_ne_empty : ready_registry <> empty_registry.
Proof. intros Heq. pose proof (ready_classes AnimateBranches) as Hin. rewrite Heq in Hin. set_solver. Qed.

Lemma ready_ne_disabled : ready_registry <> disabled_registry.
Proof. intros Heq. pose proof (ready_classes AnimateBranches) as Hin. rewrite Heq in Hin. set_solver. Qed.

Lemma ready_reachable : reachable ready_registry.
Proof. eapply rtc_l; [apply step_register|]. change (run_st register empty_registry) with ready_registry. done. Qed.

Lemma disabled_reachable : reachable disabled_registry.
Proof.
  eapply rtc_l; [apply step_register|]. change (run_st register empty_registry) with ready_registry.
  eapply rtc_l; [apply step_unregister|]. change (run_st unregister ready_registry) with disabled_registry.
  done.
Qed.

(** C19. Enabling and disabling the add-on, in any order and any
    number of times from a fresh session, leaves the registry in one of
    three states: nothing registered; every class registered and the
    four properties defined; or no class registered but the four
    properties still defined. *)
Theorem reachable_registries r :
  reachable r -> r = empty_registry \/ r = ready_registry \/ r = disabled_registry.
Proof. apply reachable_lifecycle_state. Qed.

(** C20. [unregister] removes the classes but not the properties
    [register] defined: once the add-on has been enabled, disabling it
    leaves [Scene.BranchesAnimProperties] pointing to the unregistered
    class [BranchesAnimProperties]. *)
Theorem unregister_leaves_dangling r :
  reachable r -> r <> empty_registry ->
  run_st unregister r = disabled_registry /\ dangling (run_st unregister r).
Proof.
  intros Hr Hne. assert (Hu : run_st unregister r = disabled_registry).
  { destruct (reachable_lifecycle_state r Hr) as [-> | [-> | ->]]; [done | reflexivity | reflexivity]. }
  rewrite Hu. split; [done|]. exists (RNA_Scene, "BranchesAnimProperties"), BranchesAnimProperties.
  split; [reflexivity | set_solver].
Qed.

(** C21. From every reachable state, one call of [register] enables
    the add-on completely. It raises [Exception] exactly when the add-on
    is enabled already: [register_module] then finds no class left to
    register, and the properties are not redefined. *)
Theorem register_enables r :
  reachable r ->
  run_st register r = ready_registry /\
  run_res register r = if decide (r = ready_registry)
                       then Err (Exception "register_module: defines no classes") else Ok tt.
Proof.
  intros Hr. destruct (reachable_lifecycle_state r Hr) as [-> | [-> | ->]]; (split; [reflexivity|]).
  - rewrite decide_False by (symmetry; apply ready_ne_empty). reflexivity.
  - rewrite decide_True by done. reflexivity.
  - rewrite decide_False by (symmetry; apply ready_ne_disabled). reflexivity.
Qed.

(** ** Proofs: dispatch and the panel *)

Section DispatchProofs.
Context {R G : Type} `{Scalar R} `{Host R} `{Random G}.

Lemma call_operator_ready_branches :
  call_operator (R:=R) (G:=G) ready_registry "object.animate_branches" = animate_branches_execute.
Proof. reflexivity. Qed.

Lemma call_operator_ready_leaves :
  call_operator (R:=R) (G:=G) ready_registry "object.animate_leaves" = animate_leaves_execute.
Proof. reflexivity. Qed.

(** Without registered classes no operator is found. *)
Lemma call_operator_unregistered r idname (w : world R G) :
  reg_classes r = ∅ -> call_operator r idname w = (Err (AttributeError idname), w).
Proof. intros Hr. unfold call_operator, operator_of_idname. rewrite Hr. reflexivity. Qed.

(** C22. In every reachable state, [bpy.ops.object.animate_branches]
    and [bpy.ops.object.animate_leaves] run the [execute] of
    [AnimateBranches] and [AnimateLeaves] when the add-on is enabled,
    and otherwise raise [AttributeError] without changing the scene. *)
Theorem call_operator_spec r (w : world R G) :
  reachable r ->
  (r = ready_registry ->
     call_operator r "object.animate_branches" w = animate_branches_execute w /\
     call_operator r "object.animate_leaves" w = animate_leaves_execute w) /\
  (r <> ready_registry ->
     call_operator r "object.animate_branches" w = (Err (AttributeError "object.animate_branches"), w) /\
     call_operator r "object.animate_leaves" w = (Err (AttributeError "object.animate_leaves"), w)).
Proof.
  intros Hr. split.
  - intros ->. by rewrite call_operator_ready_branches, call_operator_ready_leaves.
  - intros Hne. destruct (reachable_lifecycle_state r Hr) as [Hs | [Hs | Hs]]; subst r; [|done|];
      split; by apply call_operator_unregistered.
Qed.

End DispatchProofs.








(** ** Examples *)

(** Enabled, then disabled: the third state. *)
Lemma reachable_registries_witness :
  reachable disabled_registry /\
  (disabled_registry = empty_registry \/ disabled_registry = ready_registry \/
   disabled_registry = disabled_registry).
Proof. split; [exact disabled_reachable | exact (reachable_registries _ disabled_reachable)]. Defined.

(** Disabling the enabled add-on leaves [Scene.BranchesAnimProperties]
    dangling. *)
Lemma unregister_leaves_dangling_witness :
  reachable ready_registry /\ ready_registry <> empty_registry /\
  run_st unregister ready_registry = disabled_registry /\ dangling (run_st unregister ready_registry).
Proof.
  split; [exact ready_reachable|]. split; [exact ready_ne_empty|].
  exact (unregister_leaves_dangling _ ready_reachable ready_ne_empty).
Defined.

(** Calling [register] on the enabled add-on raises. *)
Lemma register_enables_witness :
  reachable ready_registry /\
  run_st register ready_registry = ready_registry /\
  run_res register ready_registry = if decide (ready_registry = ready_registry)
                                    then Err (Exception "register_module: defines no classes") else Ok tt.
Proof. split; [exact ready_reachable | exact (register_enables _ ready_reachable)]. Defined.

(** On the scene [leaves_ctrl_scene]: Animate Leaves runs
    and finishes once the add-on is enabled, and is not found once it
    is disabled. *)
Lemma call_operator_spec_witness :
  reachable disabled_registry /\ disabled_registry <> ready_registry /\
  fst (call_operator ready_registry "object.animate_leaves" leaves_ctrl_scene) = Ok FINISHED /\
  call_operator disabled_registry "object.animate_leaves" leaves_ctrl_scene =
    (Err (AttributeError "object.animate_leaves"), leaves_ctrl_scene).
Proof.
  split; [exact disabled_reachable|]. split; [intros H; symmetry in H; exact (ready_ne_disabled H)|].
  split; [vm_compute; reflexivity|].
  exact (proj2 (proj2 (call_operator_spec disabled_registry leaves_ctrl_scene disabled_reachable)
           (fun H => ready_ne_disabled (eq_sym H)))).
Defined.

